(** * scVI variational auto-encoders: a shallow embedding of [scvi/models/vae.py]

    The development follows the Python module class by class.  Tensors are
    modelled as a shape together with an indexing function into the real
    numbers, with float32 rounding modelled where the sign of a result
    depends on it; the neural sub-networks ([Encoder], [DecoderSCVI],
    [LinearDecoderSCVI], [DecoderPoisson]), the likelihood formulas
    ([log_zinb_positive], [log_nb_positive]) and [one_hot] live in other
    modules of the package and are taken as parameters.  Python exceptions
    are explicit results, and the global random generator, the mutable
    buffers of the sub-networks and the sequence of sub-network calls are
    threaded through a small state-and-error monad. *)

From Stdlib Require Import String Bool Arith ZArith Lia Reals Lra List.
Import ListNotations.
Local Open Scope nat_scope.
Local Open Scope list_scope.

Set Implicit Arguments.
Set Warnings "-register-all".

(** ** Python exceptions and results *)

Inductive exn : Type :=
| AssertionError
| NotImplementedError
| UnboundLocalError
| AttributeError
| TypeError
| ValueError
| IndexError
| RuntimeError.

Inductive result (A : Type) : Type :=
| Ok (a : A)
| Raise (e : exn).

Arguments Ok {A} a.
Arguments Raise {A} e.

Definition rbind {A B} (r : result A) (k : A -> result B) : result B :=
  match r with
  | Ok a => k a
  | Raise e => Raise e
  end.

Declare Scope res_scope.
Delimit Scope res_scope with res.
Notation "x <- c ;; k" := (rbind c (fun x => k))
  (at level 61, c at next level, right associativity) : res_scope.

Definition is_ok {A} (r : result A) : bool :=
  match r with Ok _ => true | Raise _ => false end.

(** ** Tensors *)

(** A tensor is its [shape] and the value found at each multi-index.  Only
    the values at indices inside the shape are meaningful. *)
Record Tensor : Type := mkTensor {
  shape : list nat;
  at_ : list nat -> R
}.

Definition dim (t : Tensor) : nat := length (shape t).

Fixpoint prod (s : list nat) : nat :=
  match s with
  | [] => 1
  | d :: s' => d * prod s'
  end.

Definition numel (t : Tensor) : nat := prod (shape t).

Fixpoint Rsum_upto (n : nat) (f : nat -> R) : R :=
  match n with
  | O => 0%R
  | S k => (Rsum_upto k f + f k)%R
  end.

(** Row-major position of a multi-index, and back. *)
Fixpoint ravel (s idx : list nat) : nat :=
  match s, idx with
  | _ :: s', i :: idx' => i * prod s' + ravel s' idx'
  | _, _ => 0
  end.

Fixpoint unravel (s : list nat) (k : nat) : list nat :=
  match s with
  | [] => []
  | _ :: s' => (k / prod s') :: unravel s' (k mod prod s')
  end.

Definition of_list (s : list nat) (data : list R) : Tensor :=
  {| shape := s; at_ := fun idx => nth (ravel s idx) data 0%R |}.

Definition full (s : list nat) (v : R) : Tensor :=
  {| shape := s; at_ := fun _ => v |}.

(** [torch.zeros], [torch.ones], [torch.eye]. *)
Definition zeros (s : list nat) : Tensor := full s 0%R.
Definition ones (s : list nat) : Tensor := full s 1%R.
Definition eye (n : nat) : Tensor :=
  {| shape := [n; n];
     at_ := fun idx =>
       match idx with
       | [i; j] => if i =? j then 1%R else 0%R
       | _ => 0%R
       end |}.

Definition tmap (f : R -> R) (t : Tensor) : Tensor :=
  {| shape := shape t; at_ := fun idx => f (at_ t idx) |}.

Definition texp : Tensor -> Tensor := tmap exp.
Definition tsqrt : Tensor -> Tensor := tmap sqrt.
Definition tneg : Tensor -> Tensor := tmap Ropp.
(** [torch.log(1 + x)] *)
Definition tlog1p : Tensor -> Tensor := tmap (fun v => ln (1 + v)).

(** *** Broadcasting *)

(** Shapes are aligned on their last axis; two sizes are compatible when
    they are equal or one of them is 1. *)
Fixpoint broadcast_rev (a b : list nat) : option (list nat) :=
  match a, b with
  | [], _ => Some b
  | _, [] => Some a
  | x :: a', y :: b' =>
      match broadcast_rev a' b' with
      | None => None
      | Some r =>
          if x =? y then Some (x :: r)
          else if x =? 1 then Some (y :: r)
          else if y =? 1 then Some (x :: r)
          else None
      end
  end.

Definition broadcast_shapes (a b : list nat) : option (list nat) :=
  option_map (@rev nat) (broadcast_rev (rev a) (rev b)).

(** The index read in an operand of shape [s] for the index [idx] of the
    broadcast result. *)
Definition bidx (s idx : list nat) : list nat :=
  map (fun di => if fst di =? 1 then 0 else snd di)
      (combine s (skipn (length idx - length s) idx)).

Definition tbinop (f : R -> R -> R) (a b : Tensor) : result Tensor :=
  match broadcast_shapes (shape a) (shape b) with
  | None => Raise RuntimeError
  | Some s =>
      Ok {| shape := s;
            at_ := fun idx => f (at_ a (bidx (shape a) idx))
                                (at_ b (bidx (shape b) idx)) |}
  end.

Definition tadd := tbinop Rplus.
Definition tsub := tbinop Rminus.
Definition tmul := tbinop Rmult.
Definition tdiv := tbinop Rdiv.

(** [t.expand(s)] for a shape [s] the tensor broadcasts to. *)
Definition expand_to (s : list nat) (t : Tensor) : Tensor :=
  {| shape := s; at_ := fun idx => at_ t (bidx (shape t) idx) |}.

(** *** Reductions *)

(** A Python axis number, possibly negative, for a tensor of [n] axes; a
    zero-dimensional tensor accepts the axes 0 and -1. *)
Definition norm_dim (d : Z) (n : nat) : option nat :=
  let m := Z.of_nat (Nat.max n 1) in
  if ((0 <=? d) && (d <? m))%Z then Some (Z.to_nat d)
  else if ((- m <=? d) && (d <? 0))%Z then Some (Z.to_nat (d + m))
  else None.

Definition insert_at (k j : nat) (idx : list nat) : list nat :=
  firstn k idx ++ j :: skipn k idx.

Definition drop_axis (k : nat) (s : list nat) : list nat :=
  firstn k s ++ skipn (S k) s.

(** [t.sum(dim=d)] *)
Definition tsum (t : Tensor) (d : Z) : result Tensor :=
  match norm_dim d (dim t) with
  | None => Raise IndexError
  | Some k =>
      match shape t with
      | [] => Ok t
      | s =>
          Ok {| shape := drop_axis k s;
                at_ := fun idx =>
                  Rsum_upto (nth k s 0) (fun j => at_ t (insert_at k j idx)) |}
      end
  end.

(** [t.mean(dim=d)] *)
Definition tmean (t : Tensor) (d : Z) : result Tensor :=
  match norm_dim d (dim t) with
  | None => Raise IndexError
  | Some k =>
      match shape t with
      | [] => Ok t
      | s =>
          Ok {| shape := drop_axis k s;
                at_ := fun idx =>
                  (Rsum_upto (nth k s 0%nat)
                             (fun j => at_ t (insert_at k j idx))
                   / INR (nth k s 0%nat))%R |}
      end
  end.

(** *** Reshaping *)

(** [t.unsqueeze(0).expand([n] + list(t.size()))] *)
Definition unsqueeze_expand (n : nat) (t : Tensor) : Tensor :=
  {| shape := n :: shape t; at_ := fun idx => at_ t (tl idx) |}.

(** [t.view(-1, 1)] *)
Definition view_column (t : Tensor) : Tensor :=
  {| shape := [numel t; 1];
     at_ := fun idx => at_ t (unravel (shape t) (hd 0 idx)) |}.

(** [t.view(s)] *)
Definition view (t : Tensor) (s : list nat) : result Tensor :=
  if prod s =? numel t
  then Ok {| shape := s;
             at_ := fun idx => at_ t (unravel (shape t) (ravel s idx)) |}
  else Raise RuntimeError.

(** *** [torch.nn.functional.linear] without bias *)

(** [input] has shape [lead ++ [n_in]]; [weight] has shape [[n_out; n_in]]
    and the result [lead ++ [n_out]], or [weight] has shape [[n_in]] and the
    result [lead]. *)
Definition F_linear (input weight : Tensor) : result Tensor :=
  match rev (shape input), shape weight with
  | n_in :: lead, [n_out; n_in'] =>
      if n_in =? n_in'
      then Ok {| shape := rev lead ++ [n_out];
                 at_ := fun idx =>
                   Rsum_upto n_in (fun i =>
                     at_ input (removelast idx ++ [i])
                     * at_ weight [last idx 0%nat; i])%R |}
      else Raise RuntimeError
  | n_in :: lead, [n_in'] =>
      if n_in =? n_in'
      then Ok {| shape := rev lead;
                 at_ := fun idx =>
                   Rsum_upto n_in (fun i =>
                     at_ input (idx ++ [i]) * at_ weight [i])%R |}
      else Raise RuntimeError
  | _, _ => Raise RuntimeError
  end.

(** A result that is a tensor of a given shape. *)
Definition returns_shape (r : result Tensor) (s : list nat) : Prop :=
  exists t, r = Ok t /\ shape t = s.

(** ** float32 and [torch.exp] *)












(** ** The torch runtime *)

(** What the embedding takes from torch without modelling it: the state of
    the global random generator, the state installed by
    [torch.manual_seed], [torch.randn], the mutable buffers of the
    sub-networks (running statistics and the like), and the scalar kernels
    of the densities that involve special functions or linear algebra. *)
Class Runtime : Type := {
  rng : Type;
  buffers : Type;
  seeded : Z -> rng;
  randn : list nat -> rng -> Tensor * rng;
  (* the initial weight [out; in] and bias [out] of nn.Linear(in, out) *)
  linear_init : nat -> nat -> rng -> Tensor * Tensor * rng;
  lgamma : R -> R;
  (* log-density of a multivariate normal of dimension n at a point *)
  mvn_log_density : nat -> (nat -> R) -> (nat -> nat -> R) -> (nat -> R) -> R;
  (* KL divergence between two multivariate normals of dimension n *)
  mvn_kl_density :
    nat -> (nat -> R) -> (nat -> nat -> R) ->
    (nat -> R) -> (nat -> nat -> R) -> R
}.

Section Model.
Context {RT : Runtime}.

(** What a sub-network can read and change when it is called. *)
Record store : Type := mkStore {
  st_rng : rng;
  st_buffers : buffers
}.

(** The calls into sub-networks, in the order they happen. *)
Inductive call : Type :=
| ZEncoderForward
| LEncoderForward
| ZEncoderSample
| LEncoderSample
| DecoderForward.

Record world : Type := mkWorld {
  w_store : store;
  w_trace : list call
}.

(** A computation reads and changes the world and returns or raises; a
    raised exception keeps the changes made before it. *)
Definition M (A : Type) : Type := world -> result A * world.

Definition ret {A} (a : A) : M A := fun w => (Ok a, w).

Definition bind {A B} (c : M A) (k : A -> M B) : M B :=
  fun w =>
    match c w with
    | (Ok a, w') => k a w'
    | (Raise e, w') => (Raise e, w')
    end.

Definition raise {A} (e : exn) : M A := fun w => (Raise e, w).

Definition lift {A} (r : result A) : M A := fun w => (r, w).

(** The Python statement [assert b]. *)
Definition assert (b : bool) : M unit :=
  if b then ret tt else raise AssertionError.

(** A call into a sub-network, recorded in the trace. *)
Definition call_network {A} (c : call) (f : store -> result A * store) : M A :=
  fun w =>
    let (r, s') := f (w_store w) in
    (r, {| w_store := s'; w_trace := w_trace w ++ [c] |}).

(** [torch.manual_seed(n)] *)
Definition manual_seed (n : Z) : M unit :=
  fun w =>
    (Ok tt, {| w_store := {| st_rng := seeded n;
                             st_buffers := st_buffers (w_store w) |};
               w_trace := w_trace w |}).

Notation "x <~ c ; k" := (bind c (fun x => k))
  (at level 61, c at next level, right associativity).
Notation "' p <~ c ; k" := (bind c (fun x => let p := x in k))
  (at level 61, p pattern, c at next level, right associativity).

(** ** [torch.distributions] *)

Inductive Distribution : Type :=
| NormalD (loc scale : Tensor)
| MultivariateNormalD (loc cov : Tensor) (batch_shape : list nat) (n : nat)
| PoissonD (rate : Tensor).

(** [Normal(loc, scale)]: both arguments are broadcast to a common shape.
    Argument validation is off, as it is by default in the torch releases
    the package was written for. *)
Definition Normal (loc scale : Tensor) : result Distribution :=
  match broadcast_shapes (shape loc) (shape scale) with
  | None => Raise ValueError
  | Some s => Ok (NormalD (expand_to s loc) (expand_to s scale))
  end.

(** [MultivariateNormal(loc, cov)]: [loc] has shape [batch ++ [n]] and the
    matrix argument [batch' ++ [n; n]]. *)
Definition MultivariateNormal (loc cov : Tensor) : result Distribution :=
  match rev (shape loc), rev (shape cov) with
  | n :: lb, n1 :: n2 :: cb =>
      if (n =? n1) && (n =? n2)
      then match broadcast_shapes (rev lb) (rev cb) with
           | Some b => Ok (MultivariateNormalD loc cov b n)
           | None => Raise ValueError
           end
      else Raise ValueError
  | _, _ => Raise ValueError
  end.

Definition tsqr : Tensor -> Tensor := tmap (fun v => v * v)%R.
Definition tlog : Tensor -> Tensor := tmap ln.
Definition tscale (c : R) : Tensor -> Tensor := tmap (Rmult c).
Definition tshift (c : R) : Tensor -> Tensor := tmap (fun v => v + c)%R.

Local Open Scope res_scope.

(** [kl_divergence(Normal, Normal)], as torch registers it. *)
Definition kl_normal_normal (ploc pscale qloc qscale : Tensor) : result Tensor :=
  ratio <- tdiv pscale qscale ;;
  let var_ratio := tsqr ratio in
  diff <- tsub ploc qloc ;;
  sdiff <- tdiv diff qscale ;;
  let t1 := tsqr sdiff in
  a <- tadd var_ratio t1 ;;
  b <- tsub (tshift (-1) a) (tlog var_ratio) ;;
  Ok (tscale (/ 2) b).

(** The leading axes of a tensor, without its last [k] axes. *)
Definition lead_shape (k : nat) (s : list nat) : list nat :=
  firstn (length s - k) s.

(** The vector and the matrix found at a batch index of the arguments of a
    multivariate normal. *)
Definition vec_at (t : Tensor) (idx : list nat) : nat -> R :=
  fun i => at_ t (bidx (lead_shape 1 (shape t)) idx ++ [i]).
Definition mat_at (t : Tensor) (idx : list nat) : nat -> nat -> R :=
  fun i j => at_ t (bidx (lead_shape 2 (shape t)) idx ++ [i; j]).

Definition kl_mvn_mvn (ploc pcov : Tensor) (pb : list nat) (pn : nat)
    (qloc qcov : Tensor) (qb : list nat) (qn : nat) : result Tensor :=
  if pn =? qn
  then match broadcast_shapes pb qb with
       | Some s =>
           Ok {| shape := s;
                 at_ := fun idx =>
                   mvn_kl_density pn (vec_at ploc idx) (mat_at pcov idx)
                                     (vec_at qloc idx) (mat_at qcov idx) |}
       | None => Raise RuntimeError
       end
  else Raise ValueError.

(** [kl_divergence(p, q)] dispatches on the two classes; a pair with no
    registered formula raises [NotImplementedError]. *)
Definition kl (p q : Distribution) : result Tensor :=
  match p, q with
  | NormalD pl ps, NormalD ql qs => kl_normal_normal pl ps ql qs
  | MultivariateNormalD pl pc pb pn, MultivariateNormalD ql qc qb qn =>
      kl_mvn_mvn pl pc pb pn ql qc qb qn
  | _, _ => Raise NotImplementedError
  end.

Definition log_sqrt_2pi : R := ln (sqrt (2 * PI)).

(** [d.log_prob(value)] *)
Definition log_prob (d : Distribution) (value : Tensor) : result Tensor :=
  match d with
  | NormalD loc scale =>
      let var := tsqr scale in
      let log_scale := tlog scale in
      diff <- tsub value loc ;;
      q <- tdiv (tneg (tsqr diff)) (tscale 2 var) ;;
      r <- tsub q log_scale ;;
      Ok (tshift (- log_sqrt_2pi) r)
  | MultivariateNormalD loc cov b n =>
      match rev (shape value) with
      | m :: vb =>
          if (m =? n) || (m =? 1)
          then match broadcast_shapes (rev vb) b with
               | Some s =>
                   Ok {| shape := s;
                         at_ := fun idx =>
                           mvn_log_density n (vec_at loc idx) (mat_at cov idx)
                             (fun i => vec_at value idx
                                         (if m =? 1 then 0 else i)) |}
               | None => Raise ValueError
               end
          else Raise ValueError
      | [] => Raise ValueError
      end
  | PoissonD rate =>
      tbinop (fun r v => v * ln r - r - lgamma (v + 1))%R rate value
  end.

(** ** The sub-networks of [scvi.models.modules] *)

(** An [Encoder]: its forward pass returns the posterior mean, the posterior
    variance and a latent draw; [sample] draws again from given moments and
    [distrib] builds the distribution with given moments.  The extra
    positional arguments of a call are passed as a list ([None] for Python's
    [None]). *)
Record Encoder : Type := mkEncoder {
  enc_forward :
    Tensor -> list (option Tensor) -> store ->
    result (Tensor * Tensor * Tensor) * store;
  enc_sample : Tensor -> Tensor -> store -> result Tensor * store;
  enc_distrib : Tensor -> Tensor -> result Distribution
}.

(** A [DecoderSCVI] or [LinearDecoderSCVI]: called with the dispersion mode,
    the latent draw, the library size and the categorical covariates, it
    returns [px_scale], [px_r], [px_rate] and [px_dropout]; its [px_r] may
    be Python's [None]. *)
Record DecoderSCVI : Type := mkDecoderSCVI {
  dec_forward :
    string -> Tensor -> Tensor -> list (option Tensor) -> store ->
    result (Tensor * option Tensor * Tensor * Tensor) * store
}.

(** A [DecoderPoisson] returns the Poisson rate alone. *)
Record DecoderPoisson : Type := mkDecoderPoisson {
  decp_forward :
    Tensor -> Tensor -> list (option Tensor) -> store ->
    result Tensor * store
}.

(** A [torch.nn.Parameter]; [p_id] stands for the identity of the object. *)
Record NNParameter : Type := mkNNParameter {
  p_id : nat;
  p_data : Tensor;
  requires_grad : bool
}.

(** A [torch.nn.Module] as the tree of its registered parameters and
    sub-modules. *)
Inductive NNModule : Type :=
| mkNNModule (own : list NNParameter) (children : list NNModule).

(** A [LinearDecoderSCVI] is a decoder whose [factor_regressor] sub-module
    can be reached. *)
Record LinearDecoderSCVI : Type := mkLinearDecoderSCVI {
  lin_decoder : DecoderSCVI;
  factor_regressor : NNModule
}.

(** What the module imports from the rest of the package: the two
    likelihoods, [one_hot], and the constructors of the sub-networks.  A
    keyword argument the caller leaves out is [None]. *)
Class Package : Type := {
  log_zinb_positive : Tensor -> Tensor -> Tensor -> Tensor -> result Tensor;
  log_nb_positive : Tensor -> Tensor -> Tensor -> result Tensor;
  one_hot : option Tensor -> nat -> result Tensor;
  (* Encoder(n_input, n_output, n_layers, n_hidden, dropout_rate,
             full_cov, autoregressive) *)
  Encoder__init__ :
    nat -> nat -> nat -> nat -> R -> option bool -> option bool ->
    store -> Encoder * store;
  (* DecoderSCVI(n_input, n_output, n_cat_list, n_layers, n_hidden) *)
  DecoderSCVI__init__ :
    nat -> nat -> list nat -> nat -> nat -> store -> DecoderSCVI * store;
  LinearDecoderSCVI__init__ :
    nat -> nat -> list nat -> nat -> nat -> store -> LinearDecoderSCVI * store;
  DecoderPoisson__init__ :
    nat -> nat -> list nat -> nat -> nat -> store -> DecoderPoisson * store
}.

Context {PK : Package}.

Local Open Scope string_scope.
Local Open Scope list_scope.

(** ** [class VAE] *)

Record VAE : Type := mkVAE {
  dispersion : string;
  n_latent : nat;
  log_variational : bool;
  reconstruction_loss : string;
  n_batch : nat;
  n_labels : nat;
  n_latent_layers : nat;
  (* the attribute [px_r] is not set in the 'gene-cell' mode *)
  px_r : option Tensor;
  z_full_cov : bool;
  z_encoder : Encoder;
  l_encoder : Encoder;
  decoder : DecoderSCVI
}.

(** Reading an attribute that may not have been set. *)
Definition getattr {A} (a : option A) : result A :=
  match a with
  | Some v => Ok v
  | None => Raise AttributeError
  end.

Definition draw_randn (s : list nat) (st : store) : Tensor * store :=
  let (t, r) := randn s (st_rng st) in
  (t, {| st_rng := r; st_buffers := st_buffers st |}).

(** [VAE.__init__] *)
Definition VAE__init__ (n_input n_batch n_labels n_hidden n_latent n_layers : nat)
    (dropout_rate : R) (dispersion : string) (log_variational : bool)
    (reconstruction_loss : string) (full_cov : bool) (st : store)
  : VAE * store :=
  let (px_r, st1) :=
    if dispersion =? "gene" then
      let (t, st') := draw_randn [n_input] st in (Some t, st')
    else if dispersion =? "gene-batch" then
      let (t, st') := draw_randn [n_input; n_batch] st in (Some t, st')
    else if dispersion =? "gene-label" then
      let (t, st') := draw_randn [n_input; n_labels] st in (Some t, st')
    else (None, st) in
  let (z_encoder, st2) :=
    Encoder__init__ n_input n_latent n_layers n_hidden dropout_rate
                    (Some full_cov) None st1 in
  let (l_encoder, st3) :=
    Encoder__init__ n_input 1 1 n_hidden dropout_rate None None st2 in
  let (decoder, st4) :=
    DecoderSCVI__init__ n_latent n_input [n_batch] n_layers n_hidden st3 in
  ({| dispersion := dispersion;
      n_latent := n_latent;
      log_variational := log_variational;
      reconstruction_loss := reconstruction_loss;
      n_batch := n_batch;
      n_labels := n_labels;
      n_latent_layers := 1;
      px_r := px_r;
      z_full_cov := full_cov;
      z_encoder := z_encoder;
      l_encoder := l_encoder;
      decoder := decoder |}, st4).

(** The ten values [inference] returns, in the order of the tuple. *)
Record InferenceOut : Type := mkInferenceOut {
  o_px_scale : Tensor;
  o_px_r : Tensor;
  o_px_rate : Tensor;
  o_px_dropout : Tensor;
  o_qz_m : Tensor;
  o_qz_v : Tensor;
  o_z : Tensor;
  o_ql_m : Tensor;
  o_ql_v : Tensor;
  o_library : Tensor
}.

(** The log-transform of the counts, when configured. *)
Definition pre_transform (log_variational : bool) (x : Tensor) : Tensor :=
  if log_variational then tlog1p x else x.

(** The two encoder passes, and for [n_samples > 1] the assertion, the
    broadcast of the moments and the two fresh draws.  Returns
    [(qz_m, qz_v, z, ql_m, ql_v, library)]. *)
Definition encode (z_enc l_enc : Encoder) (full_cov : bool)
    (x_ : Tensor) (y : option Tensor) (n_samples : Z)
  : M (Tensor * Tensor * Tensor * Tensor * Tensor * Tensor) :=
  '(qz_m, qz_v, z) <~ call_network ZEncoderForward (enc_forward z_enc x_ [y]);
  '(ql_m, ql_v, library) <~ call_network LEncoderForward (enc_forward l_enc x_ []);
  if (1 <? n_samples)%Z then
    _ <~ assert (negb full_cov);
    let n := Z.to_nat n_samples in
    let qz_m := unsqueeze_expand n qz_m in
    let qz_v := unsqueeze_expand n qz_v in
    let ql_m := unsqueeze_expand n ql_m in
    let ql_v := unsqueeze_expand n ql_v in
    z <~ call_network ZEncoderSample (enc_sample z_enc qz_m qz_v);
    library <~ call_network LEncoderSample (enc_sample l_enc ql_m ql_v);
    ret (qz_m, qz_v, z, ql_m, ql_v, library)
  else ret (qz_m, qz_v, z, ql_m, ql_v, library).

(** The dispersion before [exp], chosen by the mode; [decoded] is the value
    the decoder returned. *)
Definition resolve_px_r (self : VAE) (decoded : option Tensor)
    (batch_index y : option Tensor) : result (option Tensor) :=
  (if dispersion self =? "gene-label" then
     oh <- one_hot y (n_labels self) ;;
     p <- getattr (px_r self) ;;
     r <- F_linear oh p ;;
     Ok (Some r)
   else if dispersion self =? "gene-batch" then
     oh <- one_hot batch_index (n_batch self) ;;
     p <- getattr (px_r self) ;;
     r <- F_linear oh p ;;
     Ok (Some r)
   else if dispersion self =? "gene" then
     p <- getattr (px_r self) ;;
     Ok (Some p)
   else Ok decoded)%res.

(** [torch.exp] of a Python value that may be [None]. *)
Definition py_exp (t : option Tensor) : result Tensor :=
  match t with
  | Some t => Ok (texp t)
  | None => Raise TypeError
  end.

(** [VAE.inference] *)
Definition inference (self : VAE) (x : Tensor) (batch_index y : option Tensor)
    (n_samples : Z) : M InferenceOut :=
  let x_ := pre_transform (log_variational self) x in
  '(qz_m, qz_v, z, ql_m, ql_v, library) <~
    encode (z_encoder self) (l_encoder self) (z_full_cov self) x_ y n_samples;
  '(px_scale, px_r, px_rate, px_dropout) <~
    call_network DecoderForward
      (dec_forward (decoder self) (dispersion self) z library [batch_index; y]);
  px_r <~ lift (resolve_px_r self px_r batch_index y);
  px_r <~ lift (py_exp px_r);
  ret {| o_px_scale := px_scale; o_px_r := px_r; o_px_rate := px_rate;
         o_px_dropout := px_dropout; o_qz_m := qz_m; o_qz_v := qz_v;
         o_z := z; o_ql_m := ql_m; o_ql_v := ql_v; o_library := library |}.

(** [VAE._reconstruction_loss]: with a likelihood name other than 'zinb'
    and 'nb' the local variable is read before any assignment. *)
Definition _reconstruction_loss (self : VAE)
    (x px_rate px_r px_dropout : Tensor) : result Tensor :=
  (if reconstruction_loss self =? "zinb" then
     l <- log_zinb_positive x px_rate px_r px_dropout ;;
     Ok (tneg l)
   else if reconstruction_loss self =? "nb" then
     l <- log_nb_positive x px_rate px_r ;;
     Ok (tneg l)
   else Raise UnboundLocalError)%res.

(** [VAE.get_prior_params]; the device argument only places the tensors. *)
Definition get_prior_params (self : VAE) : Tensor * Tensor :=
  let mean := zeros [n_latent self] in
  let scale := if z_full_cov self then eye (n_latent self)
               else ones [n_latent self] in
  (mean, scale).

(** The latent KL term: summed over its second axis when it has two axes. *)
Definition kl_latent (enc : Encoder) (qz_m qz_v mean scale : Tensor)
  : result Tensor :=
  (dq <- enc_distrib enc qz_m qz_v ;;
   dp <- enc_distrib enc mean scale ;;
   k <- kl dq dp ;;
   if (dim k =? 2)%nat then tsum k 1 else Ok k)%res.

(** The library KL term. *)
Definition kl_library (ql_m ql_v local_l_mean local_l_var : Tensor)
  : result Tensor :=
  (dq <- Normal ql_m (tsqrt ql_v) ;;
   dp <- Normal local_l_mean (tsqrt local_l_var) ;;
   k <- kl dq dp ;;
   tsum k 1)%res.

(** [VAE.forward] *)
Definition forward (self : VAE) (x local_l_mean local_l_var : Tensor)
    (batch_index y : option Tensor) : M (Tensor * Tensor) :=
  o <~ inference self x batch_index y 1;
  let (mean, scale) := get_prior_params self in
  kl_divergence_z <~
    lift (kl_latent (z_encoder self) (o_qz_m o) (o_qz_v o) mean scale);
  kl_divergence_l <~
    lift (kl_library (o_ql_m o) (o_ql_v o) local_l_mean local_l_var);
  let kl_divergence := kl_divergence_z in
  reconst_loss <~
    lift (_reconstruction_loss self x (o_px_rate o) (o_px_r o) (o_px_dropout o));
  total <~ lift (tadd reconst_loss kl_divergence_l);
  ret (total, kl_divergence).

Fixpoint shape_eqb (a b : list nat) : bool :=
  match a, b with
  | [], [] => true
  | x :: a', y :: b' => (x =? y)%nat && shape_eqb a' b'
  | _, _ => false
  end.

(** The five log terms of [ratio_loss] as they stand when the assertion is
    reached: [(log_px_zl, log_pl, log_pz, log_qz_x, log_ql_x)]. *)
Definition ratio_terms (self : VAE) (x local_l_mean local_l_var : Tensor)
    (o : InferenceOut)
  : result (Tensor * Tensor * Tensor * Tensor * Tensor) :=
  (let (z_prior_m, z_prior_v) := get_prior_params self in
   rl <- _reconstruction_loss self x (o_px_rate o) (o_px_r o) (o_px_dropout o) ;;
   let log_px_zl := tneg rl in
   dl <- Normal local_l_mean (tsqrt local_l_var) ;;
   lpl <- log_prob dl (o_library o) ;;
   log_pl <- tsum lpl (-1) ;;
   dpz <- enc_distrib (z_encoder self) z_prior_m z_prior_v ;;
   lpz <- log_prob dpz (o_z o) ;;
   log_pz <- tsum lpz (-1) ;;
   dqz <- enc_distrib (z_encoder self) (o_qz_m o) (o_qz_v o) ;;
   lqz <- log_prob dqz (o_z o) ;;
   log_qz_x <- tsum lqz (-1) ;;
   pq <- (if (dim log_pz =? 2)%nat && (dim log_qz_x =? 2)%nat
          then a <- tsum log_pz 1 ;; b <- tsum log_qz_x 1 ;; Ok (a, b)
          else Ok (log_pz, log_qz_x)) ;;
   let (log_pz, log_qz_x) := (pq : Tensor * Tensor) in
   dql <- Normal (o_ql_m o) (tsqrt (o_ql_v o)) ;;
   lql <- log_prob dql (o_library o) ;;
   log_ql_x <- tsum lql (-1) ;;
   Ok (log_px_zl, log_pl, log_pz, log_qz_x, log_ql_x))%res.

(** The chained comparison of the assertion in [ratio_loss]. *)
Definition same_shapes (t : Tensor * Tensor * Tensor * Tensor * Tensor) : bool :=
  let '(log_px_zl, log_pl, log_pz, log_qz_x, log_ql_x) := t in
  shape_eqb (shape log_px_zl) (shape log_pl)
  && shape_eqb (shape log_pl) (shape log_pz)
  && shape_eqb (shape log_pz) (shape log_qz_x)
  && shape_eqb (shape log_qz_x) (shape log_ql_x).

(** [VAE.ratio_loss] *)
Definition ratio_loss (self : VAE) (x local_l_mean local_l_var : Tensor)
    (batch_index y : option Tensor) : M Tensor :=
  o <~ inference self x batch_index y 1;
  t <~ lift (ratio_terms self x local_l_mean local_l_var o);
  _ <~ assert (same_shapes t);
  let '(log_px_zl, log_pl, log_pz, log_qz_x, log_ql_x) := t in
  lift (a <- tadd log_px_zl log_pz ;;
        b <- tadd a log_pl ;;
        c <- tsub b log_qz_x ;;
        log_ratio <- tsub c log_ql_x ;;
        m <- tmean log_ratio 0 ;;
        Ok (tneg m))%res.




(** [VAE.get_sample_scale] and [VAE.get_sample_rate] *)
Definition get_sample_scale (self : VAE) (x : Tensor)
    (batch_index y : option Tensor) (n_samples : Z) : M Tensor :=
  o <~ inference self x batch_index y n_samples;
  ret (o_px_scale o).

Definition get_sample_rate (self : VAE) (x : Tensor)
    (batch_index y : option Tensor) (n_samples : Z) : M Tensor :=
  o <~ inference self x batch_index y n_samples;
  ret (o_px_rate o).

(** [VAE.get_log_ratio] *)
Definition get_log_ratio (self : VAE) (x : Tensor)
    (batch_index y : option Tensor) (n_samples : Z) : M Tensor :=
  o <~ inference self x batch_index y n_samples;
  lift (rl <- _reconstruction_loss self x (o_px_rate o) (o_px_r o)
                                   (o_px_dropout o) ;;
        let log_px_z := rl in
        dp <- Normal (zeros (shape (o_qz_m o))) (ones (shape (o_qz_v o))) ;;
        lp <- log_prob dp (o_z o) ;;
        log_pz <- tsum lp (-1) ;;
        dq <- Normal (o_qz_m o) (tsqrt (o_qz_v o)) ;;
        lq <- log_prob dq (o_z o) ;;
        log_qz_x <- tsum lq (-1) ;;
        a <- tadd log_pz log_px_z ;;
        tsub a log_qz_x)%res.

(** [torch.ones_like(t[:, [0]])] scaled by a number.  Indexing the second
    axis at [[0]] raises [IndexError] when the tensor has fewer than two
    axes and when its second axis is empty. *)
Definition first_column_full (t : Tensor) (v : R) : result Tensor :=
  match shape t with
  | d0 :: d1 :: rest =>
      if (0 <? d1)%nat then Ok (full (d0 :: 1%nat :: rest) v)
      else Raise IndexError
  | _ => Raise IndexError
  end.

(** [VAE.scale_from_z] *)
Definition scale_from_z (self : VAE) (sample_batch : Tensor) (fixed_batch : R)
  : M Tensor :=
  let sample_batch := pre_transform (log_variational self) sample_batch in
  '(qz_m, qz_v, z) <~
    call_network ZEncoderForward (enc_forward (z_encoder self) sample_batch []);
  batch_index <~ lift (first_column_full sample_batch fixed_batch);
  library <~ lift (first_column_full sample_batch 4);
  '(px_scale, _, _, _) <~
    call_network DecoderForward
      (dec_forward (decoder self) "gene" z library [Some batch_index]);
  ret px_scale.

(** ** [torch.nn.Module.parameters] *)

Fixpoint registered (m : NNModule) : list NNParameter :=
  match m with
  | mkNNModule own children =>
      own ++ (fix over (l : list NNModule) : list NNParameter :=
                match l with
                | [] => []
                | c :: l' => registered c ++ over l'
                end) children
  end.

(** A parameter object registered twice is yielded once. *)
Fixpoint first_occurrences (seen : list nat) (l : list NNParameter)
  : list NNParameter :=
  match l with
  | [] => []
  | p :: l' =>
      if existsb (Nat.eqb (p_id p)) seen then first_occurrences seen l'
      else p :: first_occurrences (p_id p :: seen) l'
  end.

Definition parameters (m : NNModule) : list NNParameter :=
  first_occurrences [] (registered m).

(** A parameter belongs to a module when the module itself holds it or one
    of its sub-modules, at any depth, does. *)
Inductive owns : NNModule -> NNParameter -> Prop :=
| owns_here own children p :
    In p own -> owns (mkNNModule own children) p
| owns_below own children c p :
    In c children -> owns c p -> owns (mkNNModule own children) p.


(** ** [class LDVAE] *)

(** The attributes of the base class, with the decoder replaced by a
    [LinearDecoderSCVI]. *)
Record LDVAE : Type := mkLDVAE {
  ld_base : VAE;
  ld_decoder : LinearDecoderSCVI
}.

(** [LDVAE.__init__]: the base constructor runs first (with its default
    [full_cov=False]) and the decoder it built is then replaced. *)
Definition LDVAE__init__ (n_input n_batch n_labels n_hidden n_latent n_layers : nat)
    (dropout_rate : R) (dispersion : string) (log_variational : bool)
    (reconstruction_loss : string) (st : store) : LDVAE * store :=
  let (base, st1) :=
    VAE__init__ n_input n_batch n_labels n_hidden n_latent n_layers
                dropout_rate dispersion log_variational reconstruction_loss
                false st in
  let (dec, st2) :=
    LinearDecoderSCVI__init__ n_latent n_input [n_batch] n_layers n_hidden st1 in
  ({| ld_base :=
        {| dispersion := Model.dispersion base;
           n_latent := Model.n_latent base;
           log_variational := Model.log_variational base;
           reconstruction_loss := Model.reconstruction_loss base;
           n_batch := Model.n_batch base;
           n_labels := Model.n_labels base;
           n_latent_layers := n_latent_layers base;
           px_r := px_r base;
           z_full_cov := z_full_cov base;
           z_encoder := z_encoder base;
           l_encoder := l_encoder base;
           decoder := lin_decoder dec |};
      ld_decoder := dec |}, st2).

(** [LDVAE.get_loadings] *)
Definition get_loadings (self : LDVAE) : list NNParameter :=
  parameters (factor_regressor (ld_decoder self)).

(** ** [class MeanVarianceVAE] *)

(** [torch.nn.Linear] and [torch.nn.ReLU] *)
Definition nn_linear (weight bias x : Tensor) : result Tensor :=
  (h <- F_linear x weight ;; tadd h bias)%res.

Definition relu : Tensor -> Tensor := tmap (Rmax 0).

(** The base attributes and the weights of
    [px_r_net = Sequential(Linear(1, n_r_hidden), ReLU(), Linear(n_r_hidden, 1))]. *)
Record MeanVarianceVAE : Type := mkMeanVarianceVAE {
  mv_base : VAE;
  mv_weight1 : Tensor;
  mv_bias1 : Tensor;
  mv_weight2 : Tensor;
  mv_bias2 : Tensor
}.

Definition px_r_net (self : MeanVarianceVAE) (t : Tensor) : result Tensor :=
  (h <- nn_linear (mv_weight1 self) (mv_bias1 self) t ;;
   nn_linear (mv_weight2 self) (mv_bias2 self) (relu h))%res.

Definition draw_linear (n_in n_out : nat) (st : store) : Tensor * Tensor * store :=
  let '(w, b, r) := linear_init n_in n_out (st_rng st) in
  (w, b, {| st_rng := r; st_buffers := st_buffers st |}).

(** [MeanVarianceVAE.__init__]: the base constructor is called without a
    dispersion mode and so with its default, 'gene'. *)
Definition MeanVarianceVAE__init__
    (n_input n_batch n_labels n_hidden n_latent n_layers : nat)
    (dropout_rate : R) (log_variational : bool) (reconstruction_loss : string)
    (full_cov : bool) (n_r_hidden : nat) (st : store) : MeanVarianceVAE * store :=
  let (base, st1) :=
    VAE__init__ n_input n_batch n_labels n_hidden n_latent n_layers
                dropout_rate "gene" log_variational reconstruction_loss
                full_cov st in
  let '(w1, b1, st2) := draw_linear 1 n_r_hidden st1 in
  let '(w2, b2, st3) := draw_linear n_r_hidden 1 st2 in
  ({| mv_base := base; mv_weight1 := w1; mv_bias1 := b1;
      mv_weight2 := w2; mv_bias2 := b2 |}, st3).

(** The dispersion of [MeanVarianceVAE.inference] before [exp]. *)
Definition mv_resolve_px_r (self : MeanVarianceVAE) (px_scale library : Tensor)
  : M Tensor :=
  nb_mean <~ lift (tmul px_scale library);
  px_r <~ lift (px_r_net self (view_column nb_mean));
  px_r <~ lift (view px_r (shape nb_mean));
  _ <~ assert (shape_eqb (shape px_r) (shape px_scale));
  ret px_r.

(** [MeanVarianceVAE.inference] *)
Definition MeanVarianceVAE_inference (self : MeanVarianceVAE) (x : Tensor)
    (batch_index y : option Tensor) (n_samples : Z) : M InferenceOut :=
  let base := mv_base self in
  let x_ := pre_transform (log_variational base) x in
  '(qz_m, qz_v, z, ql_m, ql_v, library) <~
    encode (z_encoder base) (l_encoder base) (z_full_cov base) x_ y n_samples;
  '(px_scale, _, px_rate, px_dropout) <~
    call_network DecoderForward
      (dec_forward (decoder base) (dispersion base) z library [batch_index; y]);
  px_r <~ mv_resolve_px_r self px_scale library;
  let px_r := texp px_r in
  ret {| o_px_scale := px_scale; o_px_r := px_r; o_px_rate := px_rate;
         o_px_dropout := px_dropout; o_qz_m := qz_m; o_qz_v := qz_v;
         o_z := z; o_ql_m := ql_m; o_ql_v := ql_v; o_library := library |}.

(** ** [class LogNormalPoissonVAE] *)

Record LogNormalPoissonVAE : Type := mkLogNormalPoissonVAE {
  lnp_n_latent : nat;
  lnp_log_variational : bool;
  lnp_n_batch : nat;
  lnp_n_labels : nat;
  lnp_n_latent_layers : nat;
  lnp_z_full_cov : bool;
  lnp_z_autoregressive : bool;
  lnp_z_encoder : Encoder;
  lnp_l_encoder : Encoder;
  lnp_decoder : DecoderPoisson
}.

(** [LogNormalPoissonVAE.__init__] *)
Definition LogNormalPoissonVAE__init__
    (n_input n_batch n_labels n_hidden n_latent n_layers : nat)
    (dropout_rate : R) (log_variational full_cov autoregressive : bool)
    (st : store) : LogNormalPoissonVAE * store :=
  let (z_encoder, st1) :=
    Encoder__init__ n_input n_latent n_layers n_hidden dropout_rate
                    (Some full_cov) (Some autoregressive) st in
  let (l_encoder, st2) :=
    Encoder__init__ n_input 1 1 n_hidden dropout_rate None None st1 in
  let (decoder, st3) :=
    DecoderPoisson__init__ n_latent n_input [n_batch] n_layers n_hidden st2 in
  ({| lnp_n_latent := n_latent;
      lnp_log_variational := log_variational;
      lnp_n_batch := n_batch;
      lnp_n_labels := n_labels;
      lnp_n_latent_layers := 1;
      lnp_z_full_cov := full_cov;
      lnp_z_autoregressive := autoregressive;
      lnp_z_encoder := z_encoder;
      lnp_l_encoder := l_encoder;
      lnp_decoder := decoder |}, st3).

(** The four methods of the Poisson variant that are not implemented. *)
Definition LogNormalPoissonVAE_get_sample_scale (self : LogNormalPoissonVAE)
    (x : Tensor) (batch_index y : option Tensor) (n_samples : Z) : M Tensor :=
  raise NotImplementedError.

Definition LogNormalPoissonVAE_get_sample_rate (self : LogNormalPoissonVAE)
    (x : Tensor) (batch_index y : option Tensor) (n_samples : Z) : M Tensor :=
  raise NotImplementedError.

Definition LogNormalPoissonVAE_get_log_ratio (self : LogNormalPoissonVAE)
    (x : Tensor) (batch_index y : option Tensor) (n_samples : Z) : M Tensor :=
  raise NotImplementedError.

Definition LogNormalPoissonVAE_scale_from_z (self : LogNormalPoissonVAE)
    (sample_batch : Tensor) (fixed_batch : R) : M Tensor :=
  raise NotImplementedError.

(** [LogNormalPoissonVAE._reconstruction_loss] *)
Definition LogNormalPoissonVAE_reconstruction_loss (x rate : Tensor)
  : result Tensor :=
  (lp <- log_prob (PoissonD rate) x ;;
   let rl := tneg lp in
   if (dim rl =? 2)%nat then tsum rl (-1) else Raise AssertionError)%res.

(** The seven values [LogNormalPoissonVAE.inference] returns. *)
Record PoissonInferenceOut : Type := mkPoissonInferenceOut {
  po_px_rate : Tensor;
  po_qz_m : Tensor;
  po_qz_v : Tensor;
  po_z : Tensor;
  po_ql_m : Tensor;
  po_ql_v : Tensor;
  po_library : Tensor
}.

(** [LogNormalPoissonVAE.inference] *)
Definition LogNormalPoissonVAE_inference (self : LogNormalPoissonVAE)
    (x : Tensor) (batch_index y : option Tensor) (n_samples : Z)
  : M PoissonInferenceOut :=
  let x_ := pre_transform (lnp_log_variational self) x in
  '(qz_m, qz_v, z, ql_m, ql_v, library) <~
    encode (lnp_z_encoder self) (lnp_l_encoder self) (lnp_z_full_cov self)
           x_ y n_samples;
  px_rate <~
    call_network DecoderForward
      (decp_forward (lnp_decoder self) z library [batch_index; y]);
  ret {| po_px_rate := px_rate; po_qz_m := qz_m; po_qz_v := qz_v; po_z := z;
         po_ql_m := ql_m; po_ql_v := ql_v; po_library := library |}.

(** [LogNormalPoissonVAE.get_prior_params] *)
Definition LogNormalPoissonVAE_get_prior_params (self : LogNormalPoissonVAE)
  : Tensor * Tensor :=
  let mean := zeros [lnp_n_latent self] in
  let scale := if lnp_z_full_cov self || lnp_z_autoregressive self
               then eye (lnp_n_latent self)
               else ones [lnp_n_latent self] in
  (mean, scale).

(** [LogNormalPoissonVAE.forward] *)
Definition LogNormalPoissonVAE_forward (self : LogNormalPoissonVAE)
    (x local_l_mean local_l_var : Tensor) (batch_index y : option Tensor)
  : M (Tensor * Tensor) :=
  _ <~ manual_seed 42;
  o <~ LogNormalPoissonVAE_inference self x batch_index y 1;
  let (mean, scale) := LogNormalPoissonVAE_get_prior_params self in
  kl_divergence_z <~
    lift (kl_latent (lnp_z_encoder self) (po_qz_m o) (po_qz_v o) mean scale);
  kl_divergence_l <~
    lift (kl_library (po_ql_m o) (po_ql_v o) local_l_mean local_l_var);
  let kl_divergence := kl_divergence_z in
  reconst_loss <~
    lift (LogNormalPoissonVAE_reconstruction_loss x (po_px_rate o));
  total <~ lift (tadd reconst_loss kl_divergence_l);
  ret (total, kl_divergence).

End Model.

(** ** The contracts of the imported components *)

(** The functions the module imports are fixed only by their contract.  The
    predicates below state the part of it the results depend on: which calls
    return, and with which shapes, for a batch of [B] cells over [G] genes
    and a latent space of dimension [L]. *)

Section Contracts.
Context {RT : Runtime} {PK : Package}.

Local Open Scope string_scope.
Local Open Scope list_scope.

(** The forward pass of an encoder into [L] dimensions; with a full
    covariance the second moment is one matrix per cell. *)
Definition encoder_ok (e : Encoder) (G L : nat) (full_cov : bool) : Prop :=
  forall x args st B,
    shape x = [B; G] ->
    exists qm qv z st',
      enc_forward e x args st = (Ok (qm, qv, z), st')
      /\ shape qm = [B; L]
      /\ shape qv = (if full_cov then [B; L; L] else [B; L])
      /\ shape z = [B; L].

(** [distrib] builds a diagonal normal whose scale has the shape of the
    second moment, or with a full covariance a multivariate normal. *)
Definition distrib_ok (e : Encoder) (full_cov : bool) : Prop :=
  forall m v,
    if full_cov then enc_distrib e m v = MultivariateNormal m v
    else exists sc, shape sc = shape v /\ enc_distrib e m v = Normal m sc.

Definition decoder_ok (d : DecoderSCVI) (L G : nat) : Prop :=
  forall disp z lib bi y st B,
    shape z = [B; L] -> shape lib = [B; 1] -> shape bi = [B; 1] ->
    exists ps pr prate pd st',
      dec_forward d disp z lib [Some bi; y] st = (Ok (ps, pr, prate, pd), st')
      /\ shape ps = [B; G] /\ shape prate = [B; G] /\ shape pd = [B; G]
      /\ (disp = "gene-cell" -> exists t, pr = Some t /\ shape t = [B; G]).

Definition decoder_poisson_ok (d : DecoderPoisson) (L G : nat) : Prop :=
  forall z lib bi y st B,
    shape z = [B; L] -> shape lib = [B; 1] -> shape bi = [B; 1] ->
    exists prate st',
      decp_forward d z lib [Some bi; y] st = (Ok prate, st')
      /\ shape prate = [B; G].

(** The likelihoods return one value per cell, and [one_hot] one row per
    cell. *)
Record package_ok (G : nat) : Prop := {
  zinb_ok : forall x mu theta pi B,
    shape x = [B; G] -> shape mu = [B; G] ->
    broadcast_shapes [B; G] (shape theta) = Some [B; G] ->
    shape pi = [B; G] ->
    exists r, log_zinb_positive x mu theta pi = Ok r /\ shape r = [B];
  nb_ok : forall x mu theta B,
    shape x = [B; G] -> shape mu = [B; G] ->
    broadcast_shapes [B; G] (shape theta) = Some [B; G] ->
    exists r, log_nb_positive x mu theta = Ok r /\ shape r = [B];
  one_hot_ok : forall idx n B,
    shape idx = [B; 1] ->
    exists r, one_hot (Some idx) n = Ok r /\ shape r = [B; n]
}.

(** The shape of the attribute [px_r] in each mode, as the constructor sets
    it. *)
Definition px_r_ok (self : VAE) (G : nat) : Prop :=
  (dispersion self = "gene" ->
     exists p, px_r self = Some p /\ shape p = [G])
  /\ (dispersion self = "gene-batch" ->
     exists p, px_r self = Some p /\ shape p = [G; n_batch self])
  /\ (dispersion self = "gene-label" ->
     exists p, px_r self = Some p /\ shape p = [G; n_labels self]).

Definition dispersion_modes : list string :=
  ["gene"; "gene-batch"; "gene-label"; "gene-cell"].

(** A model over [G] genes whose sub-networks honour their contracts. *)
Record VAE_wf (self : VAE) (G : nat) : Prop := {
  wf_dispersion : In (dispersion self) dispersion_modes;
  wf_px_r : px_r_ok self G;
  wf_z_encoder : encoder_ok (z_encoder self) G (n_latent self) (z_full_cov self);
  wf_z_distrib : distrib_ok (z_encoder self) (z_full_cov self);
  wf_l_encoder : encoder_ok (l_encoder self) G 1 false;
  wf_decoder : decoder_ok (decoder self) (n_latent self) G
}.

Record LogNormalPoissonVAE_wf (self : LogNormalPoissonVAE) (G : nat) : Prop := {
  lwf_z_encoder :
    encoder_ok (lnp_z_encoder self) G (lnp_n_latent self)
               (lnp_z_full_cov self || lnp_z_autoregressive self);
  lwf_z_distrib :
    distrib_ok (lnp_z_encoder self)
               (lnp_z_full_cov self || lnp_z_autoregressive self);
  lwf_l_encoder : encoder_ok (lnp_l_encoder self) G 1 false;
  lwf_decoder : decoder_poisson_ok (lnp_decoder self) (lnp_n_latent self) G
}.

(** A batch of [B] cells: the counts, the prior moments of the library
    size, the batch indices, and the labels where the mode reads them. *)
Record inputs_ok (B G : nat) (x local_l_mean local_l_var : Tensor)
    (batch_index : option Tensor) : Prop := {
  in_x : shape x = [B; G];
  in_l_mean : shape local_l_mean = [B; 1];
  in_l_var : shape local_l_var = [B; 1];
  in_batch : exists b, batch_index = Some b /\ shape b = [B; 1]
}.

Definition labels_ok (self : VAE) (B : nat) (y : option Tensor) : Prop :=
  dispersion self = "gene-label" -> exists l, y = Some l /\ shape l = [B; 1].

(** The shapes of what the encoders return for one draw per cell:
    [(qz_m, qz_v, z, ql_m, ql_v, library)]. *)
Definition encoded_shapes (B L : nat) (full_cov : bool)
    (e : Tensor * Tensor * Tensor * Tensor * Tensor * Tensor) : Prop :=
  let '(qz_m, qz_v, z, ql_m, ql_v, library) := e in
  shape qz_m = [B; L]
  /\ shape qz_v = (if full_cov then [B; L; L] else [B; L])
  /\ shape z = [B; L]
  /\ shape ql_m = [B; 1] /\ shape ql_v = [B; 1] /\ shape library = [B; 1].

(** The shapes of what [inference] returns for one draw per cell; the
    dispersion broadcasts against the counts. *)
Record inference_shapes (B G L : nat) (full_cov : bool) (o : InferenceOut)
  : Prop := {
  sh_px_scale : shape (o_px_scale o) = [B; G];
  sh_px_r : broadcast_shapes [B; G] (shape (o_px_r o)) = Some [B; G];
  sh_px_rate : shape (o_px_rate o) = [B; G];
  sh_px_dropout : shape (o_px_dropout o) = [B; G];
  sh_encoded :
    encoded_shapes B L full_cov
      (o_qz_m o, o_qz_v o, o_z o, o_ql_m o, o_ql_v o, o_library o)
}.

(** [k] is the KL divergence between the library-size posterior
    [Normal(ql_m, sqrt(ql_v))] and the prior
    [Normal(local_l_mean, sqrt(local_l_var))], summed over the second axis. *)
Definition library_kl_of (ql_m ql_v local_l_mean local_l_var k : Tensor) : Prop :=
  exists dq dp k0,
    Normal ql_m (tsqrt ql_v) = Ok dq
    /\ Normal local_l_mean (tsqrt local_l_var) = Ok dp
    /\ kl dq dp = Ok k0
    /\ tsum k0 1 = Ok k.

(** [k] is the KL divergence between the latent posterior the encoder
    builds from [(qz_m, qz_v)] and the prior it builds from
    [(mean, scale)], summed over the second axis when it has one. *)
Definition latent_kl_of (enc : Encoder) (qz_m qz_v mean scale k : Tensor) : Prop :=
  exists dq dp k0,
    enc_distrib enc qz_m qz_v = Ok dq
    /\ enc_distrib enc mean scale = Ok dp
    /\ kl dq dp = Ok k0
    /\ (if (dim k0 =? 2)%nat then tsum k0 1 else Ok k0) = Ok k.



(** What the constructors of the package are expected to build. *)
Record constructors_ok : Prop := {
  randn_shape : forall s r, shape (fst (randn s r)) = s;
  encoder_built : forall G L nl nh dr fc ar st,
    let e := fst (Encoder__init__ G L nl nh dr fc ar st) in
    let full := match fc, ar with
                | Some true, _ | _, Some true => true
                | _, _ => false
                end in
    encoder_ok e G L full /\ distrib_ok e full;
  decoder_built : forall L G cats nl nh st,
    decoder_ok (fst (DecoderSCVI__init__ L G cats nl nh st)) L G;
  linear_decoder_built : forall L G cats nl nh st,
    decoder_ok (lin_decoder (fst (LinearDecoderSCVI__init__ L G cats nl nh st)))
               L G
}.

End Contracts.

(** ** A small concrete instance *)

(** A runtime whose generator state counts the draws since the last seed,
    and a package whose sub-networks return constant tensors of the right
    shapes.  It is used to run the model on concrete batches. *)

#[local] Open Scope string_scope.
#[local] Open Scope list_scope.

Definition toy_runtime : Runtime :=
  {| rng := nat;
     buffers := unit;
     seeded := Z.to_nat;
     randn := fun s r => (zeros s, S r);
     linear_init := fun n_in n_out r => (zeros [n_out; n_in], zeros [n_out], S r);
     lgamma := fun _ => 0%R;
     mvn_log_density := fun _ _ _ _ => 0%R;
     mvn_kl_density := fun _ _ _ _ _ => 0%R |}.

Definition toy_tick (st : @store toy_runtime) : @store toy_runtime :=
  @mkStore toy_runtime (S (@st_rng toy_runtime st)) tt.

Definition toy_encoder (L : nat) (full_cov : bool) : @Encoder toy_runtime :=
  @mkEncoder toy_runtime
    (fun x _ st =>
       let B := hd 0%nat (shape x) in
       (Ok (zeros [B; L],
            (if full_cov then unsqueeze_expand B (eye L) else ones [B; L]),
            zeros [B; L]),
        toy_tick st))
    (fun m _ st => (Ok (zeros (shape m)), toy_tick st))
    (fun m v => if full_cov then MultivariateNormal m v else Normal m (tsqrt v)).

Definition toy_decoder (G : nat) : @DecoderSCVI toy_runtime :=
  @mkDecoderSCVI toy_runtime
    (fun disp z _ _ st =>
       let s := removelast (shape z) ++ [G] in
       (Ok (ones s,
            (if disp =? "gene-cell" then Some (zeros s) else None),
            ones s, zeros s),
        st)).

Definition toy_decoder_poisson (G : nat) : @DecoderPoisson toy_runtime :=
  @mkDecoderPoisson toy_runtime
    (fun z _ _ st => (Ok (ones (removelast (shape z) ++ [G])), st)).

Definition toy_regressor (L G : nat) : NNModule :=
  mkNNModule
    [ {| p_id := 0; p_data := zeros [G; L]; requires_grad := true |} ]
    [ mkNNModule
        [ {| p_id := 1; p_data := ones [G]; requires_grad := true |};
          {| p_id := 2; p_data := zeros [G]; requires_grad := true |} ]
        [] ].

Definition toy_full (fc ar : option bool) : bool :=
  match fc, ar with
  | Some true, _ | _, Some true => true
  | _, _ => false
  end.

Definition toy_package : @Package toy_runtime :=
  {| log_zinb_positive := fun x _ _ _ => Ok (zeros (removelast (shape x)));
     log_nb_positive := fun x _ _ => Ok (zeros (removelast (shape x)));
     one_hot := fun idx n =>
       match idx with
       | Some i => Ok (zeros [hd 0%nat (shape i); n])
       | None => Raise AttributeError
       end;
     Encoder__init__ := fun _ L _ _ _ fc ar st =>
       (toy_encoder L (toy_full fc ar), st);
     DecoderSCVI__init__ := fun _ G _ _ _ st => (toy_decoder G, st);
     LinearDecoderSCVI__init__ := fun L G _ _ _ st =>
       ({| lin_decoder := toy_decoder G;
           factor_regressor := toy_regressor L G |}, st);
     DecoderPoisson__init__ := fun _ G _ _ _ st => (toy_decoder_poisson G, st)
  |}.

Definition toy_store : @store toy_runtime := @mkStore toy_runtime 7%nat tt.
Definition toy_world : @world toy_runtime := @mkWorld toy_runtime toy_store [].

(** Three genes, two batches, two labels, two latent dimensions. *)
Definition toy_vae (dispersion reconstruction_loss : string) (full_cov : bool)
  : @VAE toy_runtime :=
  fst (@VAE__init__ toy_runtime toy_package 3 2 2 8 2 1 (1 / 10)%R dispersion
                    true reconstruction_loss full_cov toy_store).

Definition toy_ldvae : @LDVAE toy_runtime :=
  fst (@LDVAE__init__ toy_runtime toy_package 3 2 2 8 2 1 (1 / 10)%R "gene"
                      true "zinb" toy_store).

Definition toy_mvvae : @MeanVarianceVAE toy_runtime :=
  fst (@MeanVarianceVAE__init__ toy_runtime toy_package 3 2 2 8 2 1 (1 / 10)%R
                                true "zinb" false 4 toy_store).

Definition toy_lnp (full_cov : bool) : @LogNormalPoissonVAE toy_runtime :=
  fst (@LogNormalPoissonVAE__init__ toy_runtime toy_package 3 2 2 8 2 1
                                    (1 / 10)%R true full_cov false toy_store).


(** A batch of two cells. *)
Definition toy_x : Tensor := of_list [2; 3] [1; 0; 2; 0; 3; 1]%R.
Definition toy_l_mean : Tensor := of_list [2; 1] [1; 1]%R.
Definition toy_l_var : Tensor := of_list [2; 1] [1; 2]%R.
Definition toy_batch_index : Tensor := of_list [2; 1] [0; 1]%R.
Definition toy_y : Tensor := of_list [2; 1] [1; 0]%R.

(** ** Further methods, and what their properties are stated with *)

Section Further.
Context {RT : Runtime} {PK : Package}.

Local Open Scope string_scope.
Local Open Scope list_scope.




(** An index inside a shape. *)
Definition valid_index (s idx : list nat) : Prop := Forall2 lt idx s.

(** The shapes of the weights of [px_r_net] for [n_r_hidden = H]. *)
Definition mv_weights_ok (self : MeanVarianceVAE) (H : nat) : Prop :=
  shape (mv_weight1 self) = [H; 1] /\ shape (mv_bias1 self) = [H]
  /\ shape (mv_weight2 self) = [1; H] /\ shape (mv_bias2 self) = [1].

(** [px_r_net] on a single number: one hidden layer of [H] rectified units
    and one output unit. *)
Definition px_r_net_scalar (self : MeanVarianceVAE) (H : nat) (v : R) : R :=
  (Rsum_upto H (fun h =>
     Rmax 0 (v * at_ (mv_weight1 self) [h; 0%nat] + at_ (mv_bias1 self) [h])
     * at_ (mv_weight2 self) [0%nat; h])
   + at_ (mv_bias2 self) [0%nat])%R.

(** [nn.Linear(n_in, n_out)] starts with a weight of shape [[n_out; n_in]]
    and a bias of shape [[n_out]]. *)
Definition linear_init_ok : Prop :=
  forall n_in n_out r,
    shape (fst (fst (linear_init n_in n_out r))) = [n_out; n_in]
    /\ shape (snd (fst (linear_init n_in n_out r))) = [n_out].

(** The KL divergence between two normals on the line, as torch evaluates
    it from locations and scales. *)
Definition kl_normal_scalar (pm ps qm qs : R) : R :=
  (/ 2 * ((ps / qs) * (ps / qs) + (pm - qm) / qs * ((pm - qm) / qs) + -1
          - ln ((ps / qs) * (ps / qs))))%R.

End Further.

(** * Properties *)

Unset Implicit Arguments.

(** ** Shapes of the tensor operations *)

Section ShapeLemmas.

Local Open Scope list_scope.

Lemma broadcast_rev_refl a : broadcast_rev a a = Some a.
Proof.
  induction a as [|x a IH]; simpl; [reflexivity|].
  now rewrite IH, Nat.eqb_refl.
Qed.

Lemma broadcast_rev_prefix s a : broadcast_rev (s ++ a) s = Some (s ++ a).
Proof.
  induction s as [|x s IH]; simpl.
  - now destruct a.
  - now rewrite IH, Nat.eqb_refl.
Qed.

Lemma broadcast_rev_prefix_l s a : broadcast_rev s (s ++ a) = Some (s ++ a).
Proof.
  induction s as [|x s IH]; simpl; [reflexivity|].
  now rewrite IH, Nat.eqb_refl.
Qed.

Lemma broadcast_shapes_refl s : broadcast_shapes s s = Some s.
Proof.
  unfold broadcast_shapes. rewrite broadcast_rev_refl. simpl.
  now rewrite rev_involutive.
Qed.

Lemma broadcast_shapes_suffix p s : broadcast_shapes (p ++ s) s = Some (p ++ s).
Proof.
  unfold broadcast_shapes. rewrite rev_app_distr, broadcast_rev_prefix. simpl.
  now rewrite <- rev_app_distr, rev_involutive.
Qed.

Lemma broadcast_shapes_suffix_l p s :
  broadcast_shapes s (p ++ s) = Some (p ++ s).
Proof.
  unfold broadcast_shapes. rewrite rev_app_distr, broadcast_rev_prefix_l. simpl.
  now rewrite <- rev_app_distr, rev_involutive.
Qed.

Lemma broadcast_shapes_nil_r s : broadcast_shapes s [] = Some s.
Proof. rewrite <- (app_nil_r s) at 1. rewrite broadcast_shapes_suffix. now rewrite app_nil_r. Qed.

Lemma returns_shape_ok t s : shape t = s -> returns_shape (Ok t) s.
Proof. intros H. now exists t. Qed.

Lemma tbinop_shape f a b s :
  broadcast_shapes (shape a) (shape b) = Some s ->
  returns_shape (tbinop f a b) s.
Proof.
  intros H. unfold tbinop. rewrite H. now apply returns_shape_ok.
Qed.

Lemma tbinop_same f a b s :
  shape a = s -> shape b = s -> returns_shape (tbinop f a b) s.
Proof.
  intros Ha Hb. apply tbinop_shape. rewrite Ha, Hb. apply broadcast_shapes_refl.
Qed.

Lemma tbinop_suffix f a b p s :
  shape a = p ++ s -> shape b = s -> returns_shape (tbinop f a b) (p ++ s).
Proof.
  intros Ha Hb. apply tbinop_shape. rewrite Ha, Hb.
  apply broadcast_shapes_suffix.
Qed.

Lemma tmap_shape f t : shape (tmap f t) = shape t.
Proof. reflexivity. Qed.

Lemma tsum_matrix t B n d :
  shape t = [B; n] -> d = 1%Z \/ d = (-1)%Z -> returns_shape (tsum t d) [B].
Proof.
  intros H [-> | ->]; unfold tsum, dim; rewrite H; now apply returns_shape_ok.
Qed.

Lemma tsum_vector t B : shape t = [B] -> returns_shape (tsum t (-1)) [].
Proof.
  intros H. unfold tsum, dim. rewrite H. now apply returns_shape_ok.
Qed.

Lemma tmean_vector t B : shape t = [B] -> returns_shape (tmean t 0) [].
Proof.
  intros H. unfold tmean, dim. rewrite H. now apply returns_shape_ok.
Qed.

Lemma shape_eqb_refl s : shape_eqb s s = true.
Proof.
  induction s as [|x s IH]; simpl; [reflexivity|].
  now rewrite Nat.eqb_refl, IH.
Qed.

Lemma shape_eqb_eq a b : shape_eqb a b = true <-> a = b.
Proof.
  split.
  - revert b. induction a as [|x a IH]; intros [|y b]; simpl; try discriminate;
      [reflexivity|].
    intros H. apply andb_true_iff in H as [Hx Hab].
    apply Nat.eqb_eq in Hx. now rewrite Hx, (IH b Hab).
  - intros ->. apply shape_eqb_refl.
Qed.

End ShapeLemmas.

(** ** The monad *)

Section MonadLemmas.
Context {RT : Runtime}.

Lemma bind_ok {A B} (c : M A) (k : A -> M B) w a w' :
  c w = (Ok a, w') -> bind c k w = k a w'.
Proof. intros H. unfold bind. now rewrite H. Qed.

Lemma bind_raise {A B} (c : M A) (k : A -> M B) w e w' :
  c w = (Raise e, w') -> bind c k w = (Raise e, w').
Proof. intros H. unfold bind. now rewrite H. Qed.

Lemma bind_lift_ok {A B} (r : result A) (k : A -> M B) w a :
  r = Ok a -> bind (lift r) k w = k a w.
Proof. intros ->. reflexivity. Qed.

Lemma bind_lift_raise {A B} (r : result A) (k : A -> M B) w e :
  r = Raise e -> bind (lift r) k w = (Raise e, w).
Proof. intros ->. reflexivity. Qed.

Lemma call_network_run {A} c (f : store -> result A * store) w r st :
  f (w_store w) = (r, st) ->
  call_network c f w = (r, {| w_store := st; w_trace := w_trace w ++ [c] |}).
Proof. intros H. unfold call_network. now rewrite H. Qed.

Lemma bind_call_ok {A B} c (f : store -> result A * store) (k : A -> M B)
    w a st :
  f (w_store w) = (Ok a, st) ->
  bind (call_network c f) k w
  = k a {| w_store := st; w_trace := w_trace w ++ [c] |}.
Proof. intros H. apply bind_ok. now apply call_network_run. Qed.

Lemma bind_ok_inv {A B} (c : M A) (k : A -> M B) w b w' :
  bind c k w = (Ok b, w') ->
  exists a w1, c w = (Ok a, w1) /\ k a w1 = (Ok b, w').
Proof.
  unfold bind. destruct (c w) as [[a | e] w1]; [| discriminate].
  intros H. now exists a, w1.
Qed.

Lemma bind_lift_ok_inv {A B} (r : result A) (k : A -> M B) w b w' :
  bind (lift r) k w = (Ok b, w') -> exists a, r = Ok a /\ k a w = (Ok b, w').
Proof.
  intros H. apply bind_ok_inv in H as (a & w1 & Hl & Hk).
  unfold lift in Hl. injection Hl as -> <-. now exists a.
Qed.

Lemma call_network_inv {A} c (f : store -> result A * store) w r w' :
  call_network c f w = (r, w') ->
  exists st, f (w_store w) = (r, st)
             /\ w' = {| w_store := st; w_trace := w_trace w ++ [c] |}.
Proof.
  unfold call_network. destruct (f (w_store w)) as [r0 st].
  intros H. injection H as -> <-. now exists st.
Qed.

Lemma assert_ok_inv b w u w' : assert b w = (Ok u, w') -> b = true /\ w' = w.
Proof.
  destruct b; cbn; [| discriminate]. intros H. now injection H as _ <-.
Qed.

End MonadLemmas.

Ltac run_call H :=
  erewrite bind_call_ok by (cbn [w_store]; exact H);
  cbn beta iota zeta; cbn [w_store w_trace].

Ltac run_lift H :=
  rewrite (bind_lift_ok _ _ _ _ H); cbn beta iota zeta.

(** ** Distributions *)

Section DistributionLemmas.
Context {RT : Runtime}.

Local Open Scope list_scope.

Ltac take H := destruct H as (? & -> & ?); cbn [rbind].

Lemma Normal_same loc scale s :
  shape loc = s -> shape scale = s ->
  exists l sc, Normal loc scale = Ok (NormalD l sc)
               /\ shape l = s /\ shape sc = s.
Proof.
  intros Hl Hs. unfold Normal. rewrite Hl, Hs, broadcast_shapes_refl.
  now eexists _, _.
Qed.

Lemma kl_normal_normal_shape pl ps ql qs p s :
  shape pl = p ++ s -> shape ps = p ++ s -> shape ql = s -> shape qs = s ->
  returns_shape (kl_normal_normal pl ps ql qs) (p ++ s).
Proof.
  intros Hpl Hps Hql Hqs. unfold kl_normal_normal, tdiv, tsub, tadd.
  pose proof (tbinop_suffix Rdiv ps qs p s Hps Hqs) as H1. take H1.
  pose proof (tbinop_suffix Rminus pl ql p s Hpl Hql) as H2. take H2.
  match goal with
  | Hd : shape ?d = p ++ s |- context [tbinop Rdiv ?d qs] =>
      pose proof (tbinop_suffix Rdiv d qs p s Hd Hqs) as H3
  end. take H3.
  match goal with
  | |- context [tbinop Rplus ?a ?b] =>
      assert (H4 : returns_shape (tbinop Rplus a b) (p ++ s))
        by (apply tbinop_same; unfold tsqr; rewrite ?tmap_shape; assumption)
  end. take H4.
  match goal with
  | |- context [tbinop Rminus ?a ?b] =>
      assert (H5 : returns_shape (tbinop Rminus a b) (p ++ s))
        by (apply tbinop_same; unfold tshift, tlog, tsqr;
            rewrite ?tmap_shape; assumption)
  end. take H5.
  apply returns_shape_ok. assumption.
Qed.

(** The library KL term has one value per cell. *)
Lemma kl_library_shape ql_m ql_v lm lv B :
  shape ql_m = [B; 1] -> shape ql_v = [B; 1] ->
  shape lm = [B; 1] -> shape lv = [B; 1] ->
  returns_shape (kl_library ql_m ql_v lm lv) [B].
Proof.
  intros H1 H2 H3 H4. unfold kl_library.
  destruct (Normal_same ql_m (tsqrt ql_v) _ H1 H2) as (l1 & s1 & -> & Hl1 & Hs1).
  destruct (Normal_same lm (tsqrt lv) _ H3 H4) as (l2 & s2 & -> & Hl2 & Hs2).
  cbn [rbind kl].
  pose proof (kl_normal_normal_shape l1 s1 l2 s2 [] _ Hl1 Hs1 Hl2 Hs2) as Hk.
  take Hk. apply tsum_matrix with (n := 1%nat); auto.
Qed.

End DistributionLemmas.

Section LatentLemmas.
Context {RT : Runtime}.

Local Open Scope list_scope.

Ltac take H := destruct H as (? & -> & ?); cbn [rbind].

Lemma MultivariateNormal_batch loc cov b n :
  shape loc = b ++ [n] -> shape cov = b ++ [n; n] ->
  MultivariateNormal loc cov = Ok (MultivariateNormalD loc cov b n).
Proof.
  intros Hl Hc. unfold MultivariateNormal.
  rewrite Hl, Hc, !rev_app_distr. cbn [rev app].
  rewrite Nat.eqb_refl. cbn [andb].
  now rewrite rev_involutive, broadcast_shapes_refl.
Qed.

(** The latent KL term has one value per cell, with a diagonal and with a
    full covariance. *)
Lemma kl_latent_shape e full_cov qz_m qz_v B L :
  distrib_ok e full_cov ->
  shape qz_m = [B; L] ->
  shape qz_v = (if full_cov then [B; L; L] else [B; L]) ->
  returns_shape
    (kl_latent e qz_m qz_v (zeros [L]) (if full_cov then eye L else ones [L]))
    [B].
Proof.
  intros Hd Hm Hv. unfold kl_latent. destruct full_cov.
  - rewrite (Hd qz_m qz_v), (Hd (zeros [L]) (eye L)).
    rewrite (MultivariateNormal_batch qz_m qz_v [B] L Hm Hv).
    rewrite (MultivariateNormal_batch (zeros [L]) (eye L) [] L eq_refl eq_refl).
    cbn [rbind kl]. unfold kl_mvn_mvn.
    rewrite Nat.eqb_refl, broadcast_shapes_nil_r. cbn [rbind].
    now apply returns_shape_ok.
  - destruct (Hd qz_m qz_v) as (sc & Hsc & ->).
    destruct (Hd (zeros [L]) (ones [L])) as (sc' & Hsc' & ->).
    rewrite Hv in Hsc. cbn in Hsc'.
    unfold Normal. rewrite Hm, Hsc, Hsc'. cbn [zeros full shape].
    rewrite !broadcast_shapes_refl. cbn [rbind kl].
    match goal with
    | |- context [kl_normal_normal ?a ?b ?c ?d] =>
        pose proof (kl_normal_normal_shape a b c d [B] [L]
                      eq_refl eq_refl eq_refl eq_refl) as Hk
    end.
    destruct Hk as (k & -> & Hk). cbn [rbind app] in *. unfold dim.
    rewrite Hk. cbn [length Nat.eqb].
    eapply tsum_matrix; [exact Hk | now left].
Qed.

Lemma log_prob_normal_shape loc scale value p s :
  shape loc = s -> shape scale = s -> shape value = p ++ s ->
  returns_shape (log_prob (NormalD loc scale) value) (p ++ s).
Proof.
  intros Hl Hs Hv. cbn [log_prob]. unfold tsub, tdiv.
  pose proof (tbinop_suffix Rminus value loc p s Hv Hl) as H1. take H1.
  match goal with
  | |- context [tbinop Rdiv ?a ?b] =>
      assert (H2 : returns_shape (tbinop Rdiv a b) (p ++ s))
        by (apply tbinop_suffix; unfold tneg, tsqr, tscale;
            rewrite ?tmap_shape; assumption)
  end. take H2.
  match goal with
  | |- context [tbinop Rminus ?a ?b] =>
      assert (H3 : returns_shape (tbinop Rminus a b) (p ++ s))
        by (apply tbinop_suffix; unfold tlog; rewrite ?tmap_shape; assumption)
  end. take H3.
  now apply returns_shape_ok.
Qed.

(** [Normal(m, sqrt(v)).log_prob(value).sum(dim=-1)] for per-cell columns. *)
Lemma library_log_prob_shape m v value B :
  shape m = [B; 1] -> shape v = [B; 1] -> shape value = [B; 1] ->
  exists d lp, Normal m (tsqrt v) = Ok d /\ log_prob d value = Ok lp
               /\ returns_shape (tsum lp (-1)) [B].
Proof.
  intros Hm Hv Hval.
  destruct (Normal_same m (tsqrt v) _ Hm Hv) as (l & sc & HN & Hl & Hsc).
  destruct (log_prob_normal_shape l sc value [] _ Hl Hsc Hval) as (lp & Hlp & Hs).
  exists (NormalD l sc), lp. repeat split; try assumption.
  eapply tsum_matrix; [eassumption | now right].
Qed.

(** [distrib(m, v).log_prob(z).sum(dim=-1)] with a diagonal covariance has
    one value per cell, for moments of one cell or of every cell. *)
Lemma latent_log_prob_diag e m v z B L p :
  distrib_ok e false ->
  shape m = p ++ [L] -> shape v = p ++ [L] -> shape z = [B; L] ->
  p = [] \/ p = [B] ->
  exists d lp, enc_distrib e m v = Ok d /\ log_prob d z = Ok lp
               /\ returns_shape (tsum lp (-1)) [B].
Proof.
  intros Hd Hm Hv Hz Hp.
  destruct (Hd m v) as (sc & Hsc & HD). rewrite Hv in Hsc.
  destruct (Normal_same m sc _ Hm Hsc) as (l & sc' & HN & Hl & Hsc').
  assert (Hz' : exists q, shape z = q ++ (p ++ [L]) /\ q ++ p = [B]).
  { destruct Hp as [-> | ->]; [now exists [B] | now exists []]. }
  destruct Hz' as (q & Hzq & Hq).
  destruct (log_prob_normal_shape l sc' z q _ Hl Hsc' Hzq) as (lp & Hlp & Hs).
  exists (NormalD l sc'), lp. rewrite HD, HN. repeat split; try assumption.
  rewrite app_assoc, Hq in Hs.
  eapply tsum_matrix; [exact Hs | now right].
Qed.

(** With a full covariance the log-density already has one value per cell,
    and the sum over its last axis leaves a single number. *)
Lemma latent_log_prob_full e m v z B L p :
  distrib_ok e true ->
  shape m = p ++ [L] -> shape v = p ++ [L; L] -> shape z = [B; L] ->
  p = [] \/ p = [B] ->
  exists d lp, enc_distrib e m v = Ok d /\ log_prob d z = Ok lp
               /\ returns_shape (tsum lp (-1)) [].
Proof.
  intros Hd Hm Hv Hz Hp.
  exists (MultivariateNormalD m v p L).
  assert (Hb : broadcast_shapes [B] p = Some [B]).
  { destruct Hp as [-> | ->];
      [apply broadcast_shapes_nil_r | apply broadcast_shapes_refl]. }
  eexists. split; [| split].
  - rewrite (Hd m v). now apply MultivariateNormal_batch.
  - cbn [log_prob]. rewrite Hz. cbn [rev app].
    rewrite Nat.eqb_refl, Hb. reflexivity.
  - now apply tsum_vector with (B := B).
Qed.

End LatentLemmas.

(** ** The encoders and [inference] *)

Section InferenceLemmas.
Context {RT : Runtime} {PK : Package}.

Local Open Scope string_scope.
Local Open Scope list_scope.

Lemma pre_transform_shape b x : shape (pre_transform b x) = shape x.
Proof. now destruct b. Qed.

(** With at most one draw per cell the two encoder passes are all that
    [encode] runs. *)
Lemma encode_single z_enc l_enc asserted full_cov x_ y n w G L B :
  encoder_ok z_enc G L full_cov -> encoder_ok l_enc G 1 false ->
  shape x_ = [B; G] -> (n <= 1)%Z ->
  exists e st,
    encode z_enc l_enc asserted x_ y n w
    = (Ok e, {| w_store := st;
                w_trace := w_trace w ++ [ZEncoderForward; LEncoderForward] |})
    /\ encoded_shapes B L full_cov e.
Proof.
  intros Hz Hl Hx Hn.
  destruct (Hz x_ [y] (w_store w) B Hx) as (qm & qv & z & st1 & Ez & ? & ? & ?).
  destruct (Hl x_ [] st1 B Hx) as (lm & lv & lib & st2 & El & ? & ? & ?).
  exists (qm, qv, z, lm, lv, lib), st2. split.
  - unfold encode.
    run_call Ez. run_call El.
    replace (1 <? n)%Z with false by (symmetry; apply Z.ltb_ge; exact Hn).
    unfold ret. now rewrite <- app_assoc.
  - cbn. auto 6.
Qed.

(** With several draws per cell and a full covariance the assertion fails
    once the two encoder passes have returned, in the world they left. *)
Lemma encode_multi_full z_enc l_enc full_cov x_ y n w G L B :
  encoder_ok z_enc G L full_cov -> encoder_ok l_enc G 1 false ->
  shape x_ = [B; G] -> (1 < n)%Z ->
  exists rz st1 rl st2,
    enc_forward z_enc x_ [y] (w_store w) = (Ok rz, st1)
    /\ enc_forward l_enc x_ [] st1 = (Ok rl, st2)
    /\ encode z_enc l_enc true x_ y n w
       = (Raise AssertionError,
          {| w_store := st2;
             w_trace := w_trace w ++ [ZEncoderForward; LEncoderForward] |}).
Proof.
  intros Hz Hl Hx Hn.
  destruct (Hz x_ [y] (w_store w) B Hx) as (qm & qv & z & st1 & Ez & _).
  destruct (Hl x_ [] st1 B Hx) as (lm & lv & lib & st2 & El & _).
  exists (qm, qv, z), st1, (lm, lv, lib), st2.
  split; [exact Ez|]. split; [exact El|]. unfold encode.
  run_call Ez. run_call El.
  replace (1 <? n)%Z with true by (symmetry; apply Z.ltb_lt; exact Hn).
  cbn. now rewrite <- app_assoc.
Qed.

Lemma F_linear_shape oh p B n G :
  shape oh = [B; n] -> shape p = [G; n] -> returns_shape (F_linear oh p) [B; G].
Proof.
  intros Ho Hp. unfold F_linear. rewrite Ho, Hp. cbn [rev app].
  rewrite Nat.eqb_refl. now apply returns_shape_ok.
Qed.

Lemma dispersion_cases (self : VAE) :
  In (dispersion self) dispersion_modes ->
  dispersion self = "gene" \/ dispersion self = "gene-batch"
  \/ dispersion self = "gene-label" \/ dispersion self = "gene-cell".
Proof.
  cbn. intros [H | [H | [H | [H | []]]]]; symmetry in H; auto.
Qed.

(** In each mode the dispersion before [exp] broadcasts against the
    counts. *)
Lemma resolve_px_r_shape self G B decoded bi y :
  In (dispersion self) dispersion_modes -> px_r_ok self G -> package_ok G ->
  (exists b, bi = Some b /\ shape b = [B; 1]) -> labels_ok self B y ->
  (dispersion self = "gene-cell" ->
   exists t, decoded = Some t /\ shape t = [B; G]) ->
  exists raw, resolve_px_r self decoded bi y = Ok (Some raw)
              /\ broadcast_shapes [B; G] (shape raw) = Some [B; G].
Proof.
  intros Hmode (Hg & Hgb & Hgl) Hpk (b & -> & Hb) Hy Hdec.
  unfold resolve_px_r.
  destruct (dispersion_cases self Hmode) as [E | [E | [E | E]]].
  - destruct (Hg E) as (p & Hp & Hs). rewrite E, Hp. cbn.
    exists p. split; [reflexivity|]. rewrite Hs.
    apply (broadcast_shapes_suffix [B] [G]).
  - destruct (Hgb E) as (p & Hp & Hs).
    destruct (one_hot_ok Hpk b (n_batch self) Hb) as (oh & Hoh & Hso).
    destruct (F_linear_shape oh p _ _ _ Hso Hs) as (r & Hr & Hsr).
    rewrite E, Hp, Hoh. cbn. rewrite Hr. cbn.
    exists r. split; [reflexivity|]. rewrite Hsr. apply broadcast_shapes_refl.
  - destruct (Hgl E) as (p & Hp & Hs).
    destruct (Hy E) as (l & -> & Hl).
    destruct (one_hot_ok Hpk l (n_labels self) Hl) as (oh & Hoh & Hso).
    destruct (F_linear_shape oh p _ _ _ Hso Hs) as (r & Hr & Hsr).
    rewrite E, Hp, Hoh. cbn. rewrite Hr. cbn.
    exists r. split; [reflexivity|]. rewrite Hsr. apply broadcast_shapes_refl.
  - destruct (Hdec E) as (t & -> & Hs). rewrite E. cbn.
    exists t. split; [reflexivity|]. rewrite Hs. apply broadcast_shapes_refl.
Qed.

(** [inference] with at most one draw per cell returns, after exactly the
    two encoder passes and the decoder pass. *)
Lemma inference_single self G B x bi y n w :
  VAE_wf self G -> package_ok G -> shape x = [B; G] ->
  (exists b, bi = Some b /\ shape b = [B; 1]) -> labels_ok self B y ->
  (n <= 1)%Z ->
  exists o st,
    inference self x bi y n w
    = (Ok o, {| w_store := st;
                w_trace := w_trace w ++ [ZEncoderForward; LEncoderForward;
                                         DecoderForward] |})
    /\ inference_shapes B G (n_latent self) (z_full_cov self) o.
Proof.
  intros Hwf Hpk Hx Hbi Hy Hn.
  assert (Hx' : shape (pre_transform (log_variational self) x) = [B; G])
    by now rewrite pre_transform_shape.
  destruct (encode_single _ _ (z_full_cov self) _ _ y n w G _ B
              (wf_z_encoder Hwf) (wf_l_encoder Hwf) Hx' Hn)
    as ([[[[[qz_m qz_v] z] ql_m] ql_v] lib] & st & He & Hsh).
  pose proof Hsh as (Hqm & Hqv & Hz & Hlm & Hlv & Hlib).
  pose proof Hbi as (b & Eb & Hb).
  destruct (wf_decoder Hwf (dispersion self) z lib b y st Hz Hlib Hb)
    as (ps & pr & prate & pd & st' & Ed & Hps & Hprate & Hpd & Hpr).
  destruct (resolve_px_r_shape self G B pr bi y (wf_dispersion Hwf)
              (wf_px_r Hwf) Hpk Hbi Hy) as (raw & Hraw & Hbr).
  { exact Hpr. }
  eexists _, st'. split.
  - unfold inference. cbn zeta. rewrite (bind_ok _ _ _ _ _ He). subst bi.
    cbn beta iota zeta. run_call Ed. run_lift Hraw. cbn [py_exp].
    run_lift (@eq_refl _ (Ok (texp raw))). unfold ret.
    now rewrite <- app_assoc.
  - constructor; cbn; auto.
Qed.

End InferenceLemmas.

(** ** [forward] *)

Section ForwardLemmas.
Context {RT : Runtime} {PK : Package}.

Local Open Scope string_scope.
Local Open Scope list_scope.

Lemma reconstruction_loss_shape self G B L fc x o :
  package_ok G -> In (reconstruction_loss self) ["zinb"; "nb"] ->
  shape x = [B; G] -> inference_shapes B G L fc o ->
  returns_shape
    (_reconstruction_loss self x (o_px_rate o) (o_px_r o) (o_px_dropout o)) [B].
Proof.
  intros Hpk Hloss Hx Ho. unfold _reconstruction_loss.
  destruct Hloss as [E | [E | []]]; rewrite <- E; cbn [String.eqb Ascii.eqb Bool.eqb].
  - destruct (zinb_ok Hpk x (o_px_rate o) (o_px_r o) (o_px_dropout o) Hx
                (sh_px_rate Ho) (sh_px_r Ho)
                (sh_px_dropout Ho)) as (r & -> & Hr).
    now apply returns_shape_ok.
  - destruct (nb_ok Hpk x (o_px_rate o) (o_px_r o) Hx
                (sh_px_rate Ho) (sh_px_r Ho))
      as (r & -> & Hr).
    now apply returns_shape_ok.
Qed.

Lemma reconstruction_loss_unbound self x px_rate px_r px_dropout :
  ~ In (reconstruction_loss self) ["zinb"; "nb"] ->
  _reconstruction_loss self x px_rate px_r px_dropout = Raise UnboundLocalError.
Proof.
  intros Hloss. unfold _reconstruction_loss.
  destruct (String.eqb_spec (reconstruction_loss self) "zinb") as [E | _].
  { exfalso. apply Hloss. left. now symmetry. }
  destruct (String.eqb_spec (reconstruction_loss self) "nb") as [E | _].
  { exfalso. apply Hloss. right. left. now symmetry. }
  reflexivity.
Qed.

(** On valid indices the sum of two per-cell tensors is the sum of their
    values. *)
Lemma tadd_per_cell a b t B :
  shape a = [B] -> shape b = [B] -> tadd a b = Ok t ->
  forall i, i < B -> at_ t [i] = (at_ a [i] + at_ b [i])%R.
Proof.
  intros Ha Hb Ht i Hi. unfold tadd, tbinop in Ht.
  rewrite Ha, Hb, broadcast_shapes_refl in Ht. injection Ht as <-.
  cbn. destruct (Nat.eqb_spec B 1) as [-> | _]; [| reflexivity].
  now replace i with 0 by lia.
Qed.

(** Every step of [forward] on a well-formed batch. *)
Lemma forward_run self G B x lm lv bi y w :
  VAE_wf self G -> package_ok G ->
  In (reconstruction_loss self) ["zinb"; "nb"] ->
  inputs_ok B G x lm lv bi -> labels_ok self B y ->
  exists o w' reconst_loss kl_divergence_l kl_divergence_z total,
    inference self x bi y 1 w = (Ok o, w')
    /\ inference_shapes B G (n_latent self) (z_full_cov self) o
    /\ _reconstruction_loss self x (o_px_rate o) (o_px_r o) (o_px_dropout o)
       = Ok reconst_loss
    /\ shape reconst_loss = [B]
    /\ kl_library (o_ql_m o) (o_ql_v o) lm lv = Ok kl_divergence_l
    /\ shape kl_divergence_l = [B]
    /\ kl_latent (z_encoder self) (o_qz_m o) (o_qz_v o)
                 (fst (get_prior_params self)) (snd (get_prior_params self))
       = Ok kl_divergence_z
    /\ shape kl_divergence_z = [B]
    /\ tadd reconst_loss kl_divergence_l = Ok total
    /\ shape total = [B]
    /\ forward self x lm lv bi y w = (Ok (total, kl_divergence_z), w').
Proof.
  intros Hwf Hpk Hloss [Hx Hlm Hlv Hbi] Hy.
  destruct (inference_single self G B x bi y 1 w Hwf Hpk Hx Hbi Hy (Z.le_refl 1))
    as (o & st & Hinf & Ho).
  pose proof (sh_encoded Ho) as (Hqm & Hqv & Hz & Hqlm & Hqlv & Hlib).
  destruct (reconstruction_loss_shape self G B _ _ x o Hpk Hloss Hx Ho)
    as (rl & Hrl & Hsrl).
  destruct (kl_library_shape (o_ql_m o) (o_ql_v o) lm lv B Hqlm Hqlv Hlm Hlv)
    as (kll & Hkll & Hskll).
  destruct (kl_latent_shape (z_encoder self) (z_full_cov self)
              (o_qz_m o) (o_qz_v o) B (n_latent self)
              (wf_z_distrib Hwf) Hqm Hqv) as (klz & Hklz & Hsklz).
  destruct (tbinop_same Rplus rl kll [B] Hsrl Hskll) as (total & Ht & Hst).
  exists o, {| w_store := st;
              w_trace := w_trace w ++ [ZEncoderForward; LEncoderForward;
                                       DecoderForward] |},
         rl, kll, klz, total.
  repeat (split; [assumption|]).
  unfold forward. rewrite (bind_ok _ _ _ _ _ Hinf).
  cbn [get_prior_params]. run_lift Hklz. run_lift Hkll. run_lift Hrl.
  run_lift Ht. reflexivity.
Qed.

End ForwardLemmas.

(** ** The Poisson variant *)

Section PoissonLemmas.
Context {RT : Runtime} {PK : Package}.

Local Open Scope string_scope.
Local Open Scope list_scope.

Lemma poisson_reconstruction_shape x rate B G :
  shape x = [B; G] -> shape rate = [B; G] ->
  returns_shape (LogNormalPoissonVAE_reconstruction_loss x rate) [B].
Proof.
  intros Hx Hr. unfold LogNormalPoissonVAE_reconstruction_loss.
  cbn [log_prob].
  match goal with
  | |- context [tbinop ?f rate x] =>
      destruct (tbinop_same f rate x [B; G] Hr Hx) as (lp & -> & Hlp)
  end.
  cbn [rbind]. unfold dim, tneg. rewrite tmap_shape, Hlp.
  cbn [length Nat.eqb].
  apply tsum_matrix with (n := G); [now rewrite tmap_shape | now right].
Qed.

Lemma LogNormalPoissonVAE_inference_single self G B x bi y n w :
  LogNormalPoissonVAE_wf self G -> shape x = [B; G] ->
  (exists b, bi = Some b /\ shape b = [B; 1]) -> (n <= 1)%Z ->
  exists o st,
    LogNormalPoissonVAE_inference self x bi y n w
    = (Ok o, {| w_store := st;
                w_trace := w_trace w ++ [ZEncoderForward; LEncoderForward;
                                         DecoderForward] |})
    /\ shape (po_px_rate o) = [B; G]
    /\ encoded_shapes B (lnp_n_latent self)
         (lnp_z_full_cov self || lnp_z_autoregressive self)
         (po_qz_m o, po_qz_v o, po_z o, po_ql_m o, po_ql_v o, po_library o).
Proof.
  intros Hwf Hx (b & -> & Hb) Hn.
  assert (Hx' : shape (pre_transform (lnp_log_variational self) x) = [B; G])
    by now rewrite pre_transform_shape.
  destruct (encode_single (lnp_z_encoder self) (lnp_l_encoder self)
              (lnp_z_full_cov self) _ _ y n w G (lnp_n_latent self) B
              (lwf_z_encoder Hwf) (lwf_l_encoder Hwf) Hx' Hn)
    as ([[[[[qz_m qz_v] z] ql_m] ql_v] lib] & st & He & Hsh).
  pose proof Hsh as (Hqm & Hqv & Hz & Hlm & Hlv & Hlib).
  destruct (lwf_decoder Hwf z lib b y st Hz Hlib Hb)
    as (prate & st' & Ed & Hprate).
  eexists _, st'. split; [| split].
  - unfold LogNormalPoissonVAE_inference. cbn zeta.
    rewrite (bind_ok _ _ _ _ _ He). cbn beta iota zeta.
    run_call Ed. unfold ret. now rewrite <- app_assoc.
  - exact Hprate.
  - exact Hsh.
Qed.

(** The world once [torch.manual_seed(n)] has run. *)
Lemma bind_manual_seed {B} n (k : unit -> M B) w :
  bind (manual_seed n) k w
  = k tt {| w_store := {| st_rng := seeded n;
                          st_buffers := st_buffers (w_store w) |};
            w_trace := w_trace w |}.
Proof. reflexivity. Qed.

(** Every step of the Poisson [forward] on a well-formed batch. *)
Lemma LogNormalPoissonVAE_forward_run self G B x lm lv bi y w :
  LogNormalPoissonVAE_wf self G -> inputs_ok B G x lm lv bi ->
  exists o w' reconst_loss kl_divergence_l kl_divergence_z total,
    LogNormalPoissonVAE_inference self x bi y 1
      {| w_store := {| st_rng := seeded 42;
                       st_buffers := st_buffers (w_store w) |};
         w_trace := w_trace w |} = (Ok o, w')
    /\ LogNormalPoissonVAE_reconstruction_loss x (po_px_rate o)
       = Ok reconst_loss
    /\ shape reconst_loss = [B]
    /\ kl_library (po_ql_m o) (po_ql_v o) lm lv = Ok kl_divergence_l
    /\ shape kl_divergence_l = [B]
    /\ kl_latent (lnp_z_encoder self) (po_qz_m o) (po_qz_v o)
                 (fst (LogNormalPoissonVAE_get_prior_params self))
                 (snd (LogNormalPoissonVAE_get_prior_params self))
       = Ok kl_divergence_z
    /\ shape kl_divergence_z = [B]
    /\ tadd reconst_loss kl_divergence_l = Ok total
    /\ shape total = [B]
    /\ LogNormalPoissonVAE_forward self x lm lv bi y w
       = (Ok (total, kl_divergence_z), w').
Proof.
  intros Hwf [Hx Hlm Hlv Hbi].
  destruct (LogNormalPoissonVAE_inference_single self G B x bi y 1
              {| w_store := {| st_rng := seeded 42;
                               st_buffers := st_buffers (w_store w) |};
                 w_trace := w_trace w |} Hwf Hx Hbi (Z.le_refl 1))
    as (o & st & Hinf & Hrate & Hsh).
  pose proof Hsh as (Hqm & Hqv & Hz & Hqlm & Hqlv & Hlib).
  destruct (poisson_reconstruction_shape x (po_px_rate o) B G Hx Hrate)
    as (rl & Hrl & Hsrl).
  destruct (kl_library_shape (po_ql_m o) (po_ql_v o) lm lv B Hqlm Hqlv Hlm Hlv)
    as (kll & Hkll & Hskll).
  destruct (kl_latent_shape (lnp_z_encoder self)
              (lnp_z_full_cov self || lnp_z_autoregressive self)
              (po_qz_m o) (po_qz_v o) B (lnp_n_latent self)
              (lwf_z_distrib Hwf) Hqm Hqv) as (klz & Hklz & Hsklz).
  destruct (tbinop_same Rplus rl kll [B] Hsrl Hskll) as (total & Ht & Hst).
  eexists o, _, rl, kll, klz, total.
  split; [exact Hinf|]. repeat (split; [assumption|]).
  unfold LogNormalPoissonVAE_forward. rewrite bind_manual_seed.
  rewrite (bind_ok _ _ _ _ _ Hinf).
  cbn [LogNormalPoissonVAE_get_prior_params]. run_lift Hklz. run_lift Hkll.
  run_lift Hrl. run_lift Ht. reflexivity.
Qed.

End PoissonLemmas.

(** ** What the constructors establish *)

Section ConstructorLemmas.
Context {RT : Runtime} {PK : Package}.

Local Open Scope string_scope.
Local Open Scope list_scope.

Lemma draw_randn_shape s st :
  constructors_ok -> shape (fst (draw_randn s st)) = s.
Proof.
  intros Hc. unfold draw_randn.
  pose proof (randn_shape Hc s (st_rng st)) as H.
  now destruct (randn s (st_rng st)).
Qed.

(** A model built by [VAE.__init__] with one of the four dispersion modes
    is well formed. *)
Lemma VAE__init___wf G nb nl nh L nlayers dr disp lv loss fc st :
  constructors_ok -> In disp dispersion_modes ->
  VAE_wf (fst (VAE__init__ G nb nl nh L nlayers dr disp lv loss fc st)) G.
Proof.
  intros Hc Hmode. unfold VAE__init__.
  match goal with
  | |- context [let (_, _) := ?p in _] => destruct p as [pxr st1] eqn:EP
  end.
  pose proof (encoder_built Hc G L nlayers nh dr (Some fc) None st1) as Hz.
  pose proof (fun st => encoder_built Hc G 1 1 nh dr None None st) as Hl.
  pose proof (fun st => @decoder_built _ _ Hc L G [nb] nlayers nh st) as Hd.
  destruct (Encoder__init__ G L nlayers nh dr (Some fc) None st1)
    as [ze st2].
  specialize (Hl st2).
  destruct (Encoder__init__ G 1 1 nh dr None None st2) as [le st3].
  specialize (Hd st3).
  destruct (DecoderSCVI__init__ L G [nb] nlayers nh st3) as [d st4].
  cbn [fst] in *.
  cbn zeta in Hz.
  replace (match Some fc, @None bool with
           | Some true, _ | _, Some true => true
           | _, _ => false
           end) with fc in Hz by now destruct fc.
  constructor; cbn; try tauto.
  unfold px_r_ok; cbn. repeat split; intros E; subst disp; cbn in EP.
  - pose proof (draw_randn_shape [G] st Hc) as Hs.
    destruct (draw_randn [G] st) as [t st']. injection EP as <- _.
    now exists t.
  - pose proof (draw_randn_shape [G; nb] st Hc) as Hs.
    destruct (draw_randn [G; nb] st) as [t st']. injection EP as <- _.
    now exists t.
  - pose proof (draw_randn_shape [G; nl] st Hc) as Hs.
    destruct (draw_randn [G; nl] st) as [t st']. injection EP as <- _.
    now exists t.
Qed.

End ConstructorLemmas.

(** ** The concrete instance honours the contracts *)

Section ToyLemmas.

Local Open Scope string_scope.
Local Open Scope list_scope.

Lemma toy_encoder_ok L full_cov G : encoder_ok (toy_encoder L full_cov) G L full_cov.
Proof.
  intros x args st B Hx. cbn. rewrite Hx. cbn.
  eexists _, _, _, _. split; [reflexivity|].
  repeat split. now destruct full_cov.
Qed.

Lemma toy_distrib_ok L full_cov : distrib_ok (toy_encoder L full_cov) full_cov.
Proof.
  intros m v. destruct full_cov; cbn; [reflexivity|].
  now exists (tsqrt v).
Qed.

Lemma toy_decoder_ok G L : decoder_ok (toy_decoder G) L G.
Proof.
  intros disp z lib bi y st B Hz _ _. cbn. rewrite Hz. cbn.
  eexists _, _, _, _, _. split; [reflexivity|].
  repeat split. intros ->. cbn. now eexists.
Qed.

Lemma toy_decoder_poisson_ok G L : decoder_poisson_ok (toy_decoder_poisson G) L G.
Proof.
  intros z lib bi y st B Hz _ _. cbn. rewrite Hz. cbn.
  now eexists _, _.
Qed.

Lemma toy_package_ok G : @package_ok toy_runtime toy_package G.
Proof.
  constructor; cbn.
  - intros x mu theta pi B Hx _ _ _. rewrite Hx. now eexists.
  - intros x mu theta B Hx _ _. rewrite Hx. now eexists.
  - intros idx n B Hi. rewrite Hi. now eexists.
Qed.

Lemma toy_constructors_ok : @constructors_ok toy_runtime toy_package.
Proof.
  constructor; cbn.
  - reflexivity.
  - intros G L _ _ _ fc ar _. split.
    + apply toy_encoder_ok.
    + apply toy_distrib_ok.
  - intros. apply toy_decoder_ok.
  - intros. apply toy_decoder_ok.
Qed.

Lemma toy_vae_wf disp loss full_cov :
  In disp dispersion_modes -> VAE_wf (toy_vae disp loss full_cov) 3.
Proof.
  intros H. unfold toy_vae. apply VAE__init___wf; [exact toy_constructors_ok | exact H].
Qed.

Lemma toy_lnp_wf full_cov : LogNormalPoissonVAE_wf (toy_lnp full_cov) 3.
Proof.
  constructor; cbn.
  - replace (full_cov || false)%bool with (toy_full (Some full_cov) (Some false))
      by now destruct full_cov.
    apply toy_encoder_ok.
  - replace (full_cov || false)%bool with (toy_full (Some full_cov) (Some false))
      by now destruct full_cov.
    apply toy_distrib_ok.
  - apply toy_encoder_ok.
  - apply toy_decoder_poisson_ok.
Qed.

Lemma toy_inputs_ok :
  inputs_ok 2 3 toy_x toy_l_mean toy_l_var (Some toy_batch_index).
Proof. constructor; try reflexivity. now exists toy_batch_index. Qed.

End ToyLemmas.

(** * The claims *)

Section Claims.
Context {RT : Runtime} {PK : Package}.

Local Open Scope string_scope.
Local Open Scope list_scope.

Lemma rbind_ok_inv {A B} (r : result A) (k : A -> result B) b :
  rbind r k = Ok b -> exists a, r = Ok a /\ k a = Ok b.
Proof. destruct r as [a | e]; cbn; [now exists a | discriminate]. Qed.

Lemma kl_library_spec ql_m ql_v lm lv k :
  kl_library ql_m ql_v lm lv = Ok k -> library_kl_of ql_m ql_v lm lv k.
Proof.
  unfold kl_library. intros H.
  apply rbind_ok_inv in H as (dq & Hdq & H).
  apply rbind_ok_inv in H as (dp & Hdp & H).
  apply rbind_ok_inv in H as (k0 & Hk0 & H).
  now exists dq, dp, k0.
Qed.

Lemma kl_latent_spec enc qz_m qz_v mean scale k :
  kl_latent enc qz_m qz_v mean scale = Ok k ->
  latent_kl_of enc qz_m qz_v mean scale k.
Proof.
  unfold kl_latent. intros H.
  apply rbind_ok_inv in H as (dq & Hdq & H).
  apply rbind_ok_inv in H as (dp & Hdp & H).
  apply rbind_ok_inv in H as (k0 & Hk0 & H).
  now exists dq, dp, k0.
Qed.

(** C1.  On a well-formed batch [forward] returns a pair.  Its first
    component is the reconstruction loss plus the KL divergence between the
    library-size posterior [Normal(ql_m, sqrt(ql_v))] and the prior
    [Normal(local_l_mean, sqrt(local_l_var))], cell by cell, and nothing
    else; its second component is the KL divergence between the latent
    posterior and the prior of zero mean and unit scale.  This holds for
    [VAE.forward] and for [LogNormalPoissonVAE.forward]. *)
Theorem forward_returns_loss_and_latent_kl :
  (forall (self : VAE) G B x local_l_mean local_l_var batch_index y w,
     VAE_wf self G -> package_ok G ->
     In (reconstruction_loss self) ["zinb"; "nb"] ->
     inputs_ok B G x local_l_mean local_l_var batch_index ->
     labels_ok self B y ->
     exists o w' reconst_loss kl_divergence_l kl_divergence_z total,
       inference self x batch_index y 1 w = (Ok o, w')
       /\ _reconstruction_loss self x (o_px_rate o) (o_px_r o) (o_px_dropout o)
          = Ok reconst_loss
       /\ library_kl_of (o_ql_m o) (o_ql_v o) local_l_mean local_l_var
                        kl_divergence_l
       /\ latent_kl_of (z_encoder self) (o_qz_m o) (o_qz_v o)
            (zeros [n_latent self])
            (if z_full_cov self then eye (n_latent self)
             else ones [n_latent self])
            kl_divergence_z
       /\ tadd reconst_loss kl_divergence_l = Ok total
       /\ (forall i, i < B ->
           at_ total [i] = (at_ reconst_loss [i] + at_ kl_divergence_l [i])%R)
       /\ forward self x local_l_mean local_l_var batch_index y w
          = (Ok (total, kl_divergence_z), w'))
  /\
  (forall (self : LogNormalPoissonVAE) G B x local_l_mean local_l_var
          batch_index y w,
     LogNormalPoissonVAE_wf self G ->
     inputs_ok B G x local_l_mean local_l_var batch_index ->
     exists o w' reconst_loss kl_divergence_l kl_divergence_z total,
       LogNormalPoissonVAE_inference self x batch_index y 1
         {| w_store := {| st_rng := seeded 42;
                          st_buffers := st_buffers (w_store w) |};
            w_trace := w_trace w |} = (Ok o, w')
       /\ LogNormalPoissonVAE_reconstruction_loss x (po_px_rate o)
          = Ok reconst_loss
       /\ library_kl_of (po_ql_m o) (po_ql_v o) local_l_mean local_l_var
                        kl_divergence_l
       /\ latent_kl_of (lnp_z_encoder self) (po_qz_m o) (po_qz_v o)
            (zeros [lnp_n_latent self])
            (if lnp_z_full_cov self || lnp_z_autoregressive self
             then eye (lnp_n_latent self) else ones [lnp_n_latent self])
            kl_divergence_z
       /\ tadd reconst_loss kl_divergence_l = Ok total
       /\ (forall i, i < B ->
           at_ total [i] = (at_ reconst_loss [i] + at_ kl_divergence_l [i])%R)
       /\ LogNormalPoissonVAE_forward self x local_l_mean local_l_var
            batch_index y w
          = (Ok (total, kl_divergence_z), w')).
Proof.
  split.
  - intros self G B x lm lv bi y w Hwf Hpk Hloss Hin Hy.
    destruct (forward_run self G B x lm lv bi y w Hwf Hpk Hloss Hin Hy)
      as (o & w' & rl & kll & klz & total & Hinf & _ & Hrl & Hsrl & Hkll
          & Hskll & Hklz & _ & Ht & _ & Hf).
    exists o, w', rl, kll, klz, total.
    repeat split; try assumption.
    + now apply kl_library_spec.
    + now apply kl_latent_spec.
    + now apply tadd_per_cell with (B := B).
  - intros self G B x lm lv bi y w Hwf Hin.
    destruct (LogNormalPoissonVAE_forward_run self G B x lm lv bi y w Hwf Hin)
      as (o & w' & rl & kll & klz & total & Hinf & Hrl & Hsrl & Hkll
          & Hskll & Hklz & _ & Ht & _ & Hf).
    exists o, w', rl, kll, klz, total.
    repeat split; try assumption.
    + now apply kl_library_spec.
    + now apply kl_latent_spec.
    + now apply tadd_per_cell with (B := B).
Qed.

(** C2.  For a batch of shape [(batch_size, n_input)] both tensors
    [forward] returns are one-dimensional of length [batch_size]: the
    reconstruction loss, the library KL term and the latent KL term that
    [forward] computes from the output of its own [inference] call each
    have one value per cell before they are combined and returned.  This
    holds for [VAE.forward] and for [LogNormalPoissonVAE.forward]. *)
Theorem forward_outputs_per_cell :
  (forall (self : VAE) G B x local_l_mean local_l_var batch_index y w,
     VAE_wf self G -> package_ok G ->
     In (reconstruction_loss self) ["zinb"; "nb"] ->
     inputs_ok B G x local_l_mean local_l_var batch_index ->
     labels_ok self B y ->
     exists o reconst_loss kl_divergence_l kl_divergence_z total w',
       inference self x batch_index y 1 w = (Ok o, w')
       /\ _reconstruction_loss self x (o_px_rate o) (o_px_r o) (o_px_dropout o)
          = Ok reconst_loss
       /\ shape reconst_loss = [B]
       /\ kl_library (o_ql_m o) (o_ql_v o) local_l_mean local_l_var
          = Ok kl_divergence_l
       /\ shape kl_divergence_l = [B]
       /\ kl_latent (z_encoder self) (o_qz_m o) (o_qz_v o)
                    (fst (get_prior_params self)) (snd (get_prior_params self))
          = Ok kl_divergence_z
       /\ shape kl_divergence_z = [B]
       /\ tadd reconst_loss kl_divergence_l = Ok total
       /\ shape total = [B]
       /\ forward self x local_l_mean local_l_var batch_index y w
          = (Ok (total, kl_divergence_z), w'))
  /\
  (forall (self : LogNormalPoissonVAE) G B x local_l_mean local_l_var
          batch_index y w,
     LogNormalPoissonVAE_wf self G ->
     inputs_ok B G x local_l_mean local_l_var batch_index ->
     exists o reconst_loss kl_divergence_l kl_divergence_z total w',
       LogNormalPoissonVAE_inference self x batch_index y 1
         {| w_store := {| st_rng := seeded 42;
                          st_buffers := st_buffers (w_store w) |};
            w_trace := w_trace w |} = (Ok o, w')
       /\ LogNormalPoissonVAE_reconstruction_loss x (po_px_rate o)
          = Ok reconst_loss
       /\ shape reconst_loss = [B]
       /\ kl_library (po_ql_m o) (po_ql_v o) local_l_mean local_l_var
          = Ok kl_divergence_l
       /\ shape kl_divergence_l = [B]
       /\ kl_latent (lnp_z_encoder self) (po_qz_m o) (po_qz_v o)
                    (fst (LogNormalPoissonVAE_get_prior_params self))
                    (snd (LogNormalPoissonVAE_get_prior_params self))
          = Ok kl_divergence_z
       /\ shape kl_divergence_z = [B]
       /\ tadd reconst_loss kl_divergence_l = Ok total
       /\ shape total = [B]
       /\ LogNormalPoissonVAE_forward self x local_l_mean local_l_var
            batch_index y w
          = (Ok (total, kl_divergence_z), w')).
Proof.
  split.
  - intros self G B x lm lv bi y w Hwf Hpk Hloss Hin Hy.
    destruct (forward_run self G B x lm lv bi y w Hwf Hpk Hloss Hin Hy)
      as (o & w' & rl & kll & klz & total & Hinf & _ & Hrl & Hsrl & Hkll
          & Hskll & Hklz & Hsklz & Ht & Hst & Hf).
    exists o, rl, kll, klz, total, w'. auto 12.
  - intros self G B x lm lv bi y w Hwf Hin.
    destruct (LogNormalPoissonVAE_forward_run self G B x lm lv bi y w Hwf Hin)
      as (o & w' & rl & kll & klz & total & Hinf & Hrl & Hsrl & Hkll
          & Hskll & Hklz & Hsklz & Ht & Hst & Hf).
    exists o, rl, kll, klz, total, w'. auto 12.
Qed.

(** What a returned [inference] has run: the decoder pass, the resolution
    of the dispersion, and [exp]. *)
Lemma inference_inv self x bi y n w o w' :
  inference self x bi y n w = (Ok o, w') ->
  exists st ps pr pd st' raw,
    dec_forward (decoder self) (dispersion self) (o_z o) (o_library o)
                [bi; y] st = (Ok (ps, pr, o_px_rate o, pd), st')
    /\ ps = o_px_scale o /\ pd = o_px_dropout o
    /\ resolve_px_r self pr bi y = Ok (Some raw)
    /\ o_px_r o = texp raw.
Proof.
  unfold inference. cbn zeta. intros H.
  apply bind_ok_inv in H as ([[[[[qz_m qz_v] z] ql_m] ql_v] lib] & w1 & _ & H).
  cbn beta iota zeta in H.
  apply bind_ok_inv in H as ([[[ps pr] prate] pd] & w2 & Hd & H).
  apply call_network_inv in Hd as (st' & Hd & ->).
  cbn beta iota zeta in H.
  apply bind_lift_ok_inv in H as (opt & Hres & H).
  apply bind_lift_ok_inv in H as (t & Hexp & H).
  unfold ret in H. injection H as <- _.
  destruct opt as [raw |]; [| discriminate]. cbn in Hexp. injection Hexp as <-.
  exists (w_store w1), ps, pr, pd, st', raw. cbn. auto.
Qed.

Lemma MeanVarianceVAE_inference_inv self x bi y n w o w' :
  MeanVarianceVAE_inference self x bi y n w = (Ok o, w') ->
  exists nb_mean net raw,
    tmul (o_px_scale o) (o_library o) = Ok nb_mean
    /\ px_r_net self (view_column nb_mean) = Ok net
    /\ view net (shape nb_mean) = Ok raw
    /\ shape raw = shape (o_px_scale o)
    /\ o_px_r o = texp raw.
Proof.
  unfold MeanVarianceVAE_inference. cbn zeta. intros H.
  apply bind_ok_inv in H as ([[[[[qz_m qz_v] z] ql_m] ql_v] lib] & w1 & _ & H).
  cbn beta iota zeta in H.
  apply bind_ok_inv in H as ([[[ps pr] prate] pd] & w2 & _ & H).
  cbn beta iota zeta in H.
  apply bind_ok_inv in H as (raw & w3 & Hres & H).
  unfold ret in H. injection H as <- _.
  unfold mv_resolve_px_r in Hres.
  apply bind_lift_ok_inv in Hres as (nb_mean & Hnb & Hres).
  apply bind_lift_ok_inv in Hres as (net & Hnet & Hres).
  apply bind_lift_ok_inv in Hres as (r & Hview & Hres).
  apply bind_ok_inv in Hres as (u & w4 & Ha & Hres).
  apply assert_ok_inv in Ha as (Ha & ->).
  unfold ret in Hres. injection Hres as -> _.
  apply shape_eqb_eq in Ha.
  exists nb_mean, net, raw. cbn. auto.
Qed.

(** C3.  The dispersion [inference] returns is [exp] of a value chosen by
    the configured mode: the single per-gene parameter for 'gene';
    [F.linear(one_hot(batch_index, n_batch), px_r)] for 'gene-batch';
    [F.linear(one_hot(y, n_labels), px_r)] for 'gene-label'; the value the
    decoder returned for 'gene-cell'.  In [MeanVarianceVAE] it is [exp] of
    [px_r_net] applied to [px_scale * library], reshaped to the shape of
    [px_scale]. *)
Theorem inference_resolves_dispersion :
  (forall (self : VAE) x batch_index y n_samples w o w',
     inference self x batch_index y n_samples w = (Ok o, w') ->
     exists raw,
       o_px_r o = texp raw
       /\ (dispersion self = "gene" -> px_r self = Some raw)
       /\ (dispersion self = "gene-batch" ->
           exists oh p, one_hot batch_index (n_batch self) = Ok oh
                        /\ px_r self = Some p /\ F_linear oh p = Ok raw)
       /\ (dispersion self = "gene-label" ->
           exists oh p, one_hot y (n_labels self) = Ok oh
                        /\ px_r self = Some p /\ F_linear oh p = Ok raw)
       /\ (dispersion self = "gene-cell" ->
           exists st pd st',
             dec_forward (decoder self) "gene-cell" (o_z o) (o_library o)
                         [batch_index; y] st
             = (Ok (o_px_scale o, Some raw, o_px_rate o, pd), st')))
  /\
  (forall (self : MeanVarianceVAE) x batch_index y n_samples w o w',
     MeanVarianceVAE_inference self x batch_index y n_samples w = (Ok o, w') ->
     exists nb_mean net raw,
       tmul (o_px_scale o) (o_library o) = Ok nb_mean
       /\ px_r_net self (view_column nb_mean) = Ok net
       /\ view net (shape nb_mean) = Ok raw
       /\ o_px_r o = texp raw).
Proof.
  split.
  - intros self x bi y n w o w' H.
    apply inference_inv in H
      as (st & ps & pr & pd & st' & raw & Hd & -> & _ & Hres & Hexp).
    exists raw. split; [exact Hexp|].
    unfold resolve_px_r in Hres.
    repeat split; intros E; rewrite E in Hres; cbn in Hres.
    + apply rbind_ok_inv in Hres as (p & Hp & Hres).
      injection Hres as <-. now destruct (px_r self); [injection Hp as -> |].
    + apply rbind_ok_inv in Hres as (oh & Hoh & Hres).
      apply rbind_ok_inv in Hres as (p & Hp & Hres).
      apply rbind_ok_inv in Hres as (r & Hr & Hres).
      injection Hres as <-. exists oh, p. repeat split; try assumption.
      now destruct (px_r self); [injection Hp as -> |].
    + apply rbind_ok_inv in Hres as (oh & Hoh & Hres).
      apply rbind_ok_inv in Hres as (p & Hp & Hres).
      apply rbind_ok_inv in Hres as (r & Hr & Hres).
      injection Hres as <-. exists oh, p. repeat split; try assumption.
      now destruct (px_r self); [injection Hp as -> |].
    + injection Hres as ->. rewrite E in Hd. now exists st, pd, st'.
  - intros self x bi y n w o w' H.
    apply MeanVarianceVAE_inference_inv in H
      as (nb_mean & net & raw & ? & ? & ? & _ & ?).
    now exists nb_mean, net, raw.
Qed.

(** *** Rounding to float32 near zero *)

Section Float32Lemmas.
Local Open Scope R_scope.





















End Float32Lemmas.


(** C5, as the code has it.  With more than one draw per cell on a model
    with a full covariance, [inference] raises [AssertionError] once the
    two encoder passes have returned (they have produced the first latent
    and library draws) and before any call of [sample] or of the decoder:
    the world at the failure is the one the two passes left.  With one draw
    per cell [inference] returns, whatever the covariance structure.  Both
    hold for [VAE.inference] and [LogNormalPoissonVAE.inference]. *)
Theorem inference_multi_sample_full_cov :
  (forall (self : VAE) G B x batch_index y n_samples w,
     encoder_ok (z_encoder self) G (n_latent self) (z_full_cov self) ->
     encoder_ok (l_encoder self) G 1 false ->
     shape x = [B; G] -> z_full_cov self = true -> (1 < n_samples)%Z ->
     exists rz st1 rl st2,
       let x_ := pre_transform (log_variational self) x in
       enc_forward (z_encoder self) x_ [y] (w_store w) = (Ok rz, st1)
       /\ enc_forward (l_encoder self) x_ [] st1 = (Ok rl, st2)
       /\ inference self x batch_index y n_samples w
          = (Raise AssertionError,
             {| w_store := st2;
                w_trace := w_trace w ++ [ZEncoderForward; LEncoderForward] |}))
  /\
  (forall (self : VAE) G B x batch_index y w,
     VAE_wf self G -> package_ok G -> shape x = [B; G] ->
     (exists b, batch_index = Some b /\ shape b = [B; 1]) ->
     labels_ok self B y ->
     exists o w', inference self x batch_index y 1 w = (Ok o, w'))
  /\
  (forall (self : LogNormalPoissonVAE) G B x batch_index y n_samples w,
     encoder_ok (lnp_z_encoder self) G (lnp_n_latent self)
                (lnp_z_full_cov self || lnp_z_autoregressive self) ->
     encoder_ok (lnp_l_encoder self) G 1 false ->
     shape x = [B; G] -> lnp_z_full_cov self = true -> (1 < n_samples)%Z ->
     exists rz st1 rl st2,
       let x_ := pre_transform (lnp_log_variational self) x in
       enc_forward (lnp_z_encoder self) x_ [y] (w_store w) = (Ok rz, st1)
       /\ enc_forward (lnp_l_encoder self) x_ [] st1 = (Ok rl, st2)
       /\ LogNormalPoissonVAE_inference self x batch_index y n_samples w
          = (Raise AssertionError,
             {| w_store := st2;
                w_trace := w_trace w ++ [ZEncoderForward; LEncoderForward] |}))
  /\
  (forall (self : LogNormalPoissonVAE) G B x batch_index y w,
     LogNormalPoissonVAE_wf self G -> shape x = [B; G] ->
     (exists b, batch_index = Some b /\ shape b = [B; 1]) ->
     exists o w',
       LogNormalPoissonVAE_inference self x batch_index y 1 w = (Ok o, w')).
Proof.
  repeat split.
  - intros self G B x bi y n w Hz Hl Hx Hfull Hn.
    assert (Hx' : shape (pre_transform (log_variational self) x) = [B; G])
      by now rewrite pre_transform_shape.
    destruct (encode_multi_full _ _ _ _ y n w G _ B Hz Hl Hx' Hn)
      as (rz & st1 & rl & st2 & Ez & El & He).
    exists rz, st1, rl, st2. cbn zeta. split; [exact Ez|]. split; [exact El|].
    unfold inference. cbn zeta. rewrite Hfull.
    now rewrite (bind_raise _ _ _ _ _ He).
  - intros self G B x bi y w Hwf Hpk Hx Hbi Hy.
    destruct (inference_single self G B x bi y 1 w Hwf Hpk Hx Hbi Hy
                (Z.le_refl 1)) as (o & st & H & _).
    eexists _, _. exact H.
  - intros self G B x bi y n w Hz Hl Hx Hfull Hn.
    assert (Hx' : shape (pre_transform (lnp_log_variational self) x) = [B; G])
      by now rewrite pre_transform_shape.
    destruct (encode_multi_full _ _ _ _ y n w G _ B Hz Hl Hx' Hn)
      as (rz & st1 & rl & st2 & Ez & El & He).
    exists rz, st1, rl, st2. cbn zeta. split; [exact Ez|]. split; [exact El|].
    unfold LogNormalPoissonVAE_inference. cbn zeta. rewrite Hfull.
    now rewrite (bind_raise _ _ _ _ _ He).
  - intros self G B x bi y w Hwf Hx Hbi.
    destruct (LogNormalPoissonVAE_inference_single self G B x bi y 1 w Hwf Hx
                Hbi (Z.le_refl 1)) as (o & st & H & _).
    eexists _, _. exact H.
Qed.

(** C6.  On the Poisson variant each of [get_sample_scale],
    [get_sample_rate], [get_log_ratio] and [scale_from_z] raises
    [NotImplementedError] for every input, and leaves the generator, the
    buffers and the record of sub-network calls as they were. *)
Theorem LogNormalPoissonVAE_not_implemented :
  forall (self : LogNormalPoissonVAE) x batch_index y n_samples fixed_batch w,
    LogNormalPoissonVAE_get_sample_scale self x batch_index y n_samples w
    = (Raise NotImplementedError, w)
    /\ LogNormalPoissonVAE_get_sample_rate self x batch_index y n_samples w
       = (Raise NotImplementedError, w)
    /\ LogNormalPoissonVAE_get_log_ratio self x batch_index y n_samples w
       = (Raise NotImplementedError, w)
    /\ LogNormalPoissonVAE_scale_from_z self x fixed_batch w
       = (Raise NotImplementedError, w).
Proof. intros. repeat split. Qed.

(** ** [ratio_loss] *)

Ltac step_with H :=
  let t := fresh "t" in
  let E := fresh "E" in
  let S := fresh "S" in
  destruct H as (t & E & S); rewrite E; cbn [rbind].

(** The five log terms under a diagonal covariance: one value per cell
    each. *)
Lemma ratio_terms_diagonal self G B x lm lv o :
  distrib_ok (z_encoder self) false -> z_full_cov self = false ->
  package_ok G -> In (reconstruction_loss self) ["zinb"; "nb"] ->
  shape x = [B; G] -> shape lm = [B; 1] -> shape lv = [B; 1] ->
  inference_shapes B G (n_latent self) false o ->
  exists log_px_zl log_pl log_pz log_qz_x log_ql_x,
    ratio_terms self x lm lv o
    = Ok (log_px_zl, log_pl, log_pz, log_qz_x, log_ql_x)
    /\ shape log_px_zl = [B] /\ shape log_pl = [B] /\ shape log_pz = [B]
    /\ shape log_qz_x = [B] /\ shape log_ql_x = [B].
Proof.
  intros Hd Hfull Hpk Hloss Hx Hlm Hlv Ho.
  pose proof (sh_encoded Ho) as (Hqm & Hqv & Hz & Hqlm & Hqlv & Hlib).
  unfold ratio_terms, get_prior_params. rewrite Hfull.
  step_with (reconstruction_loss_shape self G B _ _ x o Hpk Hloss Hx Ho).
  destruct (library_log_prob_shape lm lv (o_library o) B Hlm Hlv Hlib)
    as (d1 & lp1 & -> & Hlp1 & Hs1).
  cbn [rbind]. rewrite Hlp1. cbn [rbind]. step_with Hs1.
  destruct (latent_log_prob_diag (z_encoder self) (zeros [n_latent self])
              (ones [n_latent self]) (o_z o) B (n_latent self) []
              Hd eq_refl eq_refl Hz (or_introl eq_refl))
    as (d2 & lp2 & -> & Hlp2 & Hs2).
  cbn [rbind]. rewrite Hlp2. cbn [rbind]. step_with Hs2.
  destruct (latent_log_prob_diag (z_encoder self) (o_qz_m o) (o_qz_v o)
              (o_z o) B (n_latent self) [B]
              Hd Hqm Hqv Hz (or_intror eq_refl))
    as (d3 & lp3 & -> & Hlp3 & Hs3).
  cbn [rbind]. rewrite Hlp3. cbn [rbind]. step_with Hs3.
  unfold dim.
  repeat match goal with H : shape ?t = [B] |- context [length (shape ?t)] =>
    rewrite H end.
  cbn [length Nat.eqb andb rbind].
  destruct (library_log_prob_shape (o_ql_m o) (o_ql_v o) (o_library o) B
              Hqlm Hqlv Hlib) as (d4 & lp4 & -> & Hlp4 & Hs4).
  cbn [rbind]. rewrite Hlp4. cbn [rbind]. step_with Hs4.
  eexists _, _, _, _, _. split; [reflexivity|].
  unfold tneg. rewrite tmap_shape. auto.
Qed.

(** The five log terms under a full covariance: the two latent terms are
    single numbers. *)
Lemma ratio_terms_full self G B x lm lv o :
  distrib_ok (z_encoder self) true -> z_full_cov self = true ->
  package_ok G -> In (reconstruction_loss self) ["zinb"; "nb"] ->
  shape x = [B; G] -> shape lm = [B; 1] -> shape lv = [B; 1] ->
  inference_shapes B G (n_latent self) true o ->
  exists log_px_zl log_pl log_pz log_qz_x log_ql_x,
    ratio_terms self x lm lv o
    = Ok (log_px_zl, log_pl, log_pz, log_qz_x, log_ql_x)
    /\ shape log_px_zl = [B] /\ shape log_pl = [B] /\ shape log_pz = []
    /\ shape log_qz_x = [] /\ shape log_ql_x = [B].
Proof.
  intros Hd Hfull Hpk Hloss Hx Hlm Hlv Ho.
  pose proof (sh_encoded Ho) as (Hqm & Hqv & Hz & Hqlm & Hqlv & Hlib).
  unfold ratio_terms, get_prior_params. rewrite Hfull.
  step_with (reconstruction_loss_shape self G B _ _ x o Hpk Hloss Hx Ho).
  destruct (library_log_prob_shape lm lv (o_library o) B Hlm Hlv Hlib)
    as (d1 & lp1 & -> & Hlp1 & Hs1).
  cbn [rbind]. rewrite Hlp1. cbn [rbind]. step_with Hs1.
  destruct (latent_log_prob_full (z_encoder self) (zeros [n_latent self])
              (eye (n_latent self)) (o_z o) B (n_latent self) []
              Hd eq_refl eq_refl Hz (or_introl eq_refl))
    as (d2 & lp2 & -> & Hlp2 & Hs2).
  cbn [rbind]. rewrite Hlp2. cbn [rbind]. step_with Hs2.
  destruct (latent_log_prob_full (z_encoder self) (o_qz_m o) (o_qz_v o)
              (o_z o) B (n_latent self) [B]
              Hd Hqm Hqv Hz (or_intror eq_refl))
    as (d3 & lp3 & -> & Hlp3 & Hs3).
  cbn [rbind]. rewrite Hlp3. cbn [rbind]. step_with Hs3.
  unfold dim.
  repeat match goal with H : shape ?t = [] |- context [length (shape ?t)] =>
    rewrite H end.
  cbn [length Nat.eqb andb rbind].
  destruct (library_log_prob_shape (o_ql_m o) (o_ql_v o) (o_library o) B
              Hqlm Hqlv Hlib) as (d4 & lp4 & -> & Hlp4 & Hs4).
  cbn [rbind]. rewrite Hlp4. cbn [rbind]. step_with Hs4.
  eexists _, _, _, _, _. split; [reflexivity|].
  unfold tneg. rewrite tmap_shape. auto.
Qed.

Lemma bind_assert_true {B} (k : unit -> M B) w : bind (assert true) k w = k tt w.
Proof. reflexivity. Qed.

Lemma bind_assert_false {B} (k : unit -> M B) w :
  bind (assert false) k w = (Raise AssertionError, w).
Proof. reflexivity. Qed.

(** C7, on a model with a full covariance.  The latent log-densities
    already hold one value per cell; the sum over their last axis leaves a
    single number each, the test on two axes does not apply, and the
    assertion on equal shapes fails: [ratio_loss] raises [AssertionError]
    on every well-formed batch. *)
Theorem ratio_loss_full_cov_assertion :
  forall (self : VAE) G B x local_l_mean local_l_var batch_index y w,
    VAE_wf self G -> z_full_cov self = true -> package_ok G ->
    In (reconstruction_loss self) ["zinb"; "nb"] ->
    inputs_ok B G x local_l_mean local_l_var batch_index ->
    labels_ok self B y ->
    exists o w' log_px_zl log_pl log_pz log_qz_x log_ql_x,
      inference self x batch_index y 1 w = (Ok o, w')
      /\ ratio_terms self x local_l_mean local_l_var o
         = Ok (log_px_zl, log_pl, log_pz, log_qz_x, log_ql_x)
      /\ shape log_px_zl = [B] /\ shape log_pl = [B] /\ shape log_pz = []
      /\ shape log_qz_x = [] /\ shape log_ql_x = [B]
      /\ ratio_loss self x local_l_mean local_l_var batch_index y w
         = (Raise AssertionError, w').
Proof.
  intros self G B x lm lv bi y w Hwf Hfull Hpk Hloss [Hx Hlm Hlv Hbi] Hy.
  destruct (inference_single self G B x bi y 1 w Hwf Hpk Hx Hbi Hy
              (Z.le_refl 1)) as (o & st & Hinf & Ho).
  pose proof (wf_z_distrib Hwf) as Hd. rewrite Hfull in Hd, Ho.
  destruct (ratio_terms_full self G B x lm lv o Hd Hfull Hpk Hloss Hx Hlm Hlv Ho)
    as (a & b & c & d & e & Ht & Ha & Hb & Hc & Hd' & He).
  eexists o, _, a, b, c, d, e.
  split; [exact Hinf|]. repeat (split; [assumption|]).
  unfold ratio_loss. rewrite (bind_ok _ _ _ _ _ Hinf). run_lift Ht.
  unfold same_shapes. rewrite Ha, Hb, Hc.
  rewrite shape_eqb_refl. cbn [shape_eqb andb].
  now rewrite bind_assert_false.
Qed.

(** The part of C7 that holds: on a model with a diagonal covariance the
    five log terms all have one value per cell, the assertion passes, and
    [ratio_loss] returns a single number. *)
Theorem ratio_loss_diagonal_shapes :
  forall (self : VAE) G B x local_l_mean local_l_var batch_index y w,
    VAE_wf self G -> z_full_cov self = false -> package_ok G ->
    In (reconstruction_loss self) ["zinb"; "nb"] ->
    inputs_ok B G x local_l_mean local_l_var batch_index ->
    labels_ok self B y ->
    exists o w' log_px_zl log_pl log_pz log_qz_x log_ql_x neg_elbo,
      inference self x batch_index y 1 w = (Ok o, w')
      /\ ratio_terms self x local_l_mean local_l_var o
         = Ok (log_px_zl, log_pl, log_pz, log_qz_x, log_ql_x)
      /\ shape log_px_zl = [B] /\ shape log_pl = [B] /\ shape log_pz = [B]
      /\ shape log_qz_x = [B] /\ shape log_ql_x = [B]
      /\ same_shapes (log_px_zl, log_pl, log_pz, log_qz_x, log_ql_x) = true
      /\ ratio_loss self x local_l_mean local_l_var batch_index y w
         = (Ok neg_elbo, w')
      /\ shape neg_elbo = [].
Proof.
  intros self G B x lm lv bi y w Hwf Hfull Hpk Hloss [Hx Hlm Hlv Hbi] Hy.
  destruct (inference_single self G B x bi y 1 w Hwf Hpk Hx Hbi Hy
              (Z.le_refl 1)) as (o & st & Hinf & Ho).
  pose proof (wf_z_distrib Hwf) as Hd. rewrite Hfull in Hd, Ho.
  destruct (ratio_terms_diagonal self G B x lm lv o Hd Hfull Hpk Hloss Hx Hlm
              Hlv Ho) as (a & b & c & d & e & Ht & Ha & Hb & Hc & Hd' & He).
  assert (Hsame : same_shapes (a, b, c, d, e) = true).
  { unfold same_shapes. rewrite Ha, Hb, Hc, Hd', He.
    now rewrite shape_eqb_refl. }
  destruct (tbinop_same Rplus a c [B] Ha Hc) as (s1 & H1 & Hs1).
  destruct (tbinop_same Rplus s1 b [B] Hs1 Hb) as (s2 & H2 & Hs2).
  destruct (tbinop_same Rminus s2 d [B] Hs2 Hd') as (s3 & H3 & Hs3).
  destruct (tbinop_same Rminus s3 e [B] Hs3 He) as (s4 & H4 & Hs4).
  destruct (tmean_vector s4 B Hs4) as (m & Hm & Hsm).
  eexists o, _, a, b, c, d, e, (tneg m).
  split; [exact Hinf|]. repeat (split; [assumption|]).
  split; [| exact Hsm].
  unfold ratio_loss. rewrite (bind_ok _ _ _ _ _ Hinf). run_lift Ht.
  rewrite Hsame, bind_assert_true. unfold lift, tadd, tsub.
  rewrite H1; cbn [rbind]. rewrite H2; cbn [rbind]. rewrite H3; cbn [rbind].
  rewrite H4; cbn [rbind]. now rewrite Hm.
Qed.

(** ** [get_loadings] *)

Lemma existsb_eqb_In n seen : existsb (Nat.eqb n) seen = true <-> In n seen.
Proof.
  rewrite existsb_exists. split.
  - intros (m & Hm & E). apply Nat.eqb_eq in E. now subst.
  - intros H. exists n. split; [exact H | apply Nat.eqb_refl].
Qed.

Lemma first_occurrences_In seen l p :
  In p (first_occurrences seen l) -> In p l /\ ~ In (p_id p) seen.
Proof.
  revert seen. induction l as [|a l IH]; intros seen; cbn; [tauto|].
  destruct (existsb (Nat.eqb (p_id a)) seen) eqn:E.
  - intros H. destruct (IH _ H). tauto.
  - intros [<- | H].
    + split; [now left|]. intros Hin. apply existsb_eqb_In in Hin. congruence.
    + destruct (IH _ H) as (Hl & Hs). split; [now right|].
      intros Hin. apply Hs. now right.
Qed.

Lemma first_occurrences_complete seen l p :
  In p l -> ~ In (p_id p) seen ->
  exists q, In q (first_occurrences seen l) /\ p_id q = p_id p.
Proof.
  revert seen. induction l as [|a l IH]; intros seen; cbn; [tauto|].
  intros Hin Hseen.
  destruct (existsb (Nat.eqb (p_id a)) seen) eqn:E.
  - apply existsb_eqb_In in E. destruct Hin as [-> | Hin]; [tauto|].
    now apply IH.
  - destruct (Nat.eq_dec (p_id a) (p_id p)) as [Eid | Nid].
    + exists a. split; [now left | exact Eid].
    + destruct Hin as [-> | Hin]; [tauto|].
      destruct (IH (p_id a :: seen) Hin) as (q & Hq & Hid).
      { intros [H | H]; tauto. }
      exists q. split; [now right | exact Hid].
Qed.

Lemma first_occurrences_NoDup seen l :
  NoDup (map p_id (first_occurrences seen l)).
Proof.
  revert seen. induction l as [|a l IH]; intros seen; cbn; [constructor|].
  destruct (existsb (Nat.eqb (p_id a)) seen); [apply IH|].
  cbn. constructor; [| apply IH].
  intros Hin. apply in_map_iff in Hin as (q & Hid & Hq).
  apply first_occurrences_In in Hq as (_ & Hs). apply Hs. now left.
Qed.

Lemma first_occurrences_length seen l :
  length (first_occurrences seen l) <= length l.
Proof.
  revert seen. induction l as [|a l IH]; intros seen; cbn; [lia|].
  destruct (existsb (Nat.eqb (p_id a)) seen).
  - specialize (IH seen). lia.
  - cbn. specialize (IH (p_id a :: seen)). lia.
Qed.

Lemma registered_unfold own children :
  registered (mkNNModule own children) = own ++ flat_map registered children.
Proof.
  cbn [registered]. f_equal.
Qed.

Lemma NNModule_tree_ind (P : NNModule -> Prop) :
  (forall own children, Forall P children -> P (mkNNModule own children)) ->
  forall m, P m.
Proof.
  intros H. fix IH 1. intros [own children]. apply H.
  revert children. fix IHl 1. intros [|c cs]; constructor.
  - apply IH.
  - apply IHl.
Qed.

Lemma registered_owns m p : In p (registered m) <-> owns m p.
Proof.
  revert p. induction m as [own children IH] using NNModule_tree_ind.
  intros p. rewrite registered_unfold, in_app_iff, in_flat_map. split.
  - intros [H | (c & Hc & H)].
    + now apply owns_here.
    + apply owns_below with c; [exact Hc|].
      rewrite Forall_forall in IH. now apply IH.
  - intros H. inversion H as [o cs q Hq | o cs c q Hc Hq]; subst.
    + now left.
    + right. exists c. split; [exact Hc|].
      rewrite Forall_forall in IH. now apply IH.
Qed.

Lemma first_occurrences_prefix a : forall seen b,
  NoDup (map p_id a) -> (forall p, In p a -> ~ In (p_id p) seen) ->
  exists rest, first_occurrences seen (a ++ b) = a ++ rest.
Proof.
  induction a as [|p a IH]; intros seen b Hnd Hseen; cbn.
  - now eexists.
  - inversion Hnd as [|i l Hni Hnd']; subst.
    destruct (existsb (Nat.eqb (p_id p)) seen) eqn:E.
    + apply existsb_eqb_In in E. exfalso. apply (Hseen p); [now left | exact E].
    + destruct (IH (p_id p :: seen) b Hnd') as (rest & Hrest).
      * intros q Hq [Hid | Hin].
        -- apply Hni. rewrite Hid. now apply in_map.
        -- apply (Hseen q); [now right | exact Hin].
      * exists rest. now rewrite Hrest.
Qed.

(** C8.  [get_loadings] returns the parameters of the linear decoder's
    [factor_regressor] as a finite list.  Every element is a parameter held
    by the regressor or by one of its sub-modules; every parameter held by
    the regressor or by one of its sub-modules is listed, each parameter
    object once; and the weights the regressor holds itself come first, in
    the order they were registered.  On a model built by [LDVAE.__init__]
    the regressor belongs to the decoder the model decodes with. *)
Theorem get_loadings_enumerates :
  (forall (self : LDVAE),
     let loadings := get_loadings self in
     let regressor := factor_regressor (ld_decoder self) in
     (forall p, In p loadings -> owns regressor p)
     /\ (forall p, owns regressor p ->
         exists q, In q loadings /\ p_id q = p_id p)
     /\ NoDup (map p_id loadings)
     /\ (forall own children,
           regressor = mkNNModule own children -> NoDup (map p_id own) ->
           exists rest, loadings = own ++ rest))
  /\
  (forall n_input n_batch n_labels n_hidden n_latent n_layers dropout_rate
          dispersion log_variational reconstruction_loss st,
     let self := fst (LDVAE__init__ n_input n_batch n_labels n_hidden n_latent
                        n_layers dropout_rate dispersion log_variational
                        reconstruction_loss st) in
     decoder (ld_base self) = lin_decoder (ld_decoder self)
     /\ exists st1,
          ld_decoder self
          = fst (LinearDecoderSCVI__init__ n_latent n_input [n_batch]
                   n_layers n_hidden st1)).
Proof.
  split.
  - intros self. cbn zeta. unfold get_loadings, parameters.
    split; [| split; [| split]].
    + intros p H. apply first_occurrences_In in H as (H & _).
      now apply registered_owns.
    + intros p H. apply registered_owns in H.
      apply first_occurrences_complete; [exact H | intros []].
    + apply first_occurrences_NoDup.
    + intros own children -> Hnd. rewrite registered_unfold.
      apply first_occurrences_prefix; [exact Hnd | intros p _ []].
  - intros G nb nl nh L nlayers dr disp lv loss st self.
    subst self. unfold LDVAE__init__.
    match goal with
    | |- context [let (_, _) := ?p in _] => destruct p as [base st1]
    end.
    destruct (LinearDecoderSCVI__init__ L G [nb] nlayers nh st1)
      as [dec st2] eqn:E.
    cbn. split; [reflexivity|]. exists st1. now rewrite E.
Qed.

(** ** Determinism of the Poisson [forward] *)











(** C10.  [_reconstruction_loss] is the negated zero-inflated negative
    binomial log-likelihood for 'zinb' and the negated negative binomial
    log-likelihood for 'nb'; for any other name it raises
    [UnboundLocalError], and so do [forward] and [ratio_loss] on a
    well-formed batch.  With one of the two names and a well-formed batch
    it returns a tensor. *)
Theorem reconstruction_loss_defined_for_zinb_and_nb :
  (forall (self : VAE) x px_rate px_r px_dropout,
     reconstruction_loss self = "zinb" ->
     _reconstruction_loss self x px_rate px_r px_dropout
     = rbind (log_zinb_positive x px_rate px_r px_dropout)
             (fun l => Ok (tneg l)))
  /\
  (forall (self : VAE) x px_rate px_r px_dropout,
     reconstruction_loss self = "nb" ->
     _reconstruction_loss self x px_rate px_r px_dropout
     = rbind (log_nb_positive x px_rate px_r) (fun l => Ok (tneg l)))
  /\
  (forall (self : VAE) x px_rate px_r px_dropout,
     ~ In (reconstruction_loss self) ["zinb"; "nb"] ->
     _reconstruction_loss self x px_rate px_r px_dropout
     = Raise UnboundLocalError)
  /\
  (forall (self : VAE) G B x local_l_mean local_l_var batch_index y w,
     VAE_wf self G -> package_ok G ->
     ~ In (reconstruction_loss self) ["zinb"; "nb"] ->
     inputs_ok B G x local_l_mean local_l_var batch_index ->
     labels_ok self B y ->
     exists w',
       forward self x local_l_mean local_l_var batch_index y w
       = (Raise UnboundLocalError, w')
       /\ ratio_loss self x local_l_mean local_l_var batch_index y w
          = (Raise UnboundLocalError, w'))
  /\
  (forall (self : VAE) G B L full_cov x o,
     package_ok G -> In (reconstruction_loss self) ["zinb"; "nb"] ->
     shape x = [B; G] -> inference_shapes B G L full_cov o ->
     exists t,
       _reconstruction_loss self x (o_px_rate o) (o_px_r o) (o_px_dropout o)
       = Ok t /\ shape t = [B]).
Proof.
  split; [| split; [| split; [| split]]].
  - intros self x px_rate px_r px_dropout E.
    unfold _reconstruction_loss. now rewrite E.
  - intros self x px_rate px_r px_dropout E.
    unfold _reconstruction_loss. now rewrite E.
  - intros. now apply reconstruction_loss_unbound.
  - intros self G B x lm lv bi y w Hwf Hpk Hloss [Hx Hlm Hlv Hbi] Hy.
    destruct (inference_single self G B x bi y 1 w Hwf Hpk Hx Hbi Hy
                (Z.le_refl 1)) as (o & st & Hinf & Ho).
    pose proof (sh_encoded Ho) as (Hqm & Hqv & Hz & Hqlm & Hqlv & Hlib).
    destruct (kl_library_shape (o_ql_m o) (o_ql_v o) lm lv B Hqlm Hqlv Hlm Hlv)
      as (kll & Hkll & _).
    destruct (kl_latent_shape (z_encoder self) (z_full_cov self)
                (o_qz_m o) (o_qz_v o) B (n_latent self)
                (wf_z_distrib Hwf) Hqm Hqv) as (klz & Hklz & _).
    pose proof (reconstruction_loss_unbound self x (o_px_rate o) (o_px_r o)
                  (o_px_dropout o) Hloss) as Hrl.
    eexists. split.
    + unfold forward. rewrite (bind_ok _ _ _ _ _ Hinf).
      cbn [get_prior_params]. run_lift Hklz. run_lift Hkll.
      now rewrite (bind_lift_raise _ _ _ _ Hrl).
    + unfold ratio_loss. rewrite (bind_ok _ _ _ _ _ Hinf).
      assert (Ht : ratio_terms self x lm lv o = Raise UnboundLocalError).
      { unfold ratio_terms. cbn [get_prior_params]. now rewrite Hrl. }
      now rewrite (bind_lift_raise _ _ _ _ Ht).
  - intros self G B L fc x o Hpk Hloss Hx Ho.
    exact (reconstruction_loss_shape self G B L fc x o Hpk Hloss Hx Ho).
Qed.

End Claims.

(** * Further properties *)

(** ** Indices *)

Section IndexLemmas.

Local Open Scope list_scope.

Lemma Rsum_upto_ext n f g :
  (forall i, i < n -> f i = g i) -> Rsum_upto n f = Rsum_upto n g.
Proof.
  induction n as [|n IH]; intros H; cbn; [reflexivity|].
  rewrite IH by (intros i Hi; apply H; lia). now rewrite (H n) by lia.
Qed.

Lemma ravel_lt s idx : valid_index s idx -> ravel s idx < prod s.
Proof.
  unfold valid_index. intros H. induction H as [|i d idx s Hi _ IH]; cbn.
  - lia.
  - nia.
Qed.

(** Reading a position back gives the index it came from. *)
Lemma unravel_ravel s idx : valid_index s idx -> unravel s (ravel s idx) = idx.
Proof.
  unfold valid_index. intros H. induction H as [|i d idx s Hi Hrest IH]; cbn.
  - reflexivity.
  - pose proof (ravel_lt s idx Hrest) as Hr.
    assert (Hq : (i * prod s + ravel s idx) / prod s = i).
    { symmetry. apply Nat.div_unique with (r := ravel s idx); [exact Hr | lia]. }
    assert (Hm : (i * prod s + ravel s idx) mod prod s = ravel s idx).
    { symmetry. apply Nat.mod_unique with (q := i); [exact Hr | lia]. }
    now rewrite Hq, Hm, IH.
Qed.

Lemma bidx_pair a b i j : i < a -> j < b -> bidx [a; b] [i; j] = [i; j].
Proof.
  intros Hi Hj. cbn.
  destruct (Nat.eqb_spec a 1), (Nat.eqb_spec b 1); repeat f_equal; lia.
Qed.

Lemma bidx_last b i j : j < b -> bidx [b] [i; j] = [j].
Proof.
  intros Hj. cbn. destruct (Nat.eqb_spec b 1); repeat f_equal; lia.
Qed.

Lemma bidx_single b i : i < b -> bidx [b] [i] = [i].
Proof.
  intros Hi. cbn. destruct (Nat.eqb_spec b 1); repeat f_equal; lia.
Qed.

Lemma broadcast_shapes_column B G : broadcast_shapes [B; G] [B; 1] = Some [B; G].
Proof.
  unfold broadcast_shapes. cbn. rewrite Nat.eqb_refl.
  destruct (Nat.eqb_spec G 1) as [-> | _]; [reflexivity|].
  cbn. reflexivity.
Qed.

End IndexLemmas.

Section FurtherProperties.
Context {RT : Runtime} {PK : Package}.

Local Open Scope string_scope.
Local Open Scope list_scope.

(** ** [get_list_params] *)


(** ** The Poisson reconstruction loss *)

Lemma poisson_reconstruction_pointwise x rate B G t :
  shape x = [B; G] -> shape rate = [B; G] ->
  LogNormalPoissonVAE_reconstruction_loss x rate = Ok t ->
  shape t = [B]
  /\ forall i, i < B ->
       at_ t [i]
       = Rsum_upto G (fun g =>
           - (at_ x [i; g] * ln (at_ rate [i; g]) - at_ rate [i; g]
              - lgamma (at_ x [i; g] + 1)))%R.
Proof.
  intros Hx Hr Ht.
  unfold LogNormalPoissonVAE_reconstruction_loss in Ht.
  cbn [log_prob] in Ht. unfold tbinop in Ht.
  rewrite Hx, Hr, broadcast_shapes_refl in Ht. cbn [rbind] in Ht.
  unfold tsum, dim in Ht. cbn -[bidx] in Ht. injection Ht as <-.
  split; [reflexivity|]. intros i Hi. cbn -[bidx].
  apply Rsum_upto_ext. intros g Hg.
  now rewrite (bidx_pair B G i g Hi Hg).
Qed.

(** X12.  [LogNormalPoissonVAE._reconstruction_loss] asserts that the
    log-density of the counts under the rate has exactly two axes.  When
    counts and rate broadcast to two axes it returns one value per row;
    when they broadcast to any other number of axes (a rate with one draw
    axis in front, say) it raises [AssertionError].  For counts and rates of
    shape [(batch_size, n_input)] the value of a cell is the sum over the
    genes of the negated Poisson log-density
    [x * log(rate) - rate - lgamma(x + 1)]. *)
Theorem LogNormalPoissonVAE_reconstruction_loss_axes :
  (forall x rate s,
     broadcast_shapes (shape rate) (shape x) = Some s ->
     (length s = 2 ->
        returns_shape (LogNormalPoissonVAE_reconstruction_loss x rate)
                      (removelast s))
     /\ (length s <> 2 ->
           LogNormalPoissonVAE_reconstruction_loss x rate
           = Raise AssertionError))
  /\
  (forall x rate B G t,
     shape x = [B; G] -> shape rate = [B; G] ->
     LogNormalPoissonVAE_reconstruction_loss x rate = Ok t ->
     shape t = [B]
     /\ forall i, i < B ->
          at_ t [i]
          = Rsum_upto G (fun g =>
              - (at_ x [i; g] * ln (at_ rate [i; g]) - at_ rate [i; g]
                 - lgamma (at_ x [i; g] + 1)))%R).
Proof.
  split.
  - intros x rate s Hs. unfold LogNormalPoissonVAE_reconstruction_loss.
    cbn [log_prob]. unfold tbinop. rewrite Hs. cbn [rbind].
    unfold dim, tneg, tmap. cbn [shape]. split.
    + intros H2. rewrite H2. cbn [Nat.eqb].
      destruct s as [|a [|b [|c s']]]; try discriminate H2.
      unfold tsum, dim. cbn. now apply returns_shape_ok.
    + intros H2. now destruct (Nat.eqb_spec (length s) 2).
  - intros x rate B G t. apply poisson_reconstruction_pointwise.
Qed.

(** ** Several draws per cell *)




(** ** The dispersion network of [MeanVarianceVAE] *)

Lemma broadcast_shapes_one_r N : broadcast_shapes [N; 1] [1] = Some [N; 1].
Proof. exact (broadcast_shapes_suffix [N] [1]). Qed.

Lemma broadcast_shapes_row N H : broadcast_shapes [N; H] [H] = Some [N; H].
Proof. exact (broadcast_shapes_suffix [N] [H]). Qed.

(** [px_r_net] on a column: row by row, the network on a single number. *)
Lemma px_r_net_column self H t N :
  mv_weights_ok self H -> shape t = [N; 1] ->
  exists net,
    px_r_net self t = Ok net /\ shape net = [N; 1]
    /\ forall k, k < N ->
         at_ net [k; 0] = px_r_net_scalar self H (at_ t [k; 0]).
Proof.
  intros (Hw1 & Hb1 & Hw2 & Hb2) Ht.
  unfold px_r_net, nn_linear, F_linear. rewrite Ht, Hw1. cbn [rev app Nat.eqb].
  cbn [rbind]. unfold tadd, tbinop. cbn [shape]. rewrite Hb1.
  rewrite (broadcast_shapes_row N H). cbn [rbind app].
  unfold relu, tmap. cbn [shape rev app]. rewrite Hw2, Nat.eqb_refl.
  cbn [rbind shape app]. rewrite Hb2, broadcast_shapes_one_r.
  eexists. split; [reflexivity|]. split; [reflexivity|].
  intros k Hk. cbn [at_]. rewrite (bidx_pair N 1 k 0 Hk Nat.lt_0_1).
  unfold px_r_net_scalar. f_equal.
  apply Rsum_upto_ext. intros h Hh. cbn [removelast app last].
  rewrite (bidx_pair N H k h Hk Hh), (bidx_last H k h Hh).
  cbn [removelast app last Rsum_upto]. now rewrite Rplus_0_l.
Qed.

Lemma unravel_column N k : unravel [N; 1] k = [k; 0].
Proof.
  unfold unravel, prod. change (1 * 1) with 1.
  now rewrite !Nat.div_1_r, Nat.mod_1_r.
Qed.

(** X3.  In [MeanVarianceVAE.inference] the reshape of [px_scale * library]
    to a column and of the network's output back leaves every entry in
    place: the dispersion of a gene in a cell is the exponential of
    [px_r_net] applied to the single number [px_scale * library] of that
    gene and cell, and the dispersion has the shape of [px_scale]. *)
Theorem MeanVarianceVAE_dispersion_pointwise :
  forall (self : MeanVarianceVAE) H x batch_index y n_samples w o w',
    mv_weights_ok self H ->
    MeanVarianceVAE_inference self x batch_index y n_samples w = (Ok o, w') ->
    exists nb_mean,
      tmul (o_px_scale o) (o_library o) = Ok nb_mean
      /\ shape nb_mean = shape (o_px_scale o)
      /\ shape (o_px_r o) = shape (o_px_scale o)
      /\ forall idx, valid_index (shape nb_mean) idx ->
           at_ (o_px_r o) idx
           = exp (px_r_net_scalar self H (at_ nb_mean idx)).
Proof.
  intros self H x bi y n w o w' Hw Hinf.
  apply MeanVarianceVAE_inference_inv in Hinf
    as (nb_mean & net & raw & Hmul & Hnet & Hview & Hshape & Hexp).
  destruct (px_r_net_column self H (view_column nb_mean) (numel nb_mean) Hw
              eq_refl) as (net' & Hnet' & Hsn & Hat).
  rewrite Hnet in Hnet'. injection Hnet' as <-.
  unfold view in Hview.
  destruct (prod (shape nb_mean) =? numel net)%nat; [| discriminate].
  injection Hview as <-. cbn [shape] in Hshape.
  exists nb_mean. split; [exact Hmul|]. split; [exact Hshape|].
  rewrite Hexp. split; [exact Hshape|].
  intros idx Hidx. cbn [texp tmap at_]. f_equal.
  rewrite Hsn, unravel_column.
  rewrite Hat by (apply ravel_lt; exact Hidx).
  cbn [view_column at_ hd]. now rewrite unravel_ravel.
Qed.

Lemma MeanVarianceVAE_inference_single self G B H x bi y n w :
  VAE_wf (mv_base self) G -> mv_weights_ok self H -> shape x = [B; G] ->
  (exists b, bi = Some b /\ shape b = [B; 1]) -> (n <= 1)%Z ->
  exists o st,
    MeanVarianceVAE_inference self x bi y n w
    = (Ok o, {| w_store := st;
                w_trace := w_trace w ++ [ZEncoderForward; LEncoderForward;
                                         DecoderForward] |})
    /\ shape (o_px_scale o) = [B; G] /\ shape (o_px_r o) = [B; G]
    /\ shape (o_px_rate o) = [B; G] /\ shape (o_px_dropout o) = [B; G]
    /\ encoded_shapes B (n_latent (mv_base self)) (z_full_cov (mv_base self))
         (o_qz_m o, o_qz_v o, o_z o, o_ql_m o, o_ql_v o, o_library o).
Proof.
  intros Hwf Hw Hx (b & -> & Hb) Hn.
  assert (Hx' : shape (pre_transform (log_variational (mv_base self)) x)
                = [B; G]) by now rewrite pre_transform_shape.
  destruct (encode_single _ _ (z_full_cov (mv_base self)) _ _ y n w G _ B
              (wf_z_encoder Hwf) (wf_l_encoder Hwf) Hx' Hn)
    as ([[[[[qz_m qz_v] z] ql_m] ql_v] lib] & st & He & Hsh).
  pose proof Hsh as (Hqm & Hqv & Hz & Hlm & Hlv & Hlib).
  destruct (wf_decoder Hwf (dispersion (mv_base self)) z lib b y st Hz Hlib Hb)
    as (ps & pr & prate & pd & st' & Ed & Hps & Hprate & Hpd & _).
  destruct (tbinop_shape Rmult ps lib [B; G]) as (nb & Hnb & Hsnb).
  { rewrite Hps, Hlib. apply broadcast_shapes_column. }
  destruct (px_r_net_column self H (view_column nb) (numel nb) Hw eq_refl)
    as (net & Hnet & Hsn & _).
  assert (Hview : exists raw, view net (shape nb) = Ok raw
                              /\ shape raw = [B; G]).
  { unfold view, numel. rewrite Hsn.
    assert (E : (prod (shape nb) =? prod [numel nb; 1])%nat = true)
      by (apply Nat.eqb_eq; unfold numel; cbn; lia).
    rewrite E. eexists. split; [reflexivity | exact Hsnb]. }
  destruct Hview as (raw & Hview & Hsraw).
  eexists _, st'. split.
  - unfold MeanVarianceVAE_inference. cbn zeta.
    rewrite (bind_ok _ _ _ _ _ He). cbn beta iota zeta. run_call Ed.
    unfold mv_resolve_px_r.
    assert (Hres : forall w0,
              bind (lift (tmul ps lib))
                (fun nb_mean =>
                 bind (lift (px_r_net self (view_column nb_mean)))
                   (fun px_r =>
                    bind (lift (view px_r (shape nb_mean)))
                      (fun px_r0 =>
                       bind (assert (shape_eqb (shape px_r0) (shape ps)))
                         (fun _ => ret px_r0)))) w0 = (Ok raw, w0)).
    { intros w0. unfold tmul. run_lift Hnb. run_lift Hnet. run_lift Hview.
      rewrite Hsraw, Hps, shape_eqb_refl. reflexivity. }
    rewrite (bind_ok _ _ _ _ _ (Hres _)). unfold ret.
    now rewrite <- app_assoc.
  - cbn. auto 10.
Qed.

Lemma draw_linear_shapes n_in n_out st :
  linear_init_ok ->
  shape (fst (fst (draw_linear n_in n_out st))) = [n_out; n_in]
  /\ shape (snd (fst (draw_linear n_in n_out st))) = [n_out].
Proof.
  intros Hl. unfold draw_linear.
  pose proof (Hl n_in n_out (st_rng st)) as H.
  destruct (linear_init n_in n_out (st_rng st)) as [[wt b] r]. exact H.
Qed.

Lemma MeanVarianceVAE__init___wf G nb nl nh L nlayers dr lv loss fc H st :
  constructors_ok -> linear_init_ok ->
  let self := fst (MeanVarianceVAE__init__ G nb nl nh L nlayers dr lv loss fc
                     H st) in
  VAE_wf (mv_base self) G /\ mv_weights_ok self H
  /\ dispersion (mv_base self) = "gene".
Proof.
  intros Hc Hl. cbn zeta. unfold MeanVarianceVAE__init__.
  pose proof (VAE__init___wf G nb nl nh L nlayers dr "gene" lv loss fc st Hc)
    as Hwf.
  assert (Hd : dispersion
                 (fst (VAE__init__ G nb nl nh L nlayers dr "gene" lv loss fc st))
               = "gene").
  { unfold VAE__init__. cbn [String.eqb Ascii.eqb Bool.eqb].
    repeat match goal with
           | |- context [let (_, _) := ?p in _] => destruct p
           end. reflexivity. }
  destruct (VAE__init__ G nb nl nh L nlayers dr "gene" lv loss fc st)
    as [base st1].
  pose proof (draw_linear_shapes 1 H st1 Hl) as (Hw1 & Hb1).
  destruct (draw_linear 1 H st1) as [[w1 b1] st2].
  pose proof (draw_linear_shapes H 1 st2 Hl) as (Hw2 & Hb2).
  destruct (draw_linear H 1 st2) as [[w2 b2] st3].
  cbn in *. split; [| split].
  - apply Hwf. cbn. auto.
  - repeat split; assumption.
  - exact Hd.
Qed.

(** X4.  On a model built by [MeanVarianceVAE.__init__] the dispersion mode
    is 'gene' whatever the caller wants, and on every well-formed batch with
    one draw per cell [inference] returns: the reshapes succeed and the
    assertion that the dispersion has the shape of [px_scale] never fails.
    The dispersion has one value per cell and gene. *)
Theorem MeanVarianceVAE_inference_returns :
  forall n_input n_batch n_labels n_hidden n_latent n_layers dropout_rate
         log_variational reconstruction_loss full_cov n_r_hidden st
         B x batch_index y n_samples w,
    constructors_ok -> linear_init_ok ->
    shape x = [B; n_input] ->
    (exists b, batch_index = Some b /\ shape b = [B; 1]) ->
    (n_samples <= 1)%Z ->
    let self := fst (MeanVarianceVAE__init__ n_input n_batch n_labels n_hidden
                       n_latent n_layers dropout_rate log_variational
                       reconstruction_loss full_cov n_r_hidden st) in
    dispersion (mv_base self) = "gene"
    /\ exists o w',
         MeanVarianceVAE_inference self x batch_index y n_samples w = (Ok o, w')
         /\ shape (o_px_scale o) = [B; n_input]
         /\ shape (o_px_r o) = [B; n_input].
Proof.
  intros G nb nl nh L nlayers dr lv loss fc H st B x bi y n w Hc Hl Hx Hbi Hn
         self.
  destruct (MeanVarianceVAE__init___wf G nb nl nh L nlayers dr lv loss fc H st
              Hc Hl) as (Hwf & Hw & Hd).
  fold self in Hwf, Hw, Hd. split; [exact Hd|].
  destruct (MeanVarianceVAE_inference_single self G B H x bi y n w Hwf Hw Hx
              Hbi Hn) as (o & st' & Hinf & Hps & Hpr & _).
  eexists o, _. split; [exact Hinf|]. split; [exact Hps | exact Hpr].
Qed.

(** ** The posterior samplers *)


(** ** [get_sample_scale] and [get_sample_rate] *)

(** X15.  On a well-formed batch with one draw per cell [get_sample_scale]
    and [get_sample_rate] return the expression frequencies and the means
    of the count distribution that [inference] computes, both of shape
    [(batch_size, n_input)], after the same three sub-network passes; an
    exception of [inference] (the assertion on several draws with a full
    covariance, for one) is theirs. *)
Theorem get_sample_scale_and_rate :
  (forall (self : VAE) G B x batch_index y n_samples w,
     VAE_wf self G -> package_ok G -> shape x = [B; G] ->
     (exists b, batch_index = Some b /\ shape b = [B; 1]) ->
     labels_ok self B y -> (n_samples <= 1)%Z ->
     exists o w',
       inference self x batch_index y n_samples w = (Ok o, w')
       /\ get_sample_scale self x batch_index y n_samples w
          = (Ok (o_px_scale o), w')
       /\ get_sample_rate self x batch_index y n_samples w
          = (Ok (o_px_rate o), w')
       /\ shape (o_px_scale o) = [B; G] /\ shape (o_px_rate o) = [B; G]
       /\ w_trace w' = w_trace w ++ [ZEncoderForward; LEncoderForward;
                                     DecoderForward])
  /\
  (forall (self : VAE) G B x batch_index y n_samples w,
     encoder_ok (z_encoder self) G (n_latent self) (z_full_cov self) ->
     encoder_ok (l_encoder self) G 1 false ->
     shape x = [B; G] -> z_full_cov self = true -> (1 < n_samples)%Z ->
     exists w',
       get_sample_scale self x batch_index y n_samples w
       = (Raise AssertionError, w')
       /\ get_sample_rate self x batch_index y n_samples w
          = (Raise AssertionError, w')
       /\ w_trace w' = w_trace w ++ [ZEncoderForward; LEncoderForward]).
Proof.
  split.
  - intros self G B x bi y n w Hwf Hpk Hx Hbi Hy Hn.
    destruct (inference_single self G B x bi y n w Hwf Hpk Hx Hbi Hy Hn)
      as (o & st & Hinf & Ho).
    eexists o, _. split; [exact Hinf|].
    unfold get_sample_scale, get_sample_rate.
    rewrite !(bind_ok _ _ _ _ _ Hinf).
    repeat split; try reflexivity; apply Ho.
  - intros self G B x bi y n w Hz Hl Hx Hfull Hn.
    assert (Hx' : shape (pre_transform (log_variational self) x) = [B; G])
      by now rewrite pre_transform_shape.
    destruct (encode_multi_full _ _ _ _ y n w G _ B Hz Hl Hx' Hn)
      as (rz & st1 & rl & st2 & _ & _ & He).
    assert (Hinf : inference self x bi y n w
                   = (Raise AssertionError,
                      {| w_store := st2;
                         w_trace := w_trace w ++ [ZEncoderForward;
                                                  LEncoderForward] |})).
    { unfold inference. cbn zeta. rewrite Hfull.
      now rewrite (bind_raise _ _ _ _ _ He). }
    eexists. unfold get_sample_scale, get_sample_rate.
    rewrite !(bind_raise _ _ _ _ _ Hinf). repeat split.
Qed.

(** ** Dispersion modes outside the three named ones *)

(** X13.  A dispersion mode other than 'gene-label', 'gene-batch' and
    'gene' (the documented 'gene-cell', or any other string) makes
    [inference] use the decoder's dispersion: the dispersion it returns is
    [exp] of what the decoder returned, and neither [self.px_r] nor
    [one_hot] is read.  When the decoder returned no dispersion the call
    raises [TypeError], after the decoder pass. *)
Theorem inference_other_dispersion_modes :
  forall (self : VAE) x batch_index y n_samples w,
    ~ In (dispersion self) ["gene-label"; "gene-batch"; "gene"] ->
    (forall decoded, resolve_px_r self decoded batch_index y = Ok decoded)
    /\ (forall o w',
          inference self x batch_index y n_samples w = (Ok o, w') ->
          exists st pd st' raw,
            dec_forward (decoder self) (dispersion self) (o_z o) (o_library o)
                        [batch_index; y] st
            = (Ok (o_px_scale o, Some raw, o_px_rate o, pd), st')
            /\ o_px_r o = texp raw)
    /\ (forall qz_m qz_v z ql_m ql_v library w1 ps prate pd st',
          encode (z_encoder self) (l_encoder self) (z_full_cov self)
                 (pre_transform (log_variational self) x) y n_samples w
          = (Ok (qz_m, qz_v, z, ql_m, ql_v, library), w1) ->
          dec_forward (decoder self) (dispersion self) z library
                      [batch_index; y] (w_store w1)
          = (Ok (ps, None, prate, pd), st') ->
          inference self x batch_index y n_samples w
          = (Raise TypeError,
             {| w_store := st';
                w_trace := w_trace w1 ++ [DecoderForward] |})).
Proof.
  intros self x bi y n w Hmode.
  assert (Hres : forall decoded, resolve_px_r self decoded bi y = Ok decoded).
  { intros decoded. unfold resolve_px_r.
    destruct (String.eqb_spec (dispersion self) "gene-label") as [E | _].
    { exfalso. apply Hmode. rewrite E. cbn. auto. }
    destruct (String.eqb_spec (dispersion self) "gene-batch") as [E | _].
    { exfalso. apply Hmode. rewrite E. cbn. auto. }
    destruct (String.eqb_spec (dispersion self) "gene") as [E | _].
    { exfalso. apply Hmode. rewrite E. cbn. auto. }
    reflexivity. }
  split; [exact Hres|]. split.
  - intros o w' H.
    apply inference_inv in H
      as (st & ps & pr & pd & st' & raw & Hd & -> & _ & Hr & Hexp).
    rewrite Hres in Hr. injection Hr as ->.
    now exists st, pd, st', raw.
  - intros qz_m qz_v z ql_m ql_v lib w1 ps prate pd st' He Hd.
    unfold inference. cbn zeta. rewrite (bind_ok _ _ _ _ _ He).
    cbn beta iota zeta. run_call Hd. now rewrite Hres.
Qed.

(** ** [scale_from_z] *)

(** X6.  [scale_from_z] encodes the batch without labels and decodes in the
    'gene' mode with the library size of every cell fixed at 4 and every
    cell assigned to [fixed_batch], whatever the dispersion mode of the
    model: on a batch with at least two axes, the second one not empty, it
    returns the decoder's expression frequencies for these inputs, and two
    models that share [log_variational], the z-encoder and the decoder give
    the same result.  On a batch with fewer than two axes, or with an empty
    second axis, it raises [IndexError] once the encoder has run, before
    any decoding. *)
Theorem scale_from_z_fixed_library_and_batch :
  (forall (self : VAE) x fixed_batch w qz_m qz_v z st d0 d1 rest
          px_scale px_r px_rate px_dropout st',
     enc_forward (z_encoder self) (pre_transform (log_variational self) x) []
                 (w_store w) = (Ok (qz_m, qz_v, z), st) ->
     shape x = d0 :: d1 :: rest -> 0 < d1 ->
     dec_forward (decoder self) "gene" z (full (d0 :: 1 :: rest) 4)
                 [Some (full (d0 :: 1 :: rest) fixed_batch)] st
     = (Ok (px_scale, px_r, px_rate, px_dropout), st') ->
     scale_from_z self x fixed_batch w
     = (Ok px_scale,
        {| w_store := st';
           w_trace := w_trace w ++ [ZEncoderForward; DecoderForward] |}))
  /\
  (forall (self : VAE) x fixed_batch w qz_m qz_v z st,
     enc_forward (z_encoder self) (pre_transform (log_variational self) x) []
                 (w_store w) = (Ok (qz_m, qz_v, z), st) ->
     length (shape x) < 2 \/ (exists d0 rest, shape x = d0 :: 0 :: rest) ->
     scale_from_z self x fixed_batch w
     = (Raise IndexError,
        {| w_store := st; w_trace := w_trace w ++ [ZEncoderForward] |}))
  /\
  (forall (self other : VAE) x fixed_batch w,
     log_variational self = log_variational other ->
     z_encoder self = z_encoder other -> decoder self = decoder other ->
     scale_from_z self x fixed_batch w = scale_from_z other x fixed_batch w).
Proof.
  repeat split.
  - intros self x fb w qm qv z st d0 d1 rest ps pr prate pd st' Ez Hx Hd Ed.
    unfold scale_from_z. cbn zeta. run_call Ez.
    unfold first_column_full. rewrite pre_transform_shape, Hx.
    apply Nat.ltb_lt in Hd. rewrite Hd.
    cbn [lift bind]. run_call Ed. unfold ret. now rewrite <- app_assoc.
  - intros self x fb w qm qv z st Ez Hx.
    unfold scale_from_z. cbn zeta. run_call Ez.
    unfold first_column_full. rewrite pre_transform_shape.
    destruct Hx as [Hx | (d0 & rest & ->)]; [| reflexivity].
    destruct (shape x) as [|a [|b s]]; cbn in Hx; try lia; reflexivity.
  - intros self other x fb w H1 H2 H3.
    unfold scale_from_z. now rewrite H1, H2, H3.
Qed.

(** ** The library KL term *)

Lemma kl_library_pointwise ql_m ql_v lm lv B k :
  shape ql_m = [B; 1] -> shape ql_v = [B; 1] ->
  shape lm = [B; 1] -> shape lv = [B; 1] ->
  kl_library ql_m ql_v lm lv = Ok k ->
  forall i, i < B ->
    at_ k [i]
    = (0 + kl_normal_scalar
             (at_ ql_m [i; 0%nat]) (sqrt (at_ ql_v [i; 0%nat]))
             (at_ lm [i; 0%nat]) (sqrt (at_ lv [i; 0%nat])))%R.
Proof.
  intros H1 H2 H3 H4 Hk i Hi.
  unfold kl_library, Normal in Hk.
  unfold tsqrt in Hk. rewrite !tmap_shape, H1, H2, H3, H4 in Hk.
  rewrite broadcast_shapes_refl in Hk. cbn [rbind kl] in Hk.
  unfold kl_normal_normal, tdiv, tsub, tadd, tbinop in Hk.
  cbn [shape expand_to tsqr tmap tshift tlog tscale] in Hk.
  repeat (rewrite broadcast_shapes_refl in Hk;
          cbn [rbind shape expand_to tsqr tmap tshift tlog tscale] in Hk).
  unfold tsum, dim in Hk. cbn -[bidx] in Hk. injection Hk as <-.
  cbn -[bidx]. rewrite ?H1, ?H2, ?H3, ?H4.
  rewrite !(bidx_pair B 1 i 0 Hi Nat.lt_0_1).
  reflexivity.
Qed.

Lemma kl_normal_scalar_same m s : (0 < s)%R -> kl_normal_scalar m s m s = 0%R.
Proof.
  intros Hs. unfold kl_normal_scalar.
  replace (s / s)%R with 1%R by (field; lra).
  replace ((m - m) / s)%R with 0%R by (field; lra).
  rewrite Rmult_1_l, ln_1. lra.
Qed.

(** X11.  In a cell where the library-size posterior equals the prior (same
    mean, same positive variance) the library KL term of [forward] is zero
    and the first output of [forward] is the reconstruction loss. *)
Theorem forward_loss_when_posterior_is_prior :
  forall (self : VAE) G B x local_l_mean local_l_var batch_index y w,
    VAE_wf self G -> package_ok G ->
    In (reconstruction_loss self) ["zinb"; "nb"] ->
    inputs_ok B G x local_l_mean local_l_var batch_index ->
    labels_ok self B y ->
    exists o w' reconst_loss kl_divergence_l kl_divergence_z total,
      inference self x batch_index y 1 w = (Ok o, w')
      /\ _reconstruction_loss self x (o_px_rate o) (o_px_r o) (o_px_dropout o)
         = Ok reconst_loss
      /\ kl_library (o_ql_m o) (o_ql_v o) local_l_mean local_l_var
         = Ok kl_divergence_l
      /\ forward self x local_l_mean local_l_var batch_index y w
         = (Ok (total, kl_divergence_z), w')
      /\ forall i, i < B ->
           at_ (o_ql_m o) [i; 0%nat] = at_ local_l_mean [i; 0%nat] ->
           at_ (o_ql_v o) [i; 0%nat] = at_ local_l_var [i; 0%nat] ->
           (0 < at_ local_l_var [i; 0%nat])%R ->
           at_ kl_divergence_l [i] = 0%R
           /\ at_ total [i] = at_ reconst_loss [i].
Proof.
  intros self G B x lm lv bi y w Hwf Hpk Hloss Hin Hy.
  destruct (forward_run self G B x lm lv bi y w Hwf Hpk Hloss Hin Hy)
    as (o & w' & rl & kll & klz & total & Hinf & Ho & Hrl & Hsrl & Hkll
        & Hskll & _ & _ & Ht & _ & Hf).
  exists o, w', rl, kll, klz, total. repeat (split; [assumption|]).
  intros i Hi Em Ev Hp.
  pose proof (sh_encoded Ho) as (_ & _ & _ & Hqlm & Hqlv & _).
  destruct Hin as [_ Hlm Hlv _].
  pose proof (kl_library_pointwise _ _ _ _ B kll Hqlm Hqlv Hlm Hlv Hkll i Hi)
    as Hk.
  rewrite Em, Ev, kl_normal_scalar_same in Hk by (now apply sqrt_lt_R0).
  rewrite (tadd_per_cell rl kll total B Hsrl Hskll Ht i Hi). rewrite Hk.
  split; lra.
Qed.

(** ** [get_log_ratio] *)

Lemma tbinop_per_cell f a b t B :
  shape a = [B] -> shape b = [B] -> tbinop f a b = Ok t ->
  forall i, i < B -> at_ t [i] = f (at_ a [i]) (at_ b [i]).
Proof.
  intros Ha Hb Ht i Hi. unfold tbinop in Ht.
  rewrite Ha, Hb, broadcast_shapes_refl in Ht. injection Ht as <-.
  cbn -[bidx]. now rewrite (bidx_single B i Hi).
Qed.

Lemma reconstruction_loss_is_negated self x px_rate px_r px_dropout rl :
  _reconstruction_loss self x px_rate px_r px_dropout = Ok rl ->
  exists ll,
    rl = tneg ll
    /\ (log_zinb_positive x px_rate px_r px_dropout = Ok ll
        /\ reconstruction_loss self = "zinb"
        \/ log_nb_positive x px_rate px_r = Ok ll
           /\ reconstruction_loss self = "nb").
Proof.
  unfold _reconstruction_loss. intros H.
  destruct (String.eqb_spec (reconstruction_loss self) "zinb") as [E | _].
  - apply rbind_ok_inv in H as (ll & Hll & H). injection H as <-.
    exists ll. auto.
  - destruct (String.eqb_spec (reconstruction_loss self) "nb") as [E | _];
      [| discriminate].
    apply rbind_ok_inv in H as (ll & Hll & H). injection H as <-.
    exists ll. auto.
Qed.

(** X8.  On a well-formed batch with one draw per cell and a diagonal
    covariance [get_log_ratio] returns one value per cell,
    [log_pz + log_px_z - log_qz_x], where [log_pz] and [log_qz_x] are the
    log-densities of [z] under the standard normal and under
    [Normal(qz_m, sqrt(qz_v))] summed over the latent axis, and where the
    term named [log_px_z] is the reconstruction loss: the negated
    log-likelihood of the counts.  In every cell the value is
    [log_pz - log-likelihood - log_qz_x]. *)
Theorem get_log_ratio_adds_reconstruction_loss :
  forall (self : VAE) G B x batch_index y n_samples w,
    VAE_wf self G -> z_full_cov self = false -> package_ok G ->
    In (reconstruction_loss self) ["zinb"; "nb"] ->
    shape x = [B; G] ->
    (exists b, batch_index = Some b /\ shape b = [B; 1]) ->
    labels_ok self B y -> (n_samples <= 1)%Z ->
    exists o w' log_likelihood dp lp log_pz dq lq log_qz_x out,
      inference self x batch_index y n_samples w = (Ok o, w')
      /\ _reconstruction_loss self x (o_px_rate o) (o_px_r o) (o_px_dropout o)
         = Ok (tneg log_likelihood)
      /\ (log_zinb_positive x (o_px_rate o) (o_px_r o) (o_px_dropout o)
          = Ok log_likelihood
          \/ log_nb_positive x (o_px_rate o) (o_px_r o) = Ok log_likelihood)
      /\ Normal (zeros (shape (o_qz_m o))) (ones (shape (o_qz_v o))) = Ok dp
      /\ log_prob dp (o_z o) = Ok lp /\ tsum lp (-1) = Ok log_pz
      /\ Normal (o_qz_m o) (tsqrt (o_qz_v o)) = Ok dq
      /\ log_prob dq (o_z o) = Ok lq /\ tsum lq (-1) = Ok log_qz_x
      /\ get_log_ratio self x batch_index y n_samples w = (Ok out, w')
      /\ shape out = [B]
      /\ forall i, i < B ->
           at_ out [i]
           = (at_ log_pz [i] - at_ log_likelihood [i] - at_ log_qz_x [i])%R.
Proof.
  intros self G B x bi y n w Hwf Hfull Hpk Hloss Hx Hbi Hy Hn.
  destruct (inference_single self G B x bi y n w Hwf Hpk Hx Hbi Hy Hn)
    as (o & st & Hinf & Ho).
  rewrite Hfull in Ho.
  pose proof (sh_encoded Ho) as (Hqm & Hqv & Hz & _).
  destruct (reconstruction_loss_shape self G B _ _ x o Hpk Hloss Hx Ho)
    as (rl & Hrl & Hsrl).
  destruct (reconstruction_loss_is_negated _ _ _ _ _ _ Hrl)
    as (ll & -> & Hll).
  destruct (Normal_same (zeros (shape (o_qz_m o))) (ones (shape (o_qz_v o)))
              [B; n_latent self]) as (l1 & s1 & HN1 & Hl1 & Hs1);
    [now cbn | now cbn |].
  destruct (log_prob_normal_shape l1 s1 (o_z o) [] _ Hl1 Hs1 Hz)
    as (lp & Hlp & Hslp).
  destruct (tsum_matrix lp B (n_latent self) (-1) Hslp (or_intror eq_refl))
    as (log_pz & Hpz & Hspz).
  destruct (Normal_same (o_qz_m o) (tsqrt (o_qz_v o)) [B; n_latent self]
              Hqm Hqv) as (l2 & s2 & HN2 & Hl2 & Hs2).
  destruct (log_prob_normal_shape l2 s2 (o_z o) [] _ Hl2 Hs2 Hz)
    as (lq & Hlq & Hslq).
  destruct (tsum_matrix lq B (n_latent self) (-1) Hslq (or_intror eq_refl))
    as (log_qz & Hqz & Hsqz).
  destruct (tbinop_same Rplus log_pz (tneg ll) [B] Hspz Hsrl)
    as (a & Ha & Hsa).
  destruct (tbinop_same Rminus a log_qz [B] Hsa Hsqz) as (out & Hout & Hso).
  eexists o, _, ll, _, lp, log_pz, _, lq, log_qz, out.
  split; [exact Hinf|]. split; [exact Hrl|].
  split; [destruct Hll as [[H _] | [H _]]; auto|].
  split; [exact HN1|]. split; [exact Hlp|]. split; [exact Hpz|].
  split; [exact HN2|]. split; [exact Hlq|]. split; [exact Hqz|].
  split; [| split; [exact Hso|]].
  - unfold get_log_ratio. rewrite (bind_ok _ _ _ _ _ Hinf). unfold lift.
    rewrite Hrl; cbn [rbind]. rewrite HN1; cbn [rbind].
    rewrite Hlp; cbn [rbind]. rewrite Hpz; cbn [rbind].
    rewrite HN2; cbn [rbind]. rewrite Hlq; cbn [rbind].
    rewrite Hqz; cbn [rbind]. unfold tadd, tsub.
    rewrite Ha; cbn [rbind]. now rewrite Hout.
  - intros i Hi.
    rewrite (tbinop_per_cell Rminus a log_qz out B Hsa Hsqz Hout i Hi).
    rewrite (tbinop_per_cell Rplus log_pz (tneg ll) a B Hspz Hsrl Ha i Hi).
    cbn. lra.
Qed.

(** ** The constructors *)

Lemma VAE__init___attrs G nb nl nh L nlayers dr disp lv loss fc st :
  let self := fst (VAE__init__ G nb nl nh L nlayers dr disp lv loss fc st) in
  dispersion self = disp /\ reconstruction_loss self = loss
  /\ log_variational self = lv /\ z_full_cov self = fc
  /\ n_latent self = L /\ n_batch self = nb /\ n_labels self = nl
  /\ n_latent_layers self = 1.
Proof.
  cbn zeta. unfold VAE__init__.
  repeat match goal with
         | |- context [let (_, _) := ?p in _] => destruct p
         end.
  cbn. auto 10.
Qed.

Lemma VAE__init___px_r_none G nb nl nh L nlayers dr disp lv loss fc st :
  ~ In disp ["gene"; "gene-batch"; "gene-label"] ->
  px_r (fst (VAE__init__ G nb nl nh L nlayers dr disp lv loss fc st)) = None.
Proof.
  intros Hmode. unfold VAE__init__.
  destruct (String.eqb_spec disp "gene") as [E | _].
  { exfalso. apply Hmode. rewrite E. cbn. auto. }
  destruct (String.eqb_spec disp "gene-batch") as [E | _].
  { exfalso. apply Hmode. rewrite E. cbn. auto. }
  destruct (String.eqb_spec disp "gene-label") as [E | _].
  { exfalso. apply Hmode. rewrite E. cbn. auto. }
  repeat match goal with
         | |- context [let (_, _) := ?p in _] => destruct p
         end.
  reflexivity.
Qed.

(** X9.  [VAE.__init__] sets the dispersion parameter [px_r] with shape
    [(n_input,)], [(n_input, n_batch)] or [(n_input, n_labels)] in the
    modes 'gene', 'gene-batch' and 'gene-label', and leaves the attribute
    unset in every other mode.  With one of the four documented modes and
    the likelihood 'zinb' or 'nb', the model it builds computes [forward]
    on every well-formed batch, with one value per cell in both outputs. *)
Theorem VAE_constructor_builds_working_model :
  forall n_input n_batch n_labels n_hidden n_latent n_layers dropout_rate
         dispersion log_variational reconstruction_loss full_cov st,
    constructors_ok ->
    let self := fst (VAE__init__ n_input n_batch n_labels n_hidden n_latent
                       n_layers dropout_rate dispersion log_variational
                       reconstruction_loss full_cov st) in
    (dispersion = "gene" ->
       exists p, px_r self = Some p /\ shape p = [n_input])
    /\ (dispersion = "gene-batch" ->
          exists p, px_r self = Some p /\ shape p = [n_input; n_batch])
    /\ (dispersion = "gene-label" ->
          exists p, px_r self = Some p /\ shape p = [n_input; n_labels])
    /\ (~ In dispersion ["gene"; "gene-batch"; "gene-label"] ->
          px_r self = None)
    /\ (forall B x local_l_mean local_l_var batch_index y w,
          package_ok n_input ->
          In dispersion dispersion_modes ->
          In reconstruction_loss ["zinb"; "nb"] ->
          inputs_ok B n_input x local_l_mean local_l_var batch_index ->
          (dispersion = "gene-label" ->
             exists l, y = Some l /\ shape l = [B; 1]) ->
          exists total kl_divergence_z w',
            forward self x local_l_mean local_l_var batch_index y w
            = (Ok (total, kl_divergence_z), w')
            /\ shape total = [B] /\ shape kl_divergence_z = [B]).
Proof.
  intros G nb nl nh L nlayers dr disp lv loss fc st Hc self.
  pose proof (VAE__init___attrs G nb nl nh L nlayers dr disp lv loss fc st)
    as (Hd & Hl & _ & _ & _ & Hnb & Hnl & _).
  fold self in Hd, Hl, Hnb, Hnl.
  assert (Hpx : In disp dispersion_modes -> px_r_ok self G).
  { intros Hm. exact (wf_px_r (VAE__init___wf G nb nl nh L nlayers dr disp lv
                                 loss fc st Hc Hm)). }
  split; [| split; [| split; [| split]]].
  - intros E. destruct (Hpx ltac:(rewrite E; cbn; auto)) as (H & _ & _).
    apply H. now rewrite Hd.
  - intros E. destruct (Hpx ltac:(rewrite E; cbn; auto)) as (_ & H & _).
    rewrite Hnb in H. apply H. now rewrite Hd.
  - intros E. destruct (Hpx ltac:(rewrite E; cbn; auto)) as (_ & _ & H).
    rewrite Hnl in H. apply H. now rewrite Hd.
  - apply VAE__init___px_r_none.
  - intros B x lm lv' bi y w Hpk Hm Hloss Hin Hy.
    pose proof (VAE__init___wf G nb nl nh L nlayers dr disp lv loss fc st Hc Hm)
      as Hwf. fold self in Hwf.
    destruct (forward_run self G B x lm lv' bi y w Hwf Hpk) as
      (o & w' & rl & kll & klz & total & _ & _ & _ & _ & _ & _ & _ & Hsk & _
       & Hst & Hf).
    + now rewrite Hl.
    + exact Hin.
    + intros E. apply Hy. now rewrite <- Hd.
    + exists total, klz, w'. auto.
Qed.

Lemma LDVAE__init___wf G nb nl nh L nlayers dr disp lv loss st :
  constructors_ok -> In disp dispersion_modes ->
  let self := fst (LDVAE__init__ G nb nl nh L nlayers dr disp lv loss st) in
  VAE_wf (ld_base self) G /\ z_full_cov (ld_base self) = false
  /\ dispersion (ld_base self) = disp
  /\ reconstruction_loss (ld_base self) = loss.
Proof.
  intros Hc Hm. cbn zeta. unfold LDVAE__init__.
  pose proof (VAE__init___wf G nb nl nh L nlayers dr disp lv loss false st Hc Hm)
    as Hwf.
  pose proof (VAE__init___attrs G nb nl nh L nlayers dr disp lv loss false st)
    as (Hd & Hl & _ & Hfc & HL & _).
  destruct (VAE__init__ G nb nl nh L nlayers dr disp lv loss false st)
    as [base st1]. cbn [fst] in *.
  pose proof (@linear_decoder_built _ _ Hc L G [nb] nlayers nh st1) as Hdec.
  destruct (LinearDecoderSCVI__init__ L G [nb] nlayers nh st1) as [dec st2].
  cbn [fst ld_base] in *. split; [| auto].
  destruct Hwf as [H1 H2 H3 H4 H5 H6].
  constructor; cbn; try assumption. now rewrite HL.
Qed.

Lemma ratio_loss_diagonal_run self G B x lm lv bi y w :
  VAE_wf self G -> z_full_cov self = false -> package_ok G ->
  In (reconstruction_loss self) ["zinb"; "nb"] ->
  inputs_ok B G x lm lv bi -> labels_ok self B y ->
  exists neg_elbo w',
    ratio_loss self x lm lv bi y w = (Ok neg_elbo, w') /\ shape neg_elbo = [].
Proof.
  intros Hwf Hfull Hpk Hloss [Hx Hlm Hlv Hbi] Hy.
  destruct (inference_single self G B x bi y 1 w Hwf Hpk Hx Hbi Hy
              (Z.le_refl 1)) as (o & st & Hinf & Ho).
  pose proof (wf_z_distrib Hwf) as Hd. rewrite Hfull in Hd, Ho.
  destruct (ratio_terms_diagonal self G B x lm lv o Hd Hfull Hpk Hloss Hx Hlm
              Hlv Ho) as (a & b & c & d & e & Ht & Ha & Hb & Hc & Hd' & He).
  assert (Hsame : same_shapes (a, b, c, d, e) = true).
  { unfold same_shapes. rewrite Ha, Hb, Hc, Hd', He.
    now rewrite shape_eqb_refl. }
  destruct (tbinop_same Rplus a c [B] Ha Hc) as (s1 & H1 & Hs1).
  destruct (tbinop_same Rplus s1 b [B] Hs1 Hb) as (s2 & H2 & Hs2).
  destruct (tbinop_same Rminus s2 d [B] Hs2 Hd') as (s3 & H3 & Hs3).
  destruct (tbinop_same Rminus s3 e [B] Hs3 He) as (s4 & H4 & Hs4).
  destruct (tmean_vector s4 B Hs4) as (m & Hm & Hsm).
  eexists (tneg m), _. split; [| exact Hsm].
  unfold ratio_loss. rewrite (bind_ok _ _ _ _ _ Hinf). run_lift Ht.
  rewrite Hsame, bind_assert_true. unfold lift, tadd, tsub.
  rewrite H1; cbn [rbind]. rewrite H2; cbn [rbind]. rewrite H3; cbn [rbind].
  rewrite H4; cbn [rbind]. now rewrite Hm.
Qed.

(** X16.  A model built by [LDVAE.__init__] always has a diagonal
    covariance and decodes with its linear decoder.  With one of the four
    dispersion modes and the likelihood 'zinb' or 'nb' it computes, on every
    well-formed batch, [forward] with one value per cell in both outputs and
    [ratio_loss] as a single number: the assertion of [ratio_loss] on equal
    shapes never fails on it. *)
Theorem LDVAE_losses_return :
  forall n_input n_batch n_labels n_hidden n_latent n_layers dropout_rate
         dispersion log_variational reconstruction_loss st
         B x local_l_mean local_l_var batch_index y w,
    constructors_ok -> package_ok n_input ->
    In dispersion dispersion_modes ->
    In reconstruction_loss ["zinb"; "nb"] ->
    inputs_ok B n_input x local_l_mean local_l_var batch_index ->
    (dispersion = "gene-label" -> exists l, y = Some l /\ shape l = [B; 1]) ->
    let self := fst (LDVAE__init__ n_input n_batch n_labels n_hidden n_latent
                       n_layers dropout_rate dispersion log_variational
                       reconstruction_loss st) in
    z_full_cov (ld_base self) = false
    /\ decoder (ld_base self) = lin_decoder (ld_decoder self)
    /\ (exists total kl_divergence_z w',
          forward (ld_base self) x local_l_mean local_l_var batch_index y w
          = (Ok (total, kl_divergence_z), w')
          /\ shape total = [B] /\ shape kl_divergence_z = [B])
    /\ (exists neg_elbo w',
          ratio_loss (ld_base self) x local_l_mean local_l_var batch_index y w
          = (Ok neg_elbo, w')
          /\ shape neg_elbo = []).
Proof.
  intros G nb nl nh L nlayers dr disp lv loss st B x lm lv' bi y w Hc Hpk Hm
         Hloss Hin Hy self.
  destruct (LDVAE__init___wf G nb nl nh L nlayers dr disp lv loss st Hc Hm)
    as (Hwf & Hfc & Hd & Hl). fold self in Hwf, Hfc, Hd, Hl.
  rewrite <- Hl in Hloss.
  assert (Hy' : labels_ok (ld_base self) B y).
  { intros E. apply Hy. now rewrite <- Hd. }
  split; [exact Hfc|]. split.
  { subst self. unfold LDVAE__init__.
    repeat match goal with
           | |- context [let (_, _) := ?p in _] => destruct p
           end. reflexivity. }
  split.
  - destruct (forward_run (ld_base self) G B x lm lv' bi y w Hwf Hpk Hloss Hin
                Hy')
      as (o & w' & rl & kll & klz & total & _ & _ & _ & _ & _ & _ & _ & Hsk & _
          & Hst & Hf).
    exists total, klz, w'. auto.
  - exact (ratio_loss_diagonal_run (ld_base self) G B x lm lv' bi y w Hwf Hfc
             Hpk Hloss Hin Hy').
Qed.

(** ** The value of [ratio_loss] *)

(** X17.  On a well-formed batch and a model with a diagonal covariance,
    [ratio_loss] is the negated mean over the cells of
    [log_px_zl + log_pz + log_pl - log_qz_x - log_ql_x], where [log_px_zl]
    is the log-likelihood of the counts itself (the reconstruction loss
    negated back). *)
Theorem ratio_loss_is_negated_mean_log_ratio :
  forall (self : VAE) G B x local_l_mean local_l_var batch_index y w,
    VAE_wf self G -> z_full_cov self = false -> package_ok G ->
    In (reconstruction_loss self) ["zinb"; "nb"] ->
    inputs_ok B G x local_l_mean local_l_var batch_index ->
    labels_ok self B y ->
    exists o w' log_likelihood log_px_zl log_pl log_pz log_qz_x log_ql_x
           neg_elbo,
      inference self x batch_index y 1 w = (Ok o, w')
      /\ (log_zinb_positive x (o_px_rate o) (o_px_r o) (o_px_dropout o)
          = Ok log_likelihood
          \/ log_nb_positive x (o_px_rate o) (o_px_r o) = Ok log_likelihood)
      /\ ratio_terms self x local_l_mean local_l_var o
         = Ok (log_px_zl, log_pl, log_pz, log_qz_x, log_ql_x)
      /\ (forall idx, at_ log_px_zl idx = at_ log_likelihood idx)
      /\ ratio_loss self x local_l_mean local_l_var batch_index y w
         = (Ok neg_elbo, w')
      /\ at_ neg_elbo []
         = (- (Rsum_upto B (fun i =>
                 at_ log_px_zl [i] + at_ log_pz [i] + at_ log_pl [i]
                 - at_ log_qz_x [i] - at_ log_ql_x [i])
               / INR B))%R.
Proof.
  intros self G B x lm lv bi y w Hwf Hfull Hpk Hloss [Hx Hlm Hlv Hbi] Hy.
  destruct (inference_single self G B x bi y 1 w Hwf Hpk Hx Hbi Hy
              (Z.le_refl 1)) as (o & st & Hinf & Ho).
  pose proof (wf_z_distrib Hwf) as Hd. rewrite Hfull in Hd, Ho.
  destruct (ratio_terms_diagonal self G B x lm lv o Hd Hfull Hpk Hloss Hx Hlm
              Hlv Ho) as (a & b & c & d & e & Ht & Ha & Hb & Hc & Hd' & He).
  assert (Hll : exists ll,
             (log_zinb_positive x (o_px_rate o) (o_px_r o) (o_px_dropout o)
              = Ok ll
              \/ log_nb_positive x (o_px_rate o) (o_px_r o) = Ok ll)
             /\ forall idx, at_ a idx = at_ ll idx).
  { destruct (reconstruction_loss_shape self G B _ _ x o Hpk Hloss Hx Ho)
      as (rl & Hrl & _).
    destruct (reconstruction_loss_is_negated _ _ _ _ _ _ Hrl)
      as (ll & -> & Hl).
    exists ll. split; [destruct Hl as [[H _] | [H _]]; auto|].
    unfold ratio_terms in Ht. cbn [get_prior_params] in Ht.
    rewrite Hrl in Ht. cbn [rbind] in Ht.
    repeat match type of Ht with
           | rbind ?r _ = Ok _ =>
               let v := fresh "v" in
               let E := fresh "E" in
               apply rbind_ok_inv in Ht as (v & E & Ht)
           end.
    destruct v8 as [pz qz]. cbn zeta iota beta in Ht.
    repeat match type of Ht with
           | rbind ?r _ = Ok _ =>
               let v := fresh "v" in
               let E := fresh "E" in
               apply rbind_ok_inv in Ht as (v & E & Ht)
           end.
    injection Ht as <- _ _ _ _. intros idx. cbn. lra. }
  destruct Hll as (ll & Hll & Hall).
  assert (Hsame : same_shapes (a, b, c, d, e) = true).
  { unfold same_shapes. rewrite Ha, Hb, Hc, Hd', He.
    now rewrite shape_eqb_refl. }
  destruct (tbinop_same Rplus a c [B] Ha Hc) as (s1 & H1 & Hs1).
  destruct (tbinop_same Rplus s1 b [B] Hs1 Hb) as (s2 & H2 & Hs2).
  destruct (tbinop_same Rminus s2 d [B] Hs2 Hd') as (s3 & H3 & Hs3).
  destruct (tbinop_same Rminus s3 e [B] Hs3 He) as (s4 & H4 & Hs4).
  eexists o, _, ll, a, b, c, d, e, _.
  split; [exact Hinf|]. split; [exact Hll|]. split; [exact Ht|].
  split; [exact Hall|]. split.
  - unfold ratio_loss. rewrite (bind_ok _ _ _ _ _ Hinf). run_lift Ht.
    rewrite Hsame, bind_assert_true. unfold lift, tadd, tsub.
    rewrite H1; cbn [rbind]. rewrite H2; cbn [rbind]. rewrite H3; cbn [rbind].
    rewrite H4; cbn [rbind]. unfold tmean, dim. rewrite Hs4.
    cbn [length norm_dim]. reflexivity.
  - cbn. f_equal. f_equal. apply Rsum_upto_ext. intros i Hi.
    unfold insert_at. cbn [firstn skipn app].
    rewrite (tbinop_per_cell Rminus s3 e s4 B Hs3 He H4 i Hi).
    rewrite (tbinop_per_cell Rminus s2 d s3 B Hs2 Hd' H3 i Hi).
    rewrite (tbinop_per_cell Rplus s1 b s2 B Hs1 Hb H2 i Hi).
    now rewrite (tbinop_per_cell Rplus a c s1 B Ha Hc H1 i Hi).
Qed.

(** ** The Poisson variant: the loss of a cell, and the constructor *)

(** X18.  On a well-formed batch [LogNormalPoissonVAE.forward] returns, as
    the first output of a cell, the negated Poisson log-density of its
    counts under the decoded rate, summed over the genes, plus the KL term
    of its library size.  The latent KL term is the second output and is
    not part of the first. *)
Theorem LogNormalPoissonVAE_forward_loss_per_cell :
  forall (self : LogNormalPoissonVAE) G B x local_l_mean local_l_var
         batch_index y w,
    LogNormalPoissonVAE_wf self G ->
    inputs_ok B G x local_l_mean local_l_var batch_index ->
    exists o w' kl_divergence_l kl_divergence_z total,
      LogNormalPoissonVAE_inference self x batch_index y 1
        {| w_store := {| st_rng := seeded 42;
                         st_buffers := st_buffers (w_store w) |};
           w_trace := w_trace w |} = (Ok o, w')
      /\ shape (po_px_rate o) = [B; G]
      /\ kl_library (po_ql_m o) (po_ql_v o) local_l_mean local_l_var
         = Ok kl_divergence_l
      /\ kl_latent (lnp_z_encoder self) (po_qz_m o) (po_qz_v o)
                   (fst (LogNormalPoissonVAE_get_prior_params self))
                   (snd (LogNormalPoissonVAE_get_prior_params self))
         = Ok kl_divergence_z
      /\ LogNormalPoissonVAE_forward self x local_l_mean local_l_var
                                     batch_index y w
         = (Ok (total, kl_divergence_z), w')
      /\ forall i, i < B ->
           at_ total [i]
           = (Rsum_upto G (fun g =>
                - (at_ x [i; g] * ln (at_ (po_px_rate o) [i; g])
                   - at_ (po_px_rate o) [i; g]
                   - lgamma (at_ x [i; g] + 1)))
              + at_ kl_divergence_l [i])%R.
Proof.
  intros self G B x lm lv bi y w Hwf Hin.
  destruct (LogNormalPoissonVAE_forward_run self G B x lm lv bi y w Hwf Hin)
    as (o & w' & rl & kll & klz & total & Hinf & Hrl & Hsrl & Hkll & Hskll
        & Hklz & _ & Ht & _ & Hf).
  destruct Hin as [Hx _ _ Hbi].
  destruct (LogNormalPoissonVAE_inference_single self G B x bi y 1
              {| w_store := {| st_rng := seeded 42;
                               st_buffers := st_buffers (w_store w) |};
                 w_trace := w_trace w |} Hwf Hx Hbi (Z.le_refl 1))
    as (o1 & st & Hinf1 & Hrate & _).
  rewrite Hinf in Hinf1. injection Hinf1 as <- _.
  exists o, w', kll, klz, total. repeat (split; [assumption|]).
  intros i Hi.
  rewrite (tbinop_per_cell Rplus rl kll total B Hsrl Hskll Ht i Hi).
  destruct (poisson_reconstruction_pointwise x (po_px_rate o) B G rl Hx Hrate
              Hrl) as (_ & Hcell).
  now rewrite (Hcell i Hi).
Qed.

Lemma LogNormalPoissonVAE__init___wf G nb nl nh L nlayers dr lv fc ar st :
  constructors_ok ->
  (forall L' G' cats nl' nh' st',
     decoder_poisson_ok (fst (DecoderPoisson__init__ L' G' cats nl' nh' st'))
                        L' G') ->
  let self := fst (LogNormalPoissonVAE__init__ G nb nl nh L nlayers dr lv fc
                                               ar st) in
  LogNormalPoissonVAE_wf self G
  /\ lnp_n_latent self = L /\ lnp_z_full_cov self = fc
  /\ lnp_z_autoregressive self = ar /\ lnp_log_variational self = lv.
Proof.
  intros Hc Hd. cbn zeta. unfold LogNormalPoissonVAE__init__.
  pose proof (@encoder_built _ _ Hc G L nlayers nh dr (Some fc) (Some ar) st)
    as Hz.
  destruct (Encoder__init__ G L nlayers nh dr (Some fc) (Some ar) st)
    as [ze st1].
  pose proof (@encoder_built _ _ Hc G 1 1 nh dr None None st1) as Hl.
  destruct (Encoder__init__ G 1 1 nh dr None None st1) as [le st2].
  pose proof (Hd L G [nb] nlayers nh st2) as Hp.
  destruct (DecoderPoisson__init__ L G [nb] nlayers nh st2) as [dec st3].
  cbn [fst] in *. cbn zeta in Hz, Hl. split; [| now cbn].
  constructor; cbn.
  - destruct fc, ar; apply Hz.
  - destruct fc, ar; apply Hz.
  - apply Hl.
  - exact Hp.
Qed.

(** X19.  A model built by [LogNormalPoissonVAE.__init__] from sub-networks
    that meet their contracts keeps the constructor's arguments, has the
    identity matrix as the scale of its latent prior exactly when a full
    covariance or an autoregressive encoder was asked for (a vector of ones
    otherwise), and its [forward] returns two per-cell tensors on every
    well-formed batch. *)
Theorem LogNormalPoissonVAE_constructor_builds_working_model :
  forall n_input n_batch n_labels n_hidden n_latent n_layers dropout_rate
         log_variational full_cov autoregressive st,
    constructors_ok ->
    (forall L G cats nl nh st',
       decoder_poisson_ok (fst (DecoderPoisson__init__ L G cats nl nh st'))
                          L G) ->
    let self := fst (LogNormalPoissonVAE__init__ n_input n_batch n_labels
                       n_hidden n_latent n_layers dropout_rate log_variational
                       full_cov autoregressive st) in
    fst (LogNormalPoissonVAE_get_prior_params self) = zeros [n_latent]
    /\ (full_cov = true \/ autoregressive = true ->
          snd (LogNormalPoissonVAE_get_prior_params self) = eye n_latent)
    /\ (full_cov = false -> autoregressive = false ->
          snd (LogNormalPoissonVAE_get_prior_params self) = ones [n_latent])
    /\ (forall B x local_l_mean local_l_var batch_index y w,
          inputs_ok B n_input x local_l_mean local_l_var batch_index ->
          exists total kl_divergence_z w',
            LogNormalPoissonVAE_forward self x local_l_mean local_l_var
                                        batch_index y w
            = (Ok (total, kl_divergence_z), w')
            /\ shape total = [B] /\ shape kl_divergence_z = [B]).
Proof.
  intros G nb nl nh L nlayers dr lv fc ar st Hc Hd self.
  destruct (LogNormalPoissonVAE__init___wf G nb nl nh L nlayers dr lv fc ar st
              Hc Hd) as (Hwf & HL & Hfc & Har & _).
  fold self in Hwf, HL, Hfc, Har.
  unfold LogNormalPoissonVAE_get_prior_params. cbn [fst snd].
  rewrite HL, Hfc, Har. split; [reflexivity|]. split; [|split].
  - intros [-> | ->]; [reflexivity | now rewrite orb_true_r].
  - now intros -> ->.
  - intros B x l_mean l_var bi y w Hin.
    destruct (LogNormalPoissonVAE_forward_run self G B x l_mean l_var bi y w
                Hwf Hin)
      as (o & w' & rl & kll & klz & total & _ & _ & _ & _ & _ & _ & Hsk & _
          & Hst & Hf).
    exists total, klz, w'. auto.
Qed.
End FurtherProperties.
(** * The claims on the concrete instance *)

#[local] Open Scope string_scope.
#[local] Open Scope list_scope.
#[local] Existing Instance toy_runtime.
#[local] Existing Instance toy_package.

Lemma toy_mode_ok disp :
  disp = "gene" \/ disp = "gene-batch" \/ disp = "gene-label"
  \/ disp = "gene-cell" ->
  In disp dispersion_modes.
Proof. cbn. intuition. Qed.

Lemma toy_labels_none disp loss fc :
  disp <> "gene-label" -> labels_ok (toy_vae disp loss fc) 2 None.
Proof.
  intros H E. exfalso. apply H. revert E. unfold toy_vae, VAE__init__.
  repeat match goal with
         | |- context [if ?b then _ else _] => destruct b
         end; cbn; auto.
Qed.

Lemma toy_labels_some disp loss fc :
  labels_ok (toy_vae disp loss fc) 2 (Some toy_y).
Proof. intros _. now exists toy_y. Qed.

(** C1 on a batch of two cells, in the 'gene-batch' mode and on the Poisson
    variant. *)
Lemma forward_returns_loss_and_latent_kl_witness :
  (exists total kl_divergence_z w',
     forward (toy_vae "gene-batch" "zinb" false) toy_x toy_l_mean toy_l_var
             (Some toy_batch_index) None toy_world
     = (Ok (total, kl_divergence_z), w'))
  /\ (exists total kl_divergence_z w',
        LogNormalPoissonVAE_forward (toy_lnp false) toy_x toy_l_mean toy_l_var
          (Some toy_batch_index) None toy_world
        = (Ok (total, kl_divergence_z), w')).
Proof.
  split.
  - destruct (proj1 (@forward_returns_loss_and_latent_kl toy_runtime toy_package)
                (toy_vae "gene-batch" "zinb" false) 3 2 toy_x toy_l_mean
                toy_l_var (Some toy_batch_index) None toy_world)
      as (o & w' & rl & kll & klz & total & H).
    + apply toy_vae_wf, toy_mode_ok. auto.
    + apply toy_package_ok.
    + now left.
    + apply toy_inputs_ok.
    + apply toy_labels_none. discriminate.
    + exists total, klz, w'. apply H.
  - destruct (proj2 (@forward_returns_loss_and_latent_kl toy_runtime toy_package)
                (toy_lnp false) 3 2 toy_x toy_l_mean toy_l_var
                (Some toy_batch_index) None toy_world)
      as (o & w' & rl & kll & klz & total & H).
    + apply toy_lnp_wf.
    + apply toy_inputs_ok.
    + exists total, klz, w'. apply H.
Defined.

(** C2 on a batch of two cells: both outputs have shape [[2]], with a full
    covariance in the 'gene-label' mode and on the Poisson variant. *)
Lemma forward_outputs_per_cell_witness :
  (exists total kl_divergence_z w',
     forward (toy_vae "gene-label" "nb" true) toy_x toy_l_mean toy_l_var
             (Some toy_batch_index) (Some toy_y) toy_world
     = (Ok (total, kl_divergence_z), w')
     /\ shape total = [2] /\ shape kl_divergence_z = [2])
  /\ (exists total kl_divergence_z w',
        LogNormalPoissonVAE_forward (toy_lnp true) toy_x toy_l_mean toy_l_var
          (Some toy_batch_index) None toy_world
        = (Ok (total, kl_divergence_z), w')
        /\ shape total = [2] /\ shape kl_divergence_z = [2]).
Proof.
  split.
  - destruct (proj1 (@forward_outputs_per_cell toy_runtime toy_package)
                (toy_vae "gene-label" "nb" true) 3 2 toy_x toy_l_mean
                toy_l_var (Some toy_batch_index) (Some toy_y) toy_world)
      as (o & rl & kll & klz & total & w' & _ & _ & _ & _ & _ & _ & Hk & _
          & Ht & H).
    + apply toy_vae_wf, toy_mode_ok. auto.
    + apply toy_package_ok.
    + right. now left.
    + apply toy_inputs_ok.
    + apply toy_labels_some.
    + exists total, klz, w'. auto.
  - destruct (proj2 (@forward_outputs_per_cell toy_runtime toy_package)
                (toy_lnp true) 3 2 toy_x toy_l_mean toy_l_var
                (Some toy_batch_index) None toy_world)
      as (o & rl & kll & klz & total & w' & _ & _ & _ & _ & _ & _ & Hk & _
          & Ht & H).
    + apply toy_lnp_wf.
    + apply toy_inputs_ok.
    + exists total, klz, w'. auto.
Defined.

(** C3 on a batch of two cells in the 'gene-batch' mode, and on the
    mean-variance model with two draws per cell. *)
Lemma inference_resolves_dispersion_witness :
  (exists o w' oh p raw,
     inference (toy_vae "gene-batch" "zinb" false) toy_x
               (Some toy_batch_index) None 1 toy_world = (Ok o, w')
     /\ one_hot (Some toy_batch_index) 2 = Ok oh
     /\ px_r (toy_vae "gene-batch" "zinb" false) = Some p
     /\ F_linear oh p = Ok raw
     /\ o_px_r o = texp raw)
  /\ (exists o w' raw,
        MeanVarianceVAE_inference toy_mvvae toy_x (Some toy_batch_index) None 2
                                  toy_world = (Ok o, w')
        /\ o_px_r o = texp raw).
Proof.
  split.
  - eexists _, _.
    destruct (proj1 (@inference_resolves_dispersion toy_runtime toy_package)
                (toy_vae "gene-batch" "zinb" false) toy_x
                (Some toy_batch_index) None 1%Z toy_world _ _ eq_refl)
      as (raw & Hexp & _ & Hgb & _).
    destruct (Hgb eq_refl) as (oh & p & Hoh & Hp & Hlin).
    exists oh, p, raw. repeat split; assumption || reflexivity.
  - eexists _, _.
    destruct (proj2 (@inference_resolves_dispersion toy_runtime toy_package)
                toy_mvvae toy_x (Some toy_batch_index) None 2%Z toy_world
                _ _ eq_refl)
      as (nb_mean & net & raw & _ & _ & _ & Hexp).
    exists raw. split; [reflexivity | exact Hexp].
Defined.



(** C5 as stated fails: with two draws per cell and a full covariance the
    assertion is reached only after the two encoder passes have run and
    drawn from the generator, so the call does not fail with the world
    untouched. *)
Lemma inference_assertion_follows_encoder_passes :
  ~ (forall (self : @VAE toy_runtime) x batch_index y n_samples w,
       z_full_cov self = true -> (1 < n_samples)%Z ->
       inference self x batch_index y n_samples w = (Raise AssertionError, w)).
Proof.
  intros H.
  specialize (H (toy_vae "gene" "zinb" true) toy_x (Some toy_batch_index) None
                2%Z toy_world eq_refl eq_refl).
  apply (f_equal (fun r => w_trace (snd r))) in H. cbn in H. discriminate H.
Qed.

(** C5 on a batch of two cells: the failure with two draws per cell and a
    full covariance, after the two encoder passes and nothing else, and the
    success with one draw. *)
Lemma inference_multi_sample_full_cov_witness :
  (exists st,
     inference (toy_vae "gene" "zinb" true) toy_x (Some toy_batch_index) None
               2 toy_world
     = (Raise AssertionError,
        {| w_store := st; w_trace := [ZEncoderForward; LEncoderForward] |}))
  /\ (exists o w',
        inference (toy_vae "gene" "zinb" true) toy_x (Some toy_batch_index)
                  None 1 toy_world = (Ok o, w'))
  /\ (exists st,
        LogNormalPoissonVAE_inference (toy_lnp true) toy_x
          (Some toy_batch_index) None 2 toy_world
        = (Raise AssertionError,
           {| w_store := st; w_trace := [ZEncoderForward; LEncoderForward] |}))
  /\ (exists o w',
        LogNormalPoissonVAE_inference (toy_lnp true) toy_x
          (Some toy_batch_index) None 1 toy_world = (Ok o, w')).
Proof.
  pose proof (@inference_multi_sample_full_cov toy_runtime toy_package)
    as (H1 & H2 & H3 & H4).
  repeat split.
  - destruct (H1 (toy_vae "gene" "zinb" true) 3 2 toy_x (Some toy_batch_index)
                None 2%Z toy_world) as (rz & st1 & rl & st2 & _ & _ & H).
    + apply toy_encoder_ok.
    + apply toy_encoder_ok.
    + reflexivity.
    + reflexivity.
    + reflexivity.
    + exists st2. exact H.
  - apply (H2 (toy_vae "gene" "zinb" true) 3 2 toy_x (Some toy_batch_index)
              None toy_world).
    + apply toy_vae_wf, toy_mode_ok. auto.
    + apply toy_package_ok.
    + reflexivity.
    + now exists toy_batch_index.
    + apply toy_labels_none. discriminate.
  - destruct (H3 (toy_lnp true) 3 2 toy_x (Some toy_batch_index)
                None 2%Z toy_world) as (rz & st1 & rl & st2 & _ & _ & H).
    + apply toy_encoder_ok.
    + apply toy_encoder_ok.
    + reflexivity.
    + reflexivity.
    + reflexivity.
    + exists st2. exact H.
  - apply (H4 (toy_lnp true) 3 2 toy_x (Some toy_batch_index) None toy_world).
    + apply toy_lnp_wf.
    + reflexivity.
    + now exists toy_batch_index.
Defined.

(** C7 on a batch of two cells with a full covariance: the assertion of
    [ratio_loss] fails. *)
Lemma ratio_loss_full_cov_assertion_witness :
  exists w',
    ratio_loss (toy_vae "gene" "zinb" true) toy_x toy_l_mean toy_l_var
               (Some toy_batch_index) None toy_world
    = (Raise AssertionError, w').
Proof.
  destruct (@ratio_loss_full_cov_assertion toy_runtime toy_package
              (toy_vae "gene" "zinb" true) 3 2 toy_x toy_l_mean toy_l_var
              (Some toy_batch_index) None toy_world)
    as (o & w' & a & b & c & d & e & _ & _ & _ & _ & _ & _ & _ & H).
  - apply toy_vae_wf, toy_mode_ok. auto.
  - reflexivity.
  - apply toy_package_ok.
  - now left.
  - apply toy_inputs_ok.
  - apply toy_labels_none. discriminate.
  - exists w'. exact H.
Defined.

(** C8 on the linearly decoded instance: the weight matrix the regressor
    holds itself comes first in the loadings. *)
Lemma get_loadings_enumerates_witness :
  exists rest,
    get_loadings toy_ldvae
    = {| p_id := 0; p_data := zeros [3; 2]; requires_grad := true |} :: rest.
Proof.
  destruct (proj1 (@get_loadings_enumerates toy_runtime toy_package) toy_ldvae)
    as (_ & _ & _ & H).
  destruct (H _ _ eq_refl) as (rest & Hrest).
  - repeat constructor. intros [].
  - exists rest. exact Hrest.
Defined.

(** The diagonal case of C7 on a batch of two cells: [ratio_loss] returns a
    single number. *)
Lemma ratio_loss_diagonal_shapes_witness :
  exists neg_elbo w',
    ratio_loss (toy_vae "gene" "zinb" false) toy_x toy_l_mean toy_l_var
               (Some toy_batch_index) None toy_world
    = (Ok neg_elbo, w')
    /\ shape neg_elbo = [].
Proof.
  destruct (@ratio_loss_diagonal_shapes toy_runtime toy_package
              (toy_vae "gene" "zinb" false) 3 2 toy_x toy_l_mean toy_l_var
              (Some toy_batch_index) None toy_world)
    as (o & w' & a & b & c & d & e & m & _ & _ & _ & _ & _ & _ & _ & _ & H).
  - apply toy_vae_wf, toy_mode_ok. auto.
  - reflexivity.
  - apply toy_package_ok.
  - now left.
  - apply toy_inputs_ok.
  - apply toy_labels_none. discriminate.
  - exists m, w'. exact H.
Defined.


(** C10 on a batch of two cells with the likelihood name 'poisson':
    [forward] and [ratio_loss] raise [UnboundLocalError]; with 'nb' the
    reconstruction loss is a tensor. *)
Lemma reconstruction_loss_defined_for_zinb_and_nb_witness :
  (exists w',
     forward (toy_vae "gene" "poisson" false) toy_x toy_l_mean toy_l_var
             (Some toy_batch_index) None toy_world
     = (Raise UnboundLocalError, w')
     /\ ratio_loss (toy_vae "gene" "poisson" false) toy_x toy_l_mean toy_l_var
                   (Some toy_batch_index) None toy_world
        = (Raise UnboundLocalError, w'))
  /\ _reconstruction_loss (toy_vae "gene" "nb" false) toy_x toy_x toy_x toy_x
     = rbind (log_nb_positive toy_x toy_x toy_x) (fun l => Ok (tneg l)).
Proof.
  pose proof (@reconstruction_loss_defined_for_zinb_and_nb toy_runtime
                toy_package) as (_ & Hnb & _ & Hfwd & _).
  split.
  - apply (Hfwd (toy_vae "gene" "poisson" false) 3 2 toy_x toy_l_mean toy_l_var
             (Some toy_batch_index) None toy_world).
    + apply toy_vae_wf, toy_mode_ok. auto.
    + apply toy_package_ok.
    + cbn. intros [H | [H | []]]; discriminate H.
    + apply toy_inputs_ok.
    + apply toy_labels_none. discriminate.
  - apply (Hnb (toy_vae "gene" "nb" false)). reflexivity.
Defined.

(** * Further properties on the concrete instance *)

Lemma toy_linear_init_ok : @linear_init_ok toy_runtime.
Proof. intros n_in n_out r. split; reflexivity. Qed.

Lemma toy_mv_weights_ok : mv_weights_ok toy_mvvae 4.
Proof. repeat split. Qed.


(** X3 on the mean-variance model and a batch of two cells: the dispersion
    of the last gene of the second cell. *)
Lemma MeanVarianceVAE_dispersion_pointwise_witness :
  exists o w' nb_mean,
    MeanVarianceVAE_inference toy_mvvae toy_x (Some toy_batch_index) None 1
                              toy_world = (Ok o, w')
    /\ tmul (o_px_scale o) (o_library o) = Ok nb_mean
    /\ at_ (o_px_r o) [1; 2]
       = exp (px_r_net_scalar toy_mvvae 4 (at_ nb_mean [1; 2])).
Proof.
  eexists _, _.
  destruct (@MeanVarianceVAE_dispersion_pointwise toy_runtime toy_mvvae 4
              toy_x (Some toy_batch_index) None 1%Z toy_world _ _
              toy_mv_weights_ok eq_refl)
    as (nb_mean & Hmul & Hs & _ & Hat).
  exists nb_mean. split; [reflexivity|]. split; [exact Hmul|].
  apply Hat. rewrite Hs. repeat constructor.
Defined.

(** X4 on a model with three genes and four hidden units. *)
Lemma MeanVarianceVAE_inference_returns_witness :
  exists o w',
    MeanVarianceVAE_inference toy_mvvae toy_x (Some toy_batch_index) None 1
                              toy_world = (Ok o, w')
    /\ shape (o_px_scale o) = [2; 3]
    /\ shape (o_px_r o) = [2; 3].
Proof.
  destruct (@MeanVarianceVAE_inference_returns toy_runtime toy_package
              3 2 2 8 2 1 (1 / 10)%R true "zinb" false 4 toy_store
              2 toy_x (Some toy_batch_index) None 1%Z toy_world
              toy_constructors_ok toy_linear_init_ok eq_refl)
    as (_ & o & w' & H).
  - now exists toy_batch_index.
  - discriminate.
  - exists o, w'. exact H.
Defined.


(** X6 on a batch of two cells and the batch 1, on a 1-d input, and on two
    models that differ in their dispersion mode and likelihood only. *)
Lemma scale_from_z_fixed_library_and_batch_witness :
  (exists px_scale st',
     scale_from_z (toy_vae "gene" "zinb" false) toy_x 1 toy_world
     = (Ok px_scale,
        {| w_store := st'; w_trace := [ZEncoderForward; DecoderForward] |}))
  /\ (exists st,
        scale_from_z (toy_vae "gene" "zinb" false) (of_list [3] [1; 0; 2]%R)
                     1 toy_world
        = (Raise IndexError,
           {| w_store := st; w_trace := [ZEncoderForward] |}))
  /\ scale_from_z (toy_vae "gene-batch" "nb" false) toy_x 1 toy_world
     = scale_from_z (toy_vae "gene" "zinb" false) toy_x 1 toy_world.
Proof.
  destruct (@scale_from_z_fixed_library_and_batch toy_runtime)
    as (Hok & Hidx & Hsame).
  split; [|split].
  - eexists _, _.
    eapply (Hok (toy_vae "gene" "zinb" false) toy_x 1%R toy_world).
    + reflexivity.
    + reflexivity.
    + lia.
    + reflexivity.
  - eexists.
    eapply (Hidx (toy_vae "gene" "zinb" false) (of_list [3] [1; 0; 2]%R) 1%R
              toy_world).
    + reflexivity.
    + left. cbn. lia.
  - apply Hsame; reflexivity.
Defined.


(** X8 on a batch of two cells with one draw per cell. *)
Lemma get_log_ratio_adds_reconstruction_loss_witness :
  exists out w',
    get_log_ratio (toy_vae "gene" "zinb" false) toy_x (Some toy_batch_index)
                  None 1 toy_world = (Ok out, w')
    /\ shape out = [2].
Proof.
  destruct (@get_log_ratio_adds_reconstruction_loss toy_runtime toy_package
              (toy_vae "gene" "zinb" false) 3 2 toy_x (Some toy_batch_index)
              None 1%Z toy_world)
    as (o & w' & ll & dp & lp & log_pz & dq & lq & log_qz_x & out & _ & _ & _
        & _ & _ & _ & _ & _ & _ & H & Hs & _).
  - apply toy_vae_wf, toy_mode_ok. auto.
  - reflexivity.
  - apply toy_package_ok.
  - now left.
  - reflexivity.
  - now exists toy_batch_index.
  - apply toy_labels_none. discriminate.
  - discriminate.
  - exists out, w'. auto.
Defined.

(** X9 on the constructor called in the 'gene-batch' mode with three genes
    and two batches. *)
Lemma VAE_constructor_builds_working_model_witness :
  (exists p,
     px_r (toy_vae "gene-batch" "zinb" false) = Some p /\ shape p = [3; 2])
  /\ (exists total kl_divergence_z w',
        forward (toy_vae "gene-batch" "zinb" false) toy_x toy_l_mean toy_l_var
                (Some toy_batch_index) None toy_world
        = (Ok (total, kl_divergence_z), w')
        /\ shape total = [2] /\ shape kl_divergence_z = [2]).
Proof.
  destruct (@VAE_constructor_builds_working_model toy_runtime toy_package
              3 2 2 8 2 1 (1 / 10)%R "gene-batch" true "zinb" false toy_store
              toy_constructors_ok)
    as (_ & Hgb & _ & _ & Hfwd).
  split.
  - apply Hgb. reflexivity.
  - apply Hfwd.
    + apply toy_package_ok.
    + apply toy_mode_ok. auto.
    + now left.
    + apply toy_inputs_ok.
    + discriminate.
Defined.

(** X11 on a batch of two cells whose library-size prior is the standard
    normal, which is what the encoder of the instance returns: the loss of
    the first cell is its reconstruction loss. *)
Lemma forward_loss_when_posterior_is_prior_witness :
  exists o w' reconst_loss kl_divergence_z total,
    inference (toy_vae "gene" "zinb" false) toy_x (Some toy_batch_index) None
              1 toy_world = (Ok o, w')
    /\ _reconstruction_loss (toy_vae "gene" "zinb" false) toy_x (o_px_rate o)
                            (o_px_r o) (o_px_dropout o) = Ok reconst_loss
    /\ forward (toy_vae "gene" "zinb" false) toy_x (zeros [2; 1]) (ones [2; 1])
               (Some toy_batch_index) None toy_world
       = (Ok (total, kl_divergence_z), w')
    /\ at_ total [0] = at_ reconst_loss [0].
Proof.
  destruct (@forward_loss_when_posterior_is_prior toy_runtime toy_package
              (toy_vae "gene" "zinb" false) 3 2 toy_x (zeros [2; 1])
              (ones [2; 1]) (Some toy_batch_index) None toy_world)
    as (o & w' & rl & kll & klz & total & Hinf & Hrl & _ & Hfwd & Heq).
  - apply toy_vae_wf, toy_mode_ok. auto.
  - apply toy_package_ok.
  - now left.
  - constructor; try reflexivity. now exists toy_batch_index.
  - apply toy_labels_none. discriminate.
  - exists o, w', rl, klz, total.
    split; [exact Hinf|]. split; [exact Hrl|]. split; [exact Hfwd|].
    assert (Ho : exists o0 w0,
               inference (toy_vae "gene" "zinb" false) toy_x
                         (Some toy_batch_index) None 1 toy_world = (Ok o0, w0)
               /\ at_ (o_ql_m o0) [0; 0] = 0%R
               /\ at_ (o_ql_v o0) [0; 0] = 1%R)
      by (eexists _, _; repeat split; reflexivity).
    destruct Ho as (o0 & w0 & E & Hm & Hv). rewrite Hinf in E.
    injection E as <- _.
    apply (Heq 0).
    + lia.
    + rewrite Hm. reflexivity.
    + rewrite Hv. reflexivity.
    + cbn. lra.
Defined.

(** X12 on counts and rates of shape [[2; 3]], and on 1-d counts. *)
Lemma LogNormalPoissonVAE_reconstruction_loss_axes_witness :
  (exists t,
     LogNormalPoissonVAE_reconstruction_loss toy_x (ones [2; 3]) = Ok t
     /\ shape t = [2]
     /\ at_ t [1]
        = Rsum_upto 3 (fun g =>
            - (at_ toy_x [1%nat; g] * ln (at_ (ones [2; 3]%nat) [1%nat; g])
               - at_ (ones [2; 3]%nat) [1%nat; g]
               - lgamma (at_ toy_x [1%nat; g] + 1)))%R)
  /\ LogNormalPoissonVAE_reconstruction_loss (of_list [3] [1; 0; 2]%R)
                                             (ones [3])
     = Raise AssertionError.
Proof.
  destruct (@LogNormalPoissonVAE_reconstruction_loss_axes toy_runtime)
    as (Haxes & Hcell).
  split.
  - destruct (proj1 (Haxes toy_x (ones [2; 3]) [2; 3] eq_refl) eq_refl)
      as (t & Ht & Hs).
    exists t. split; [exact Ht|]. split; [exact Hs|].
    apply (proj2 (Hcell toy_x (ones [2; 3]) 2 3 t eq_refl eq_refl Ht) 1).
    lia.
  - apply (proj2 (Haxes (of_list [3] [1; 0; 2]%R) (ones [3]) [3] eq_refl)).
    discriminate.
Defined.

(** X13 in the 'gene-cell' mode, where the decoder of the instance returns
    a dispersion, and in a mode it does not know, where it returns none. *)
Lemma inference_other_dispersion_modes_witness :
  resolve_px_r (toy_vae "gene-cell" "zinb" false) (Some toy_x)
               (Some toy_batch_index) None = Ok (Some toy_x)
  /\ (exists st',
        inference (toy_vae "gene-gene" "zinb" false) toy_x
                  (Some toy_batch_index) None 1 toy_world
        = (Raise TypeError,
           {| w_store := st';
              w_trace := [ZEncoderForward; LEncoderForward;
                          DecoderForward] |})).
Proof.
  split.
  - apply (@inference_other_dispersion_modes toy_runtime toy_package
             (toy_vae "gene-cell" "zinb" false) toy_x (Some toy_batch_index)
             None 1%Z toy_world).
    cbn. intros [H | [H | [H | []]]]; discriminate H.
  - destruct (@inference_other_dispersion_modes toy_runtime toy_package
                (toy_vae "gene-gene" "zinb" false) toy_x
                (Some toy_batch_index) None 1%Z toy_world) as (_ & _ & H).
    + cbn. intros [H | [H | [H | []]]]; discriminate H.
    + eexists.
      refine (H _ _ _ _ _ _
                (@mkWorld toy_runtime _ [ZEncoderForward; LEncoderForward])
                _ _ _ _ _ _); reflexivity.
Defined.

(** X15 on a batch of two cells: one draw per cell, and two draws per cell
    with a full covariance. *)
Lemma get_sample_scale_and_rate_witness :
  (exists o w',
     inference (toy_vae "gene" "zinb" false) toy_x (Some toy_batch_index) None
               1 toy_world = (Ok o, w')
     /\ get_sample_scale (toy_vae "gene" "zinb" false) toy_x
                         (Some toy_batch_index) None 1 toy_world
        = (Ok (o_px_scale o), w')
     /\ get_sample_rate (toy_vae "gene" "zinb" false) toy_x
                        (Some toy_batch_index) None 1 toy_world
        = (Ok (o_px_rate o), w')
     /\ shape (o_px_scale o) = [2; 3] /\ shape (o_px_rate o) = [2; 3])
  /\ (exists w',
        get_sample_scale (toy_vae "gene" "zinb" true) toy_x
                         (Some toy_batch_index) None 2 toy_world
        = (Raise AssertionError, w')
        /\ get_sample_rate (toy_vae "gene" "zinb" true) toy_x
                           (Some toy_batch_index) None 2 toy_world
           = (Raise AssertionError, w')
        /\ w_trace w' = [ZEncoderForward; LEncoderForward]).
Proof.
  destruct (@get_sample_scale_and_rate toy_runtime toy_package)
    as (Hone & Hmany).
  split.
  - destruct (Hone (toy_vae "gene" "zinb" false) 3 2 toy_x
                (Some toy_batch_index) None 1%Z toy_world)
      as (o & w' & H1 & H2 & H3 & H4 & H5 & _).
    + apply toy_vae_wf, toy_mode_ok. auto.
    + apply toy_package_ok.
    + reflexivity.
    + now exists toy_batch_index.
    + apply toy_labels_none. discriminate.
    + discriminate.
    + exists o, w'. auto.
  - apply (Hmany (toy_vae "gene" "zinb" true) 3 2 toy_x
             (Some toy_batch_index) None 2%Z toy_world).
    + apply toy_encoder_ok.
    + apply toy_encoder_ok.
    + reflexivity.
    + reflexivity.
    + reflexivity.
Defined.

(** X16 on the linearly decoded model with three genes. *)
Lemma LDVAE_losses_return_witness :
  z_full_cov (ld_base toy_ldvae) = false
  /\ (exists total kl_divergence_z w',
        forward (ld_base toy_ldvae) toy_x toy_l_mean toy_l_var
                (Some toy_batch_index) None toy_world
        = (Ok (total, kl_divergence_z), w')
        /\ shape total = [2] /\ shape kl_divergence_z = [2])
  /\ (exists neg_elbo w',
        ratio_loss (ld_base toy_ldvae) toy_x toy_l_mean toy_l_var
                   (Some toy_batch_index) None toy_world
        = (Ok neg_elbo, w')
        /\ shape neg_elbo = []).
Proof.
  destruct (@LDVAE_losses_return toy_runtime toy_package
              3 2 2 8 2 1 (1 / 10)%R "gene" true "zinb" toy_store
              2 toy_x toy_l_mean toy_l_var (Some toy_batch_index) None
              toy_world toy_constructors_ok (toy_package_ok 3))
    as (Hfc & _ & Hfwd & Hratio).
  - apply toy_mode_ok. auto.
  - now left.
  - apply toy_inputs_ok.
  - discriminate.
  - split; [exact Hfc|]. split; [exact Hfwd | exact Hratio].
Defined.

(** X17 on a batch of two cells. *)
Lemma ratio_loss_is_negated_mean_log_ratio_witness :
  exists o log_px_zl log_pl log_pz log_qz_x log_ql_x neg_elbo w',
    ratio_terms (toy_vae "gene" "zinb" false) toy_x toy_l_mean toy_l_var o
    = Ok (log_px_zl, log_pl, log_pz, log_qz_x, log_ql_x)
    /\ ratio_loss (toy_vae "gene" "zinb" false) toy_x toy_l_mean toy_l_var
                  (Some toy_batch_index) None toy_world
       = (Ok neg_elbo, w')
    /\ at_ neg_elbo []
       = (- (Rsum_upto 2 (fun i =>
               at_ log_px_zl [i] + at_ log_pz [i] + at_ log_pl [i]
               - at_ log_qz_x [i] - at_ log_ql_x [i])
             / 2))%R.
Proof.
  destruct (@ratio_loss_is_negated_mean_log_ratio toy_runtime toy_package
              (toy_vae "gene" "zinb" false) 3 2 toy_x toy_l_mean toy_l_var
              (Some toy_batch_index) None toy_world)
    as (o & w' & ll & a & b & c & d & e & m & _ & _ & Ht & _ & Hr & Hv).
  - apply toy_vae_wf, toy_mode_ok. auto.
  - reflexivity.
  - apply toy_package_ok.
  - now left.
  - apply toy_inputs_ok.
  - apply toy_labels_none. discriminate.
  - exists o, a, b, c, d, e, m, w'.
    split; [exact Ht|]. split; [exact Hr|]. rewrite Hv.
    replace (INR 2) with 2%R by (cbn; lra). reflexivity.
Defined.

(** X18 on a batch of two cells. *)
Lemma LogNormalPoissonVAE_forward_loss_per_cell_witness :
  exists o kl_divergence_l kl_divergence_z total w',
    kl_library (po_ql_m o) (po_ql_v o) toy_l_mean toy_l_var
    = Ok kl_divergence_l
    /\ LogNormalPoissonVAE_forward (toy_lnp false) toy_x toy_l_mean toy_l_var
                                   (Some toy_batch_index) None toy_world
       = (Ok (total, kl_divergence_z), w')
    /\ at_ total [1]
       = (Rsum_upto 3 (fun g =>
            - (at_ toy_x [1%nat; g] * ln (at_ (po_px_rate o) [1%nat; g])
               - at_ (po_px_rate o) [1%nat; g]
               - lgamma (at_ toy_x [1%nat; g] + 1)))
          + at_ kl_divergence_l [1%nat])%R.
Proof.
  destruct (@LogNormalPoissonVAE_forward_loss_per_cell toy_runtime
              (toy_lnp false) 3 2 toy_x toy_l_mean toy_l_var
              (Some toy_batch_index) None toy_world (toy_lnp_wf false)
              toy_inputs_ok)
    as (o & w' & kll & klz & total & _ & _ & Hk & _ & Hf & Hcell).
  exists o, kll, klz, total, w'.
  split; [exact Hk|]. split; [exact Hf|]. apply Hcell. lia.
Defined.

(** X19 on the constructor called with three genes, two latent dimensions
    and a full covariance. *)
Lemma LogNormalPoissonVAE_constructor_builds_working_model_witness :
  snd (LogNormalPoissonVAE_get_prior_params (toy_lnp true)) = eye 2
  /\ snd (LogNormalPoissonVAE_get_prior_params (toy_lnp false)) = ones [2]
  /\ (exists total kl_divergence_z w',
        LogNormalPoissonVAE_forward (toy_lnp true) toy_x toy_l_mean toy_l_var
                                    (Some toy_batch_index) None toy_world
        = (Ok (total, kl_divergence_z), w')
        /\ shape total = [2] /\ shape kl_divergence_z = [2]).
Proof.
  assert (Hd : forall L G cats nl nh st',
             decoder_poisson_ok
               (fst (@DecoderPoisson__init__ toy_runtime toy_package L G cats
                                             nl nh st')) L G)
    by (intros; apply toy_decoder_poisson_ok).
  destruct (@LogNormalPoissonVAE_constructor_builds_working_model toy_runtime
              toy_package 3 2 2 8 2 1 (1 / 10)%R true true false toy_store
              toy_constructors_ok Hd) as (_ & Heye & _ & Hfwd).
  destruct (@LogNormalPoissonVAE_constructor_builds_working_model toy_runtime
              toy_package 3 2 2 8 2 1 (1 / 10)%R true false false toy_store
              toy_constructors_ok Hd) as (_ & _ & Hones & _).
  split; [|split].
  - apply Heye. now left.
  - apply Hones; reflexivity.
  - apply Hfwd, toy_inputs_ok.
Defined.
